(** * Sharding stage-1 V2 (split param) support of the unified checkpoint

    A shallow embedding of
    [paddlenlp/trainer/unified_checkpoint/sharding_split_param_utils.py]
    and the properties of its resharding protocol.

    Conventions of the embedding:
    - Python integers are [Z]; element counts of tensors are [Z.of_nat (length _)].
    - A Python [dict] that is iterated or mutated in place is an association
      list in insertion order (module [OrderedDict]); a dict that is only built
      and looked up is a [gmap].
    - A raised exception (KeyError, IndexError, a shape mismatch inside the
      tensor library) or a receive that no message ever matches is [None].
    - Point-to-point communication is explicit state: every rank threads a
      [Net], holding the messages other ranks address to it and the messages
      it has emitted. *)

From stdpp Require Import gmap strings list fin_maps sorting.
From Stdlib Require Import ZArith Lia Ascii.

Local Open Scope Z_scope.

(** ** Python dictionaries in insertion order *)

Module OrderedDict.
Section defs.
Context {V : Type}.
Implicit Types (d : list (string * V)) (k : string) (v : V).

(** [d[k]], [None] standing for KeyError. *)
Fixpoint od_get d k : option V :=
  match d with
  | [] => None
  | (k', v) :: d' => if decide (k' = k) then Some v else od_get d' k
  end.

(** [d[k] = v]: an existing key keeps its position, a new one is appended. *)
Fixpoint od_set d k v : list (string * V) :=
  match d with
  | [] => [(k, v)]
  | (k', v') :: d' =>
      if decide (k' = k) then (k, v) :: d' else (k', v') :: od_set d' k v
  end.

(** The dictionary without [k]. *)
Fixpoint od_del d k : list (string * V) :=
  match d with
  | [] => []
  | (k', v') :: d' =>
      if decide (k' = k) then od_del d' k else (k', v') :: od_del d' k
  end.

(** [d.pop(k)] without a default: KeyError when [k] is absent. *)
Definition od_pop d k : option (V * list (string * V)) :=
  match od_get d k with
  | Some v => Some (v, od_del d k)
  | None => None
  end.

(** [list(d.keys())]. *)
Definition od_keys d : list string := d.*1.

(** [k in d]. *)
Definition od_mem d k : bool := bool_decide (is_Some (od_get d k)).

(** [d'] is [d] up to an assignment to the existing key [k] or its removal. *)
Definition od_touched k d d' : Prop :=
  d' = d ∨ (k ∈ od_keys d ∧ ∃ v, d' = od_set d k v) ∨ d' = od_del d k.
End defs.
End OrderedDict.
Export OrderedDict.

(** [for x in xs: body], threading the state and stopping at the first error. *)
Fixpoint for_each {A S : Type} (body : A → S → option S) (xs : list A) (s : S)
  : option S :=
  match xs with
  | [] => Some s
  | x :: xs' =>
      match body x s with
      | Some s' => for_each body xs' s'
      | None => None
      end
  end.

(** ** Python strings *)

Definition slash : ascii := "/"%char.
Definition underscore : ascii := "_"%char.

(** [s.split("/")]: the pieces between the separators, never empty. *)
Fixpoint split_slash (s : string) : list string :=
  match s with
  | EmptyString => [EmptyString]
  | String c s' =>
      if decide (c = slash) then EmptyString :: split_slash s'
      else match split_slash s' with
           | [] => [String c EmptyString]
           | p :: ps => String c p :: ps
           end
  end.

(** ["_".join(parts)]. *)
Fixpoint join_underscore (parts : list string) : string :=
  match parts with
  | [] => EmptyString
  | [p] => p
  | p :: ps => p +:+ String underscore (join_underscore ps)
  end.

(** [s.startswith(p)]. *)
Definition startswith (s p : string) : bool := String.prefix p s.

(** [s.endswith(p)]. *)
Definition endswith (s p : string) : bool :=
  String.prefix (String.rev p) (String.rev s).

(** [f"{key}/{typename}"]. *)
Definition slash_join (key typename : string) : string :=
  key +:+ String slash typename.

(** *** The pattern [_?shard\d+_?]

    [re.sub] with the empty replacement scans [s] from the left and deletes every
    (leftmost, greedy) match.  A match is never empty, so the scan is a
    structural recursion with a counter of characters still to delete.
    Strings are sequences of ASCII characters here; [\d] is ['0'..'9']. *)

Definition is_digit (c : ascii) : bool :=
  ((48 <=? N_of_ascii c) && (N_of_ascii c <=? 57))%N.

Fixpoint digits_len (s : string) : nat :=
  match s with
  | String c s' => if is_digit c then S (digits_len s') else O
  | EmptyString => O
  end.

Fixpoint drop_string (n : nat) (s : string) : string :=
  match n, s with
  | S n', String _ s' => drop_string n' s'
  | _, _ => s
  end.

(** Number of characters [shard\d+_?] matches at the start of [s]. *)
Definition shard_len (s : string) : option nat :=
  if String.prefix "shard" s then
    let r := drop_string 5 s in
    let n := digits_len r in
    if decide (n = O) then None
    else Some (5 + n + (if String.prefix "_" (drop_string n r) then 1 else 0))%nat
  else None.

(** Number of characters [_?shard\d+_?] matches at the start of [s]. *)
Definition token_len (s : string) : option nat :=
  match s with
  | String c s' => if decide (c = underscore) then S <$> shard_len s' else shard_len s
  | EmptyString => None
  end.

Fixpoint sub_shard (skip : nat) (s : string) : string :=
  match s with
  | EmptyString => EmptyString
  | String c s' =>
      match skip with
      | S k => sub_shard k s'
      | O =>
          match token_len s with
          | Some (S k) => sub_shard k s'
          | _ => String c (sub_shard O s')
          end
      end
  end.

(** [re.sub] of the pattern by the empty string. *)
Definition strip_shard (s : string) : string := sub_shard O s.

(** ** Tensors *)

Inductive DType := float16 | bfloat16 | float32 | float64 | int8 | uint8.

#[global] Instance DType_eq_dec : EqDecision DType.
Proof. solve_decision. Defined.

(** What the embedding needs from the tensor library about element values:
    the value [paddle.zeros] fills with and the element-wise [paddle.cast]. *)
Class Backend := {
  elem : Type;
  zero_elem : DType → elem;
  cast_elem : DType → DType → elem → elem;
}.

(** What the embedding needs from [unified_checkpoint/utils.py], which is
    outside this file: the key-to-static-name splitter and the suffix token of
    master weights. *)
Class Utils := {
  generate_base_static_name : string → string * string;
  FP32_MASTER : string;
}.

Section tensors.
Context `{Backend}.

(** A tensor: its [name], [dtype], [shape] and its elements in row-major
    order. *)
Record Tensor := mkTensor {
  t_name : string;
  t_dtype : DType;
  t_shape : list Z;
  t_data : list elem;
}.

(** [t.numel()]. *)
Definition numel (t : Tensor) : Z := Z.of_nat (length (t_data t)).

(** A 1-D tensor: its shape is its element count. *)
Definition is_vec (t : Tensor) : Prop := t_shape t = [numel t].

Definition prodZ (s : list Z) : Z := foldr Z.mul 1 s.

Definition with_shape (t : Tensor) (s : list Z) : Tensor :=
  {| t_name := t_name t; t_dtype := t_dtype t; t_shape := s; t_data := t_data t |}.

Definition with_data (t : Tensor) (s : list Z) (d : list elem) : Tensor :=
  {| t_name := t_name t; t_dtype := t_dtype t; t_shape := s; t_data := d |}.

Definition with_name (t : Tensor) (n : string) : Tensor :=
  {| t_name := n; t_dtype := t_dtype t; t_shape := t_shape t; t_data := t_data t |}.

(** Target shape of [reshape]: a [0] copies the input dimension at the same
    position, a single [-1] is inferred from the element count. *)
Fixpoint copy_dims (target input : list Z) : option (list Z) :=
  match target with
  | [] => Some []
  | d :: target' =>
      rest ← copy_dims target' (tail input);
      if decide (d = 0) then
        match input with
        | i :: _ => Some (i :: rest)
        | [] => None
        end
      else Some (d :: rest)
  end.

Definition infer_dim (n : Z) (s : list Z) : option (list Z) :=
  let unknown := filter (λ d, d = -1) s in
  let known := filter (λ d, d ≠ -1) s in
  if bool_decide (Exists (λ d, d < -1) s) then None
  else match unknown with
       | [] => if decide (prodZ s = n) then Some s else None
       | [_] =>
           let p := prodZ known in
           if decide (p ≠ 0 ∧ n `mod` p = 0)
           then Some ((λ d, if decide (d = -1) then n `div` p else d) <$> s)
           else None
       | _ => None
       end.

(** [t.reshape(s)]. *)
Definition reshape (t : Tensor) (s : list Z) : option Tensor :=
  s1 ← copy_dims s (t_shape t);
  s2 ← infer_dim (numel t) s1;
  Some (with_shape t s2).

(** Python's normalisation of a slice bound against a dimension [n]. *)
Definition py_index (n i : Z) : Z :=
  if decide (i < 0) then Z.max (i + n) 0 else Z.min i n.

(** [l[a:b]] on a Python sequence. *)
Definition py_slice {A : Type} (l : list A) (a b : Z) : list A :=
  let n := Z.of_nat (length l) in
  let a' := py_index n a in
  let b' := py_index n b in
  take (Z.to_nat (b' - a')) (drop (Z.to_nat a') l).

(** [t[a:b]]: a slice along the first axis; a 0-d tensor cannot be
    indexed. *)
Definition tslice (t : Tensor) (a b : Z) : option Tensor :=
  match t_shape t with
  | [] => None
  | d :: rest =>
      let a' := py_index d a in
      let b' := py_index d b in
      let r := prodZ rest in
      Some (with_data t (Z.max 0 (b' - a') :: rest)
              (take (Z.to_nat ((b' - a') * r)) (drop (Z.to_nat (a' * r)) (t_data t))))
  end.

(** [t[:n]]. *)
Definition tprefix (t : Tensor) (n : Z) : option Tensor := tslice t 0 n.

(** [paddle.zeros([n], dtype)]. *)
Definition zeros (n : Z) (dt : DType) : option Tensor :=
  if decide (n < 0) then None
  else Some {| t_name := EmptyString; t_dtype := dt; t_shape := [n];
               t_data := replicate (Z.to_nat n) (zero_elem dt) |}.

(** [paddle.empty(shape=[n], dtype)]: the content is unspecified until it
    is overwritten; the embedding fills it with the zero value. *)
Definition empty (n : Z) (dt : DType) : option Tensor := zeros n dt.

(** [paddle.concat(ts, axis=0)]: the inputs agree on the dtype and on every
    dimension but the first. *)
Fixpoint concat_with (dt : DType) (rest : list Z) (ts : list Tensor)
  : option (Z * list elem) :=
  match ts with
  | [] => Some (0, [])
  | t :: ts' =>
      match t_shape t with
      | d :: rest' =>
          if decide (t_dtype t = dt ∧ rest' = rest) then
            '(n, data) ← concat_with dt rest ts';
            Some (d + n, t_data t ++ data)
          else None
      | [] => None
      end
  end.

Definition concat (ts : list Tensor) : option Tensor :=
  match ts with
  | [] => None
  | t :: _ =>
      match t_shape t with
      | _ :: rest =>
          '(n, data) ← concat_with (t_dtype t) rest ts;
          Some {| t_name := EmptyString; t_dtype := t_dtype t; t_shape := n :: rest;
                  t_data := data |}
      | [] => None
      end
  end.

(** [paddle.cast(t, dtype)]. *)
Definition cast (t : Tensor) (dt : DType) : Tensor :=
  {| t_name := t_name t; t_dtype := dt; t_shape := t_shape t;
     t_data := cast_elem (t_dtype t) dt <$> t_data t |}.

(** [t._copy_to(place, blocking)]: the same tensor on another device. *)
Definition _copy_to (t : Tensor) : Tensor := t.
End tensors.

(** A state dict: structural or static names to tensors, in insertion order. *)
Abbreviation StateDict := (list (string * Tensor)).

(** ** Point-to-point communication *)

Section network.
Context `{Backend}.

(** The communication state of one rank: per source rank, the messages
    addressed to this rank that it has not consumed yet, in sending order;
    and the messages this rank has emitted, oldest first. *)
Record Net := mkNet {
  inbox : gmap Z (list (list elem));
  outbox : list (Z * list elem);
}.

Definition empty_net : Net := {| inbox := ∅; outbox := [] |}.

(** [dist.stream.send(tensor, dst=dst)].  A tensor without elements cannot
    be sent: the call raises ValueError. *)
Definition send (tensor : Tensor) (dst : Z) (net : Net) : option Net :=
  if decide (t_data tensor = []) then None
  else Some {| inbox := inbox net; outbox := outbox net ++ [(dst, t_data tensor)] |}.

(** [dist.stream.recv(buf, src=src)]: the oldest message of [src] fills the
    buffer; it has to carry exactly as many elements as the buffer holds. *)
Definition recv (buf : Tensor) (src : Z) (net : Net) : option (Tensor * Net) :=
  match inbox net !! src with
  | Some (m :: ms) =>
      if decide (length m = length (t_data buf))
      then Some (with_data buf (t_shape buf) m,
                 {| inbox := <[src := ms]> (inbox net); outbox := outbox net |})
      else None
  | _ => None
  end.
End network.

(** ** The merge engine *)

(** [(shape, numel, index, padded_size)] of a logical parameter. *)
Abbreviation ShapeInfo := (list Z * Z * Z * Z)%type.

(** A send plan: [(sender_rank, begin, end)] tuples. *)
Abbreviation SendInfo := (list (Z * Z * Z)).

Section merge.
Context `{Backend} `{Utils}.

Definition static_name_of (is_master_weights : bool) (key : string) : string :=
  if is_master_weights then key else (generate_base_static_name key).1.

(** The fragment a rank contributes from its own entry:
    [state_dict[key] if padding_start >= padding_end
     else state_dict[key][: padding_start - begin]]. *)
Definition own_fragment (t : Tensor) (begin end_ : Z)
    (base_padding_start base_padding_end : Z) : option Tensor :=
  let padding_start := Z.max begin base_padding_start in
  let padding_end := Z.min end_ base_padding_end in
  if bool_decide (padding_start >= padding_end) then Some t
  else tprefix t (padding_start - begin).

(** The length of the buffer the owner receives a foreign fragment into. *)
Definition recv_length (begin end_ : Z)
    (base_padding_start base_padding_end : Z) : Z :=
  let padding_start := Z.max begin base_padding_start in
  let padding_end := Z.min end_ base_padding_end in
  if bool_decide (padding_start >= padding_end) then end_ - begin
  else padding_start - begin.

(** The loop of the receiving rank over the send plan (lines 83-96): the
    entry [cur = state_dict[key]] is not modified while the loop runs. *)
Fixpoint collect_fragments (recv_rank : Z) (cur : Tensor)
    (base_padding_start base_padding_end : Z) (send_info : SendInfo) (net : Net)
  : option (list Tensor * Net) :=
  match send_info with
  | [] => Some ([], net)
  | (send_rank, begin, end_) :: rest =>
      '(tensor, net1) ←
        (if bool_decide (send_rank = recv_rank) then
           tensor ← own_fragment cur begin end_ base_padding_start base_padding_end;
           Some (tensor, net)
         else
           let length := recv_length begin end_ base_padding_start base_padding_end in
           tmp_tensor ← empty length (t_dtype cur);
           recv tmp_tensor send_rank net);
      '(tmp_tensor_list, net2) ←
        collect_fragments recv_rank cur base_padding_start base_padding_end rest net1;
      Some (tensor :: tmp_tensor_list, net2)
  end.

(** The loop of every other rank over the send plan (lines 99-107): at each
    tuple of its own it sends its fragment and pops the key.  A rank whose
    tuple lies in the padding has no element to send, and the send fails. *)
Fixpoint send_fragments (global_rank recv_rank : Z) (key : string)
    (base_padding_start base_padding_end : Z) (send_info : SendInfo)
    (state_dict : StateDict) (net : Net) : option (StateDict * Net) :=
  match send_info with
  | [] => Some (state_dict, net)
  | (send_rank, begin, end_) :: rest =>
      if bool_decide (global_rank = send_rank) then
        cur ← od_get state_dict key;
        tensor ← own_fragment cur begin end_ base_padding_start base_padding_end;
        net' ← send tensor recv_rank net;
        '(_, state_dict') ← od_pop state_dict key;
        send_fragments global_rank recv_rank key base_padding_start base_padding_end
          rest state_dict' net'
      else
        send_fragments global_rank recv_rank key base_padding_start base_padding_end
          rest state_dict net
  end.

Section merge_splited_param.
Variables (global_rank : Z)
          (partial_tensor_list : list string)
          (param_shape_info : gmap string ShapeInfo)
          (send_table : gmap string SendInfo)
          (recv_table : gmap string Z)
          (is_master_weights : bool)
          (ckpt_quant_stage : string).

(** The body of the first loop (lines 66-107). *)
Definition merge_entry (key : string) (st : StateDict * Net)
  : option (StateDict * Net) :=
  let '(state_dict, net) := st in
  cur ← od_get state_dict key;
  if bool_decide (numel cur = 1) then Some st
  else
    let static_name := static_name_of is_master_weights key in
    '(shape, numel, index, padded_size) ← param_shape_info !! static_name;
    if bool_decide (static_name ∉ partial_tensor_list) then
      t ← reshape cur shape;
      Some (od_set state_dict key t, net)
    else
      recv_rank ← recv_table !! static_name;
      send_info ← send_table !! static_name;
      let base_padding_start := index + numel in
      let base_padding_end := index + padded_size in
      if bool_decide (global_rank = recv_rank) then
        '(tmp_tensor_list, net') ←
          collect_fragments recv_rank cur base_padding_start base_padding_end
            send_info net;
        merged ← concat tmp_tensor_list;
        t ← reshape merged shape;
        Some (od_set state_dict key t, net')
      else
        send_fragments global_rank recv_rank key base_padding_start
          base_padding_end send_info state_dict net.

(** The body of the second loop (lines 111-117). *)
Definition drop_scalar_entry (key : string) (state_dict : StateDict)
  : option StateDict :=
  cur ← od_get state_dict key;
  if bool_decide (numel cur = 1) then
    let static_name := static_name_of is_master_weights key in
    if bool_decide (static_name ∈ partial_tensor_list) then
      recv_rank ← recv_table !! static_name;
      send_info ← send_table !! static_name;
      if bool_decide (global_rank ≠ recv_rank)
      then snd <$> od_pop state_dict key
      else Some state_dict
    else Some state_dict
  else Some state_dict.

Definition merge_splited_param (state_dict : StateDict) (net : Net)
  : option (StateDict * Net) :=
  '(state_dict1, net1) ← for_each merge_entry (od_keys state_dict) (state_dict, net);
  if bool_decide (ckpt_quant_stage ≠ "O0") then
    state_dict2 ← for_each drop_scalar_entry (od_keys state_dict1) state_dict1;
    Some (state_dict2, net1)
  else Some (state_dict1, net1).
End merge_splited_param.
End merge.

(** ** Communication buffers and slice catalogs *)

(** One entry of [buffer._sharding_param_grad_view]: the slice of a logical
    parameter that the rank holds, with the parameter's shape, element count,
    offset in the flat buffer and padded size. *)
Record View := mkView {
  _param_begin : Z;
  _param_end : Z;
  _param_shape : list Z;
  _param_numel : Z;
  _index : Z;
  _padded_size : Z;
}.

(** [buffer._sharding_param_grad_view], a dict from static names to views. *)
Abbreviation CommBuffer := (list (string * View)).

(** A value of the catalog a rank publishes: the [(begin, end)] tuple of a
    parameter, or the integer stored under the key ["global_rank"]. *)
Inductive SliceEntry :=
| SliceRange (begin end_ : Z)
| RankId (rank : Z).

Definition as_range (e : SliceEntry) : option (Z * Z) :=
  match e with SliceRange b e => Some (b, e) | RankId _ => None end.

Definition as_rank (e : SliceEntry) : option Z :=
  match e with RankId r => Some r | SliceRange _ _ => None end.

Definition shape_info_of (v : View) : ShapeInfo :=
  (_param_shape v, _param_numel v, _index v, _padded_size v).

(** Lines 129-140: the slice and shape of every parameter of every buffer. *)
Definition collect_slice_info (comm_buffer_list : list CommBuffer)
  : gmap string SliceEntry * gmap string ShapeInfo :=
  foldl (λ acc buffer,
           foldl (λ acc '(key, v),
                    (<[key := SliceRange (_param_begin v) (_param_end v)]> acc.1,
                     <[key := shape_info_of v]> acc.2))
                 acc buffer)
        (∅, ∅) comm_buffer_list.

(** Line 141. *)
Definition local_slice_info (global_rank : Z) (comm_buffer_list : list CommBuffer)
  : gmap string SliceEntry :=
  <["global_rank" := RankId global_rank]> (collect_slice_info comm_buffer_list).1.

(** A member of the sharding group, as far as the catalog exchange sees it. *)
Record Peer := mkPeer {
  peer_rank : Z;
  peer_comm_buffer_list : list CommBuffer;
}.

(** [dist.all_gather_object] over the sharding group: every member, this rank
    included, runs the same lines 129-141, and the result lists the members'
    catalogs in group order. *)
Definition all_gather_object (group : list Peer) : list (gmap string SliceEntry) :=
  (λ p, local_slice_info (peer_rank p) (peer_comm_buffer_list p)) <$> group.

(** Lines 171-175: the ranks holding a non-empty slice of [key]. *)
Fixpoint sharding_ranklist_of (key : string)
    (param_slice_info_list : list (gmap string SliceEntry)) : option SendInfo :=
  match param_slice_info_list with
  | [] => Some []
  | slice_info :: rest =>
      '(begin, end_) ← slice_info !! key ≫= as_range;
      if bool_decide (end_ > begin) then
        rank ← slice_info !! "global_rank" ≫= as_rank;
        sharding_ranklist ← sharding_ranklist_of key rest;
        Some ((rank, begin, end_) :: sharding_ranklist)
      else sharding_ranklist_of key rest
  end.

(** The body of the loop of lines 170-177 on [(send_table, recv_table)]. *)
Definition resolve_owner (param_slice_info_list : list (gmap string SliceEntry))
    (key : string) (tables : gmap string SendInfo * gmap string Z)
  : option (gmap string SendInfo * gmap string Z) :=
  sharding_ranklist ← sharding_ranklist_of key param_slice_info_list;
  '(rank, _, _) ← head sharding_ranklist;
  Some (<[key := sharding_ranklist]> tables.1, <[key := rank]> tables.2).

Section gather.
Context `{Backend} `{Utils}.

(** [optimizer.state_dict()] after [nested_copy]: the tensor entries, the
    nested dict under ["master_weights"] and whether ["LR_Scheduler"] is
    present.  The two special entries are fields of their own. *)
Record OptimizerState := mkOptimizerState {
  entries : StateDict;
  master_weights : option StateDict;
  LR_Scheduler : bool;
}.

Record Optimizer := mkOptimizer {
  _comm_buffer_list : list CommBuffer;
  state_dict : OptimizerState;
}.

(** The body of the classification loop (lines 155-166) on
    [(optim_state_dict, partial_tensor_list)]. *)
Definition classify_entry (param_slice_info : gmap string SliceEntry)
    (param_shape_info : gmap string ShapeInfo) (key : string)
    (st : StateDict * list string) : option (StateDict * list string) :=
  let '(optim_state_dict, partial_tensor_list) := st in
  let static_name := (generate_base_static_name key).1 in
  match param_slice_info !! static_name with
  | None => Some st
  | Some entry =>
      cur ← od_get optim_state_dict key;
      if bool_decide (numel cur = 1) then Some st
      else
        '(begin, end_) ← as_range entry;
        '(shape, numel, _, _) ← param_shape_info !! static_name;
        if bool_decide (end_ - begin = numel) then
          t ← reshape cur shape;
          Some (od_set optim_state_dict key t, partial_tensor_list)
        else if bool_decide (end_ <= begin) then Some st
        else Some (optim_state_dict, partial_tensor_list ++ [static_name])
  end.

Definition gather_splited_param_for_optimizer (group : list Peer) (global_rank : Z)
    (optimizer : Optimizer) (ckpt_quant_stage : string) (net : Net)
  : option (StateDict * option StateDict * Net) :=
  let param_shape_info := (collect_slice_info (_comm_buffer_list optimizer)).2 in
  let param_slice_info := local_slice_info global_rank (_comm_buffer_list optimizer) in
  let param_slice_info_list := all_gather_object group in
  let optim_state_dict := entries (state_dict optimizer) in
  let master_weights := master_weights (state_dict optimizer) in
  '(optim_state_dict, partial_tensor_list) ←
    for_each (classify_entry param_slice_info param_shape_info)
      (od_keys optim_state_dict) (optim_state_dict, []);
  '(send_table, recv_table) ←
    for_each (resolve_owner param_slice_info_list) partial_tensor_list (∅, ∅);
  '(optim_state_dict, net) ←
    merge_splited_param global_rank partial_tensor_list param_shape_info send_table
      recv_table false ckpt_quant_stage optim_state_dict net;
  match master_weights with
  | Some master_weights =>
      '(master_weights, net) ←
        merge_splited_param global_rank partial_tensor_list param_shape_info send_table
          recv_table true "O0" master_weights net;
      Some (optim_state_dict, Some master_weights, net)
  | None => Some (optim_state_dict, None, net)
  end.
End gather.

(** ** The split engine (load path) *)

(** Lines 187-204: only the parameters the rank holds ([end > begin]). *)
Definition get_params_info (comm_buffer_list : list CommBuffer)
  : list string * gmap string (Z * Z) * gmap string ShapeInfo :=
  foldl (λ acc buffer,
           foldl (λ '(expected_keys, param_slice_info, param_shape_info) '(key, v),
                    let begin := _param_begin v in
                    let end_ := _param_end v in
                    if bool_decide (end_ > begin) then
                      (expected_keys ++ [key],
                       <[key := (begin, end_)]> param_slice_info,
                       <[key := shape_info_of v]> param_shape_info)
                    else (expected_keys, param_slice_info, param_shape_info))
                 acc buffer)
        ([], ∅, ∅) comm_buffer_list.

Section split.
Context `{Backend} `{Utils}.

(** [key.split("/")[0]]. *)
Definition struct_name_of (key : string) : string :=
  default EmptyString (head (split_slash key)).

Section reshape_params.
Variables (struct2static_name_mappings : gmap string string)
          (param_shape_info : gmap string ShapeInfo)
          (param_slice_info : gmap string (Z * Z)).

(** What lines 213-226 make of one entry with more than one element, given
    the static name the mapping returned ([None] for Python's [None]). *)
Definition reshape_param (static_name : option string) (cur : Tensor)
  : option Tensor :=
  '(begin, end_) ← static_name ≫= (param_slice_info !!.);
  '(_, numel, index, padded_size) ← static_name ≫= (param_shape_info !!.);
  flat ← reshape cur [-1];
  sliced ← tslice flat (begin - index) (end_ - index);
  let padding_start := Z.max begin (index + numel) in
  let padding_end := Z.min end_ (index + padded_size) in
  if bool_decide (padding_start < padding_end) then
    pad ← zeros (padding_end - padding_start) (t_dtype sliced);
    concat [sliced; pad]
  else Some sliced.

(** The loop body (lines 210-226). *)
Definition reshape_entry (key : string) (state_dict : StateDict) : option StateDict :=
  let key_name := struct_name_of key in
  let static_name := struct2static_name_mappings !! key_name in
  cur ← od_get state_dict key;
  if bool_decide (numel cur > 1) then
    t ← reshape_param static_name cur;
    Some (od_set state_dict key t)
  else Some state_dict.

Definition reshape_params (state_dict : StateDict) : option StateDict :=
  for_each reshape_entry (od_keys state_dict) state_dict.
End reshape_params.

(** [{k: v.name for k, v in model_state_dict.items()}]. *)
Definition struct2static (model_state_dict : StateDict) : gmap string string :=
  foldl (λ m '(k, v), <[k := t_name v]> m) ∅ model_state_dict.

(** [{v.name: k for k, v in model_state_dict.items()}]. *)
Definition static2struct (model_state_dict : StateDict) : gmap string string :=
  foldl (λ m '(k, v), <[t_name v := k]> m) ∅ model_state_dict.

(** *** The master-weight tail of [load_unified_optimizer_split_param]

    Lines 349-364, on the master weights that [load_resolved_archive_file]
    returned (the shard files are read by code outside this file). *)

(** Lines 359-362: a master weight that is not float32 is cast. *)
Definition to_float32 (t : Tensor) : Tensor :=
  if bool_decide (t_dtype t ≠ float32) then cast t float32 else t.

(** The body of the loop of lines 351-364 on
    [(state_dict_master_weight, returned_optim_state_dict["master_weights"])]. *)
Definition store_master_weight (struct2static_name_mappings : gmap string string)
    (key : string) (st : StateDict * StateDict) : option (StateDict * StateDict) :=
  let '(state_dict_master_weight, returned_master_weights) := st in
  let static_name := struct2static_name_mappings !! key in
  cur ← od_get state_dict_master_weight key;
  let state_dict_master_weight := od_set state_dict_master_weight key (_copy_to cur) in
  '(popped, state_dict_master_weight) ← od_pop state_dict_master_weight key;
  let stored := to_float32 popped in
  static_name ← static_name;
  Some (state_dict_master_weight,
        od_set returned_master_weights static_name
          (with_name stored (join_underscore [static_name; FP32_MASTER]))).

Definition load_unified_master_weights (model_state_dict : StateDict)
    (comm_buffer_list : list CommBuffer) (state_dict_master_weight : StateDict)
  : option StateDict :=
  let struct2static_name_mappings := struct2static model_state_dict in
  let '(_, param_slice_info, param_shape_info) := get_params_info comm_buffer_list in
  state_dict_master_weight ←
    reshape_params struct2static_name_mappings param_shape_info param_slice_info
      state_dict_master_weight;
  snd <$> for_each (store_master_weight struct2static_name_mappings)
            (od_keys state_dict_master_weight) (state_dict_master_weight, []).
End split.

(** ** The unified loader

    [load_unified_optimizer_split_param], lines 230-366.  Reading a shard
    file is the work of [load_state_dict] of [transformers/model_utils.py],
    and the tensor-parallel actions are built by methods of the model; the
    embedding takes them as they are. *)

(** [os.path.split(path)[-1]]: what follows the last slash. *)
Definition basename (path : string) : string :=
  default EmptyString (last (split_slash path)).

Section unified.
Context `{Backend} `{Utils}.

(** [d.update(other)]. *)
Definition od_update (d other : StateDict) : StateDict :=
  foldl (λ d '(k, v), od_set d k v) d other.

Section load_resolved_archive_file.
(** The tensor-parallel actions of the model, as a value of their own
    type; [model.config.tensor_parallel_degree]; the actions the model
    methods of lines 286-289 return; [mapping_optimizer_tp_actions] of
    [utils.py]; and [load_state_dict] applied to a shard file, the actions,
    the expected keys and the quantization stage, [None] when it raises. *)
Variables (TpActions : Type)
          (tensor_parallel_degree : Z)
          (model_tp_actions : TpActions)
          (mapping_optimizer_tp_actions : TpActions → list string → TpActions)
          (load_state_dict :
             string → option TpActions → list string → string → option StateDict).

(** The loop body of lines 293-314. *)
Definition load_shard (file_map : gmap string (list string))
    (tp_actions : option TpActions) (expected_keys : list string)
    (ckpt_quant_stage : string) (shard_file : string)
    (returned_state_dict : StateDict) : option StateDict :=
  match file_map !! basename shard_file with
  | None => None
  | Some keys =>
      if forallb (λ key, bool_decide (key ∉ keys)) expected_keys
      then Some returned_state_dict
      else
        state_dict ←
          load_state_dict shard_file tp_actions expected_keys ckpt_quant_stage;
        Some (od_update returned_state_dict state_dict)
  end.

(** The inner function of lines 280-316. *)
Definition load_resolved_archive_file (resolved_archive_file : list string)
    (file_map : gmap string (list string)) (expected_keys : list string)
    (is_master_weights : bool) (ckpt_quant_stage : string) : option StateDict :=
  let tp_actions :=
    if bool_decide (tensor_parallel_degree > 1) then
      Some (if negb is_master_weights
            then mapping_optimizer_tp_actions model_tp_actions expected_keys
            else model_tp_actions)
    else None in
  for_each (load_shard file_map tp_actions expected_keys ckpt_quant_stage)
    resolved_archive_file [].

(** The body of the loop of lines 325-340 on
    [(state_dict_optim, returned_optim_state_dict)]. *)
Definition rename_unified_entry (model_state_dict : StateDict)
    (struct2static_name_mappings : gmap string string)
    (has_master_weights : bool) (key : string) (st : StateDict * StateDict)
  : option (StateDict * StateDict) :=
  let '(state_dict_optim, returned) := st in
  let key_name := split_slash key in
  struct ← key_name !! 0%nat;
  let static_name := struct2static_name_mappings !! struct in
  key_name ←
    (if has_master_weights then
       param ← od_get model_state_dict struct;
       static_name ← static_name;
       typename ← key_name !! 1%nat;
       if bool_decide (t_dtype param ≠ float32)
       then Some (join_underscore [static_name; FP32_MASTER; typename])
       else Some (join_underscore [static_name; typename])
     else
       static_name ← static_name;
       typename ← key_name !! 1%nat;
       Some (join_underscore [static_name; typename]));
  cur ← od_get state_dict_optim key;
  let state_dict_optim := od_set state_dict_optim key (_copy_to cur) in
  '(popped, state_dict_optim) ← od_pop state_dict_optim key;
  Some (state_dict_optim, od_set returned key_name (with_name popped key_name)).

(** Lines 241-366.  The arguments stand for what the calls into other
    files return: [weight_map_keys] are the keys of
    [sharded_metadata["weight_map"]]; [resolved_archive_file] and [file_map]
    are the shard files and the index of the optimizer state, and the two
    with [_mw] those of the master weights; [has_master_weights] is the
    flag [update_master_weight_status] returns; [comm_buffer_list] is the
    buffer list chosen at lines 251-253.  A static name without a
    structural name maps to Python's [None]: it is formatted as the text
    None in an optimizer key, and as a master-weight key it is in no
    file. *)
Definition load_unified_optimizer_split_param
    (weight_map_keys : list string)
    (resolved_archive_file : list string) (file_map : gmap string (list string))
    (resolved_archive_file_mw : list string) (file_map_mw : gmap string (list string))
    (has_master_weights : bool) (model_state_dict : StateDict)
    (comm_buffer_list : list CommBuffer) (ckpt_quant_stage : string)
    (returned_optim_state_dict : OptimizerState) : option OptimizerState :=
  typenames ← mapM (λ key, match split_slash key with
                           | [_; typename] => Some typename
                           | _ => None
                           end) weight_map_keys;
  let typename_set := remove_dups typenames in
  let static2struct_name_mappings := static2struct model_state_dict in
  let struct2static_name_mappings := struct2static model_state_dict in
  let '(expected_keys, param_slice_info, param_shape_info) :=
    get_params_info comm_buffer_list in
  let expected_keys :=
    remove_dups ((λ name, static2struct_name_mappings !! name) <$> expected_keys) in
  let expected_keys_optim :=
    remove_dups (key ← expected_keys; typename ← typename_set;
                 [slash_join (default "None" key) typename]) in
  state_dict_optim ←
    load_resolved_archive_file resolved_archive_file file_map expected_keys_optim
      false ckpt_quant_stage;
  state_dict_optim ←
    reshape_params struct2static_name_mappings param_shape_info param_slice_info
      state_dict_optim;
  '(_, returned) ←
    for_each (rename_unified_entry model_state_dict struct2static_name_mappings
                has_master_weights)
      (od_keys state_dict_optim)
      (state_dict_optim, entries returned_optim_state_dict);
  if has_master_weights then
    state_dict_master_weight ←
      load_resolved_archive_file resolved_archive_file_mw file_map_mw
        (omap id expected_keys) true "O0";
    returned_master_weights ←
      load_unified_master_weights model_state_dict comm_buffer_list
        state_dict_master_weight;
    Some {| entries := returned; master_weights := Some returned_master_weights;
            LR_Scheduler := LR_Scheduler returned_optim_state_dict |}
  else
    Some {| entries := returned;
            master_weights := master_weights returned_optim_state_dict;
            LR_Scheduler := LR_Scheduler returned_optim_state_dict |}.
End load_resolved_archive_file.
End unified.

(** ** The shard resolver with fallback *)

(** A checkpoint directory: [os.listdir] order, each file with the tensors a
    safetensors reader finds in it. *)
Abbreviation Directory := (list (string * StateDict)).

Section non_merge.
Context `{Backend} `{Utils}.

Section get_unfound_params.
Variables (resume_from_checkpoint : Directory)
          (optimizer_name master_weights_name : string).

(** The test of lines 424-425 on a listed file name. *)
Definition is_backup_file (name name_ : string) (f : string) : bool :=
  startswith f name_ && endswith f "safetensors" && bool_decide (f ≠ name)
  && bool_decide (strip_shard f = strip_shard name).

(** Lines 431-436 for one opened file [fin]. *)
Definition pull_from_file (unfound_keys : list string) (state_dict fin : StateDict)
  : StateDict :=
  foldl (λ state_dict key,
           match od_get fin key with
           | Some tensor => od_set state_dict key (_copy_to tensor)
           | None => state_dict
           end)
        state_dict unfound_keys.

(** Lines 416-436.  [unfound_keys] is a Python set, enumerated in some
    order. *)
Definition get_unfound_params (unfound_keys : list string) (state_dict : StateDict)
    (is_optimizer : bool) : StateDict :=
  if bool_decide (0 < length unfound_keys)%nat then
    let name := if is_optimizer then optimizer_name else master_weights_name in
    let name_ := if is_optimizer then "optimizer" else "master_weights" in
    let backup_files :=
      filter (λ f, is_backup_file name name_ f.1 = true) resume_from_checkpoint in
    foldl (λ state_dict f, pull_from_file unfound_keys state_dict f.2)
          state_dict backup_files
  else state_dict.
End get_unfound_params.

(** [expected - state_dict.keys()]. *)
Definition unfound_of (expected : list string) (state_dict : StateDict) : list string :=
  filter (λ key, od_get state_dict key = None) (remove_dups expected).

(** Lines 449-465 for one key, on
    [(optimizer_state_dict, returned entries, master_weights)]. *)
Definition rename_entry (model_state_dict : StateDict)
    (struct2static_name_mappings : gmap string string)
    (is_amp_o1 master_weights_file : bool) (key : string)
    (st : StateDict * StateDict * StateDict)
  : option (StateDict * StateDict * StateDict) :=
  let '(optimizer_state_dict, returned, master_weights) := st in
  let key_name := split_slash key in
  model_weight_key ← key_name !! 0%nat;
  static_name ← struct2static_name_mappings !! model_weight_key;
  key_name ←
    (if negb is_amp_o1 then
       param ← od_get model_state_dict model_weight_key;
       typename ← key_name !! 1%nat;
       if bool_decide (t_dtype param ≠ float32)
       then Some (join_underscore [static_name; FP32_MASTER; typename])
       else Some (join_underscore [static_name; typename])
     else
       typename ← key_name !! 1%nat;
       Some (join_underscore [static_name; typename]));
  '(popped, optimizer_state_dict) ← od_pop optimizer_state_dict key;
  let returned := od_set returned key_name (with_name popped key_name) in
  if negb is_amp_o1 && negb master_weights_file then
    param ← od_get model_state_dict model_weight_key;
    Some (optimizer_state_dict, returned,
          od_set master_weights model_weight_key (cast param float32))
  else Some (optimizer_state_dict, returned, master_weights).

(** Lines 471-474 for one key, on
    [(master_weights, returned_optim_state_dict["master_weights"])]. *)
Definition rename_master_weight (struct2static_name_mappings : gmap string string)
    (key : string) (st : StateDict * StateDict) : option (StateDict * StateDict) :=
  let '(master_weights, returned_master_weights) := st in
  static_name ← struct2static_name_mappings !! key;
  '(popped, master_weights) ← od_pop master_weights key;
  Some (master_weights,
        od_set returned_master_weights static_name
          (with_name popped (join_underscore [static_name; FP32_MASTER]))).

(** Lines 446-476: the loaded optimizer state is cut to the local slices and
    renamed, the master weights are synthesized when there is no file for
    them, cut to the local slices and renamed. *)
Definition rename_and_store (model_state_dict : StateDict)
    (struct2static_name_mappings : gmap string string)
    (param_shape_info : gmap string ShapeInfo)
    (param_slice_info : gmap string (Z * Z))
    (is_amp_o1 master_weights_file : bool)
    (returned_optim_state_dict : OptimizerState)
    (optimizer_state_dict loaded_master_weights : StateDict)
  : option OptimizerState :=
  let returned_master_weights := master_weights returned_optim_state_dict in
  optimizer_state_dict ←
    reshape_params struct2static_name_mappings param_shape_info param_slice_info
      optimizer_state_dict;
  '(_, returned, master_weights) ←
    for_each (rename_entry model_state_dict struct2static_name_mappings is_amp_o1
                master_weights_file)
      (od_keys optimizer_state_dict)
      (optimizer_state_dict, entries returned_optim_state_dict,
       loaded_master_weights);
  if negb is_amp_o1 then
    master_weights ←
      reshape_params struct2static_name_mappings param_shape_info param_slice_info
        master_weights;
    '(_, returned_master_weights) ←
      for_each (rename_master_weight struct2static_name_mappings)
        (od_keys master_weights) (master_weights, []);
    Some {| entries := returned; master_weights := Some returned_master_weights;
            LR_Scheduler := LR_Scheduler returned_optim_state_dict |}
  else
    Some {| entries := returned;
            master_weights := returned_master_weights;
            LR_Scheduler := LR_Scheduler returned_optim_state_dict |}.

(** [load_non_merge_optimizer_with_split_param] from line 380 on.  The
    arguments stand for what the lines before compute from [args]:
    [optimizer_name] and [master_weights_name] are the two file names,
    [is_amp_o1] is [args.fp16_opt_level == "O1"], [comm_buffer_list] is the
    buffer list chosen at lines 384-386, and [sharding_typename_set] is what
    the all-gather of line 401 returns. [load_state_dict] returns the tensors
    of the file.  A static name without a structural name maps to Python's
    [None]: it is formatted as the text None in an optimizer key, and as a
    master-weight key it is in no file, so the fallback scan never sees it. *)
Definition load_non_merge_optimizer_with_split_param
    (resume_from_checkpoint : Directory) (optimizer_name master_weights_name : string)
    (is_amp_o1 : bool) (model_state_dict : StateDict)
    (comm_buffer_list : list CommBuffer) (sharding_typename_set : list (list string))
    (returned_optim_state_dict : OptimizerState) : option OptimizerState :=
  let static2struct_name_mappings := static2struct model_state_dict in
  let struct2static_name_mappings := struct2static model_state_dict in
  let '(expected_keys, param_slice_info, param_shape_info) :=
    get_params_info comm_buffer_list in
  let expected_keys :=
    remove_dups ((λ name, static2struct_name_mappings !! name) <$> expected_keys) in
  optimizer_state_dict ← od_get resume_from_checkpoint optimizer_name;
  _ ← mapM (λ key, match split_slash key with
                   | [_; typename] => Some typename
                   | _ => None
                   end) (od_keys optimizer_state_dict);
  let typename_set := remove_dups (mjoin sharding_typename_set) in
  let expected_keys_optim :=
    remove_dups (key ← expected_keys; typename ← typename_set;
                 [slash_join (default "None" key) typename]) in
  let master_weights_file := od_mem resume_from_checkpoint master_weights_name in
  master_weights ←
    (if negb is_amp_o1 && master_weights_file
     then od_get resume_from_checkpoint master_weights_name
     else Some []);
  let optimizer_state_dict :=
    get_unfound_params resume_from_checkpoint optimizer_name master_weights_name
      (unfound_of expected_keys_optim optimizer_state_dict) optimizer_state_dict true in
  let master_weights :=
    if bool_decide (master_weights ≠ []) then
      get_unfound_params resume_from_checkpoint optimizer_name master_weights_name
        (unfound_of (omap id expected_keys) master_weights) master_weights false
    else master_weights in
  rename_and_store model_state_dict struct2static_name_mappings param_shape_info
    param_slice_info is_amp_o1 master_weights_file returned_optim_state_dict
    optimizer_state_dict master_weights.
End non_merge.

(** ** Tilings

    The slices of a send plan tile [[lo, hi)] when they are non-empty, the
    first starts at [lo], each starts where the one before ends, and the last
    ends at [hi]. *)
Fixpoint tiles (lo hi : Z) (plan : SendInfo) : Prop :=
  match plan with
  | [] => lo = hi
  | (_, begin, end_) :: rest => begin = lo ∧ begin < end_ ∧ tiles end_ hi rest
  end.

(** The ranks of a send plan. *)
Definition plan_ranks (plan : SendInfo) : list Z := (λ x, x.1.1) <$> plan.

(** ** Outcomes of the merge, per key *)


Section merge_outcomes.
Context `{Backend} `{Utils}.
Variables (global_rank : Z) (partial_tensor_list : list string)
          (param_shape_info : gmap string ShapeInfo)
          (send_table : gmap string SendInfo) (recv_table : gmap string Z)
          (is_master_weights : bool).

(** What the first loop of [merge_splited_param] leaves under a key that held
    [cur], by the kind of the entry: a single-element entry, an entry of a
    parameter that is not partial, a partial parameter on its receiving rank,
    on a sending rank, and on a rank outside the plan. *)
Inductive merged_at (key : string) (cur : Tensor) : option Tensor → Prop :=
| merged_scalar :
    numel cur = 1 → merged_at key cur (Some cur)
| merged_full shape n i p t :
    numel cur ≠ 1 →
    param_shape_info !! static_name_of is_master_weights key = Some (shape, n, i, p) →
    static_name_of is_master_weights key ∉ partial_tensor_list →
    reshape cur shape = Some t →
    merged_at key cur (Some t)
| merged_owner shape n i p plan frags net0 net1 merged t :
    numel cur ≠ 1 →
    param_shape_info !! static_name_of is_master_weights key = Some (shape, n, i, p) →
    static_name_of is_master_weights key ∈ partial_tensor_list →
    recv_table !! static_name_of is_master_weights key = Some global_rank →
    send_table !! static_name_of is_master_weights key = Some plan →
    collect_fragments global_rank cur (i + n) (i + p) plan net0 = Some (frags, net1) →
    concat frags = Some merged →
    reshape merged shape = Some t →
    merged_at key cur (Some t)
| merged_sent recv_rank plan :
    numel cur ≠ 1 →
    static_name_of is_master_weights key ∈ partial_tensor_list →
    recv_table !! static_name_of is_master_weights key = Some recv_rank →
    send_table !! static_name_of is_master_weights key = Some plan →
    global_rank ≠ recv_rank → global_rank ∈ plan_ranks plan →
    merged_at key cur None
| merged_bystander recv_rank plan :
    numel cur ≠ 1 →
    static_name_of is_master_weights key ∈ partial_tensor_list →
    recv_table !! static_name_of is_master_weights key = Some recv_rank →
    send_table !! static_name_of is_master_weights key = Some plan →
    global_rank ≠ recv_rank → global_rank ∉ plan_ranks plan →
    merged_at key cur (Some cur).

(** Whether the second loop removes a key that holds [v]. *)
Definition scalar_dropped (key : string) (v : Tensor) : bool :=
  bool_decide (numel v = 1)
  && bool_decide (static_name_of is_master_weights key ∈ partial_tensor_list)
  && bool_decide (recv_table !! static_name_of is_master_weights key ≠ Some global_rank).
End merge_outcomes.

(** ** The catalog, read back

    What the gathered catalogs say about one parameter, member by member. *)

(** The static names of the parameters of a list of buffers. *)
Definition buffer_keys (comm_buffer_list : list CommBuffer) : list string :=
  (mjoin comm_buffer_list).*1.

(** The slice a member publishes for [key]. *)
Definition peer_slice (key : string) (p : Peer) : option (Z * Z) :=
  local_slice_info (peer_rank p) (peer_comm_buffer_list p) !! key ≫= as_range.

(** The members that publish a non-empty slice of [key], in group order, each
    with its slice. *)
Definition holders (key : string) (group : list Peer) : SendInfo :=
  omap (λ p, '(begin, end_) ← peer_slice key p;
             if bool_decide (end_ > begin) then Some (peer_rank p, begin, end_)
             else None)
       group.

(** The [begin] of a send-plan tuple. *)
Definition plan_begin (x : Z * Z * Z) : Z := x.1.2.

(** ** One partial parameter across the sharding group *)

Section across_ranks.
Context `{Backend}.

(** The 1-D tensor a rank holds for its slice: [data] with dtype [dt]. *)
Definition vector (dt : DType) (data : list elem) : Tensor :=
  {| t_name := EmptyString; t_dtype := dt; t_shape := [Z.of_nat (length data)];
     t_data := data |}.

(** The part of the local buffer [buf] of the plan tuple [x] that goes into
    the merge: its elements below the real-data boundary. *)
Definition sent_part (base_padding_start base_padding_end : Z) (x : Z * Z * Z)
    (buf : list elem) : list elem :=
  take (Z.to_nat (recv_length x.1.2 x.2 base_padding_start base_padding_end)) buf.

(** A local buffer fits its plan tuple: it has [end - begin] elements and
    holds [zero] wherever it lies at or beyond the real-data boundary. *)
Definition fits (base_padding_start : Z) (zero : elem) (x : Z * Z * Z)
    (buf : list elem) : Prop :=
  Z.of_nat (length buf) = x.2 - x.1.2 ∧
  ∀ (j : nat) y, buf !! j = Some y →
    base_padding_start <= x.1.2 + Z.of_nat j → y = zero.

End across_ranks.

(** ** The load-side catalog, read back *)

(** The views of a list of buffers that hold a non-empty slice, in buffer
    order: what [get_params_info] keeps. *)
Definition held_views (comm_buffer_list : list CommBuffer) : list (string * View) :=
  filter (λ kv, _param_end kv.2 > _param_begin kv.2) (mjoin comm_buffer_list).

(** ** What a run of the merge keeps *)

Section merge_kept.
Context `{Backend}.
Variables (global_rank : Z) (partial_tensor_list : list string)
          (recv_table : gmap string Z).

(** A message the merge may emit: it goes to the receiving rank of a
    partial parameter, which is another rank. *)
Definition to_receiver (m : Z * list elem) : Prop :=
  ∃ name, name ∈ partial_tensor_list ∧ recv_table !! name = Some m.1 ∧
          m.1 ≠ global_rank.

(** The state [st] keeps of the state [st0] its keys in their order, the
    dtype of every entry, and the messages emitted so far. *)
Definition merge_kept (st0 st : StateDict * Net) : Prop :=
  od_keys st.1 `sublist_of` od_keys st0.1 ∧
  (∀ k t, od_get st.1 k = Some t →
     ∃ cur, od_get st0.1 k = Some cur ∧ t_dtype t = t_dtype cur) ∧
  ∃ sent, outbox st.2 = outbox st0.2 ++ sent ∧ Forall to_receiver sent.
End merge_kept.

(** ** One parameter, split across the sharding group *)

Section split_across_ranks.
Context `{Backend}.

End split_across_ranks.

(** ** Shard tokens in file names *)

(** Whether the text [shard] occurs in [s]. *)
Fixpoint contains_shard (s : string) : bool :=
  String.prefix "shard" s
  || match s with
     | String _ s' => contains_shard s'
     | EmptyString => false
     end.

(** A non-empty string of decimal digits: what [\d+] matches in full. *)
Definition all_digits (d : string) : bool :=
  bool_decide (d ≠ EmptyString) && bool_decide (digits_len d = String.length d).

(** ** Renamed optimizer entries *)

Section renamed.
Context `{Backend} `{Utils}.

(** The key an optimizer entry of the parameter [static_name] and the
    accumulator [typename] is stored under: with the token of the float32
    master weights in between when [fp32_master] holds. *)
Definition renamed_key (static_name typename : string) (fp32_master : bool) : string :=
  join_underscore (if fp32_master then [static_name; FP32_MASTER; typename]
                   else [static_name; typename]).

(** [k] with [t] is an entry renamed from a loaded key [struct/typename]:
    the tensor is named by the key, and the token of the master weights is
    part of the key exactly when master weights are in use ([with_master])
    and the parameter of the model is not float32. *)
Definition renamed_from (model_state_dict : StateDict)
    (struct2static_name_mappings : gmap string string) (with_master : bool)
    (k : string) (t : Tensor) : Prop :=
  t_name t = k ∧
  ∃ key struct typename rest static_name,
    split_slash key = struct :: typename :: rest ∧
    struct2static_name_mappings !! struct = Some static_name ∧
    if with_master then
      ∃ param, od_get model_state_dict struct = Some param ∧
        k = renamed_key static_name typename (bool_decide (t_dtype param ≠ float32))
    else k = renamed_key static_name typename false.
End renamed.

(** ** The messages a run of the merge takes *)

Section receipts.
Context `{Backend} `{Utils}.
Variables (global_rank : Z) (partial_tensor_list : list string)
          (send_table : gmap string SendInfo) (recv_table : gmap string Z)
          (is_master_weights : bool).

(** The [k]-th message of rank [r] in the inbox, counted from the oldest. *)
Definition message (net : Net) (r : Z) (k : nat) : list elem :=
  default [] (inbox net !! r ≫= (.!! k)).

(** Whether the merge of the entry under [key] takes a message of rank [r]:
    the entry has other than one element, its parameter is partial, the rank
    that runs the merge is its receiver, and [r] is another rank of its send
    plan. *)
Definition takes_from (sd : StateDict) (r : Z) (key : string) : bool :=
  match od_get sd key with
  | Some cur =>
      let static_name := static_name_of is_master_weights key in
      bool_decide (numel cur ≠ 1)
      && bool_decide (static_name ∈ partial_tensor_list)
      && bool_decide (recv_table !! static_name = Some global_rank)
      && match send_table !! static_name with
         | Some plan => bool_decide (r ∈ plan_ranks plan ∧ r ≠ global_rank)
         | None => false
         end
  | None => false
  end.

(** The number of messages of rank [r] taken for the keys [ks]. *)
Definition taken_before (sd : StateDict) (r : Z) (ks : list string) : nat :=
  length (filter (λ key, takes_from sd r key = true) ks).

(** No rank occurs twice in a send plan of the table. *)
Definition plans_NoDup : Prop :=
  ∀ name plan, send_table !! name = Some plan → NoDup (plan_ranks plan).
End receipts.

(** ** A concrete instance

    Integer elements, a key splitter that cuts a key at its first slash, and
    the two-rank scenario of the specification: a parameter [w] of shape
    [2 x 5] padded to 12 elements at offset 0, rank 0 holding [[0, 6)] and
    rank 1 holding [[6, 12)]. *)

Module Examples.
Definition Z_backend : Backend :=
  {| elem := Z; zero_elem := λ _, 0; cast_elem := λ _ _ x, x |}.

Definition slash_utils : Utils :=
  {| generate_base_static_name := λ key,
       (default EmptyString (head (split_slash key)),
        default EmptyString (split_slash key !! 1%nat));
     FP32_MASTER := "fp32_master_0" |}.

#[local] Existing Instance Z_backend.
#[local] Existing Instance slash_utils.

(** A named 1-D tensor of dtype [dt]. *)
Definition vec (dt : DType) (data : list Z) : Tensor :=
  {| t_name := "t"; t_dtype := dt; t_shape := [Z.of_nat (length data)];
     t_data := data |}.

Definition w_shape_info : gmap string ShapeInfo := {[ "w" := ([2; 5], 10, 0, 12) ]}.
Definition w_send_table : gmap string SendInfo := {[ "w" := [(0, 0, 6); (1, 6, 12)] ]}.
Definition w_recv_table : gmap string Z := {[ "w" := 0 ]}.

(** The optimizer state of the two ranks: a moment of [w] and a scalar. *)
Definition sd_rank0 : StateDict :=
  [("w/moment1_0", vec float32 [1; 2; 3; 4; 5; 6]);
   ("w/beta1_pow_acc_0", vec float32 [9])].
Definition sd_rank1 : StateDict :=
  [("w/moment1_0", vec float32 [7; 8; 9; 10; 0; 0]);
   ("w/beta1_pow_acc_0", vec float32 [9])].

(** What rank 1 sends to rank 0. *)
Definition inbox_rank0 : Net :=
  {| inbox := {[ 1 := [[7; 8; 9; 10]] ]}; outbox := [] |}.

(** The view of [w] on a rank that holds [[begin, end)] of it. *)
Definition w_view (begin end_ : Z) : View := mkView begin end_ [2; 5] 10 0 12.

(** The sharding group of the scenario. *)
Definition w_group : list Peer :=
  [mkPeer 0 [[("w", w_view 0 6)]]; mkPeer 1 [[("w", w_view 6 12)]]].

Definition optimizer_rank0 : Optimizer :=
  mkOptimizer [[("w", w_view 0 6)]] (mkOptimizerState sd_rank0 None false).

(** A group whose slices do not ascend with the position in the group: its
    first member holds the upper half of [w]. *)
Definition swapped_group : list Peer :=
  [mkPeer 0 [[("w", w_view 6 12)]]; mkPeer 1 [[("w", w_view 0 6)]]].

(** A parameter [s] of one element, padded to four, on a rank that is alone
    in its group and holds [[0, 4)]: the element and three zeros. *)
Definition s_shape_info : gmap string ShapeInfo := {[ "s" := ([1], 1, 0, 4) ]}.
Definition s_send_table : gmap string SendInfo := {[ "s" := [(0, 0, 4)] ]}.
Definition s_recv_table : gmap string Z := {[ "s" := 0 ]}.

(** A parameter [v] of three elements, padded to four: rank 0 holds
    [[0, 1)], a single element; rank 1 holds [[1, 4)], two elements and a
    zero. *)
Definition v_shape_info : gmap string ShapeInfo := {[ "v" := ([3], 3, 0, 4) ]}.
Definition v_send_table : gmap string SendInfo := {[ "v" := [(0, 0, 1); (1, 1, 4)] ]}.
Definition v_recv_table : gmap string Z := {[ "v" := 0 ]}.

(** A parameter [u] of four elements without padding: rank 0 holds
    [[0, 3)] and rank 1 holds [[3, 4)], a single element. *)
Definition u_shape_info : gmap string ShapeInfo := {[ "u" := ([4], 4, 0, 4) ]}.
Definition u_send_table : gmap string SendInfo := {[ "u" := [(0, 0, 3); (1, 3, 4)] ]}.
Definition u_recv_table : gmap string Z := {[ "u" := 0 ]}.

(** A parameter [q] of two elements, padded to four: rank 0 holds [[0, 2)],
    the two elements; rank 1 holds [[2, 4)], padding only. *)
Definition q_shape_info : gmap string ShapeInfo := {[ "q" := ([2], 2, 0, 4) ]}.
Definition q_send_table : gmap string SendInfo := {[ "q" := [(0, 0, 2); (1, 2, 4)] ]}.
Definition q_recv_table : gmap string Z := {[ "q" := 0 ]}.

(** A model whose parameter [linear.weight] has the static name [w] and is
    stored in bfloat16, and a checkpoint directory with an optimizer file and
    no master-weight file. *)
Definition bf16_model : StateDict :=
  [("linear.weight",
    {| t_name := "w"; t_dtype := bfloat16; t_shape := [2; 5];
       t_data := [1; 2; 3; 4; 5; 6; 7; 8; 9; 10] |})].
Definition optimizer_only_dir : Directory :=
  [("optimizer.safetensors",
    [("linear.weight/moment1_0",
      {| t_name := "m"; t_dtype := float32; t_shape := [2; 5];
         t_data := [11; 12; 13; 14; 15; 16; 17; 18; 19; 20] |})])].

(** A rank that holds all of [w], padding included. *)
Definition sd_whole : StateDict :=
  [("w/moment1_0", vec float32 [1; 2; 3; 4; 5; 6; 7; 8; 9; 10; 0; 0])].
(** The optimizer state a rank loads for [linear.weight]: a moment of the
    logical shape and a scalar. *)
Definition optimizer_file_rank1 : StateDict :=
  [("linear.weight/moment1_0",
    with_shape (vec float32 [1; 2; 3; 4; 5; 6; 7; 8; 9; 10]) [2; 5]);
   ("linear.weight/beta1_pow_acc_0", vec float32 [9])].
(** The optimizer state of a rank that holds the ten elements of [w] and no
    padding. *)
Definition sd_whole_only : StateDict :=
  [("w/moment1_0", vec float32 [1; 2; 3; 4; 5; 6; 7; 8; 9; 10]);
   ("w/beta1_pow_acc_0", vec float32 [9])].
(** A rank that is alone in its group and holds all of [w], without
    padding. *)
Definition optimizer_whole : Optimizer :=
  mkOptimizer [[("w", w_view 0 10)]] (mkOptimizerState sd_whole_only None false).

(** Rank 1 of the scenario with a master weight of one element. *)
Definition optimizer_rank1_scalar_master : Optimizer :=
  mkOptimizer [[("w", w_view 6 12)]]
    (mkOptimizerState sd_rank1 (Some [("s", vec float32 [3])]) false).
(** A checkpoint directory in which two shard files hold the same key. *)
Definition two_backups_dir : Directory :=
  [("optimizer_shard1.safetensors",
    [("linear.weight/moment1_0", vec float32 [1; 2])]);
   ("optimizer_shard2.safetensors",
    [("linear.weight/moment1_0", vec float32 [3; 4])])].
(** A stand-in for [load_state_dict] that reads the tensors of a shard
    file from a checkpoint directory and keeps the expected keys. *)
Definition dir_loader (dir : Directory)
  : string → option unit → list string → string → option StateDict :=
  λ shard_file _ expected_keys _,
    filter (λ kv, kv.1 ∈ expected_keys) <$> od_get dir (basename shard_file).

(** A unified checkpoint of [bf16_model]: one optimizer shard and one
    master-weight shard, with their indexes. *)
Definition unified_dir : Directory :=
  [("optimizer-00001-of-00001.safetensors",
    [("linear.weight/moment1_0",
      {| t_name := "m"; t_dtype := float32; t_shape := [2; 5];
         t_data := [11; 12; 13; 14; 15; 16; 17; 18; 19; 20] |})]);
   ("master_weights-00001-of-00001.safetensors",
    [("linear.weight",
      {| t_name := "mw"; t_dtype := bfloat16; t_shape := [2; 5];
         t_data := [1; 2; 3; 4; 5; 6; 7; 8; 9; 10] |})])].
Definition unified_file_map : gmap string (list string) :=
  {[ "optimizer-00001-of-00001.safetensors" := ["linear.weight/moment1_0"] ]}.
Definition unified_file_map_mw : gmap string (list string) :=
  {[ "master_weights-00001-of-00001.safetensors" := ["linear.weight"] ]}.
End Examples.

(** * Properties *)

(** ** Ordered dictionaries *)

Section ordered_dict_facts.
Context {V : Type}.
Implicit Types (d : list (string * V)) (k : string) (v : V).

Lemma od_get_set_eq d k v : od_get (od_set d k v) k = Some v.
Proof.
  induction d as [|[k' v'] d IH]; simpl.
  - by rewrite decide_True.
  - destruct (decide (k' = k)) as [->|Hne]; simpl.
    + by rewrite decide_True.
    + by rewrite decide_False.
Qed.

Lemma od_get_set_ne d k k' v : k ≠ k' → od_get (od_set d k v) k' = od_get d k'.
Proof.
  intros Hne. induction d as [|[k0 v0] d IH]; simpl.
  - by rewrite decide_False.
  - destruct (decide (k0 = k)) as [->|Hk]; simpl.
    + by rewrite !decide_False.
    + by rewrite IH.
Qed.

Lemma od_get_del_eq d k : od_get (od_del d k) k = None.
Proof.
  induction d as [|[k0 v0] d IH]; simpl; [done|].
  destruct (decide (k0 = k)); simpl; [done|]. by rewrite decide_False.
Qed.

Lemma od_get_del_ne d k k' : k ≠ k' → od_get (od_del d k) k' = od_get d k'.
Proof.
  intros Hne. induction d as [|[k0 v0] d IH]; simpl; [done|].
  destruct (decide (k0 = k)) as [->|Hk]; simpl.
  - by rewrite decide_False.
  - by rewrite IH.
Qed.

Lemma od_pop_Some d k v d' :
  od_pop d k = Some (v, d') ↔ od_get d k = Some v ∧ d' = od_del d k.
Proof.
  unfold od_pop. destruct (od_get d k) as [v0|].
  - split; [by intros [= -> <-]|by intros [[= ->] ->]].
  - split; [done|by intros [? _]].
Qed.

Lemma od_get_is_Some d k : is_Some (od_get d k) ↔ k ∈ od_keys d.
Proof.
  unfold od_keys. induction d as [|[k0 v0] d IH]; simpl.
  - split; [by intros [? ?]|by intros ?%elem_of_nil].
  - destruct (decide (k0 = k)) as [->|Hk].
    + split; [intros _; left|eauto].
    + rewrite IH. split; [by right|]. intros [?|?]%elem_of_cons; [congruence|done].
Qed.

Lemma od_get_None d k : od_get d k = None ↔ k ∉ od_keys d.
Proof. rewrite <-od_get_is_Some, eq_None_not_Some. done. Qed.

Lemma od_keys_set_in d k v : k ∈ od_keys d → od_keys (od_set d k v) = od_keys d.
Proof.
  unfold od_keys. induction d as [|[k0 v0] d IH]; simpl.
  - by intros ?%elem_of_nil.
  - destruct (decide (k0 = k)) as [->|Hk]; simpl; [done|].
    intros [?|?]%elem_of_cons; [congruence|]. f_equal. by apply IH.
Qed.

Lemma od_keys_del_sub d k k' : k' ∈ od_keys (od_del d k) → k' ∈ od_keys d.
Proof.
  rewrite <-!od_get_is_Some. destruct (decide (k = k')) as [->|Hne].
  - rewrite od_get_del_eq. by intros [? ?].
  - by rewrite od_get_del_ne.
Qed.

Lemma od_keys_del_NoDup d k : NoDup (od_keys d) → NoDup (od_keys (od_del d k)).
Proof.
  unfold od_keys. induction d as [|[k0 v0] d IH]; simpl; [done|].
  intros [Hnotin Hnd]%NoDup_cons. destruct (decide (k0 = k)); simpl; [by apply IH|].
  apply NoDup_cons. split; [|by apply IH].
  intros Hin. apply Hnotin. by apply (od_keys_del_sub d k).
Qed.

Lemma od_get_elem_of d k v : od_get d k = Some v → (k, v) ∈ d.
Proof.
  induction d as [|[k0 v0] d IH]; simpl; [done|].
  destruct (decide (k0 = k)) as [->|Hk].
  - intros [= ->]. left.
  - intros. right. eauto.
Qed.

Lemma od_get_NoDup_elem_of d k v :
  NoDup (od_keys d) → (k, v) ∈ d → od_get d k = Some v.
Proof.
  unfold od_keys. induction d as [|[k0 v0] d IH]; simpl.
  - by intros _ ?%elem_of_nil.
  - intros [Hnotin Hnd]%NoDup_cons [Heq|Hin]%elem_of_cons.
    + injection Heq as -> ->. by rewrite decide_True.
    + destruct (decide (k0 = k)) as [->|Hk]; [|by apply IH].
      exfalso. apply Hnotin. apply list_elem_of_fmap. by exists (k, v).
Qed.
End ordered_dict_facts.

(** ** Loops *)

Section for_each_facts.
Context {A S : Type}.
Implicit Types (body : A → S → option S) (xs : list A) (s : S).

Lemma for_each_app body xs ys s :
  for_each body (xs ++ ys) s = for_each body xs s ≫= for_each body ys.
Proof.
  revert s. induction xs as [|x xs IH]; intros s; simpl; [done|].
  destruct (body x s); simpl; [apply IH|done].
Qed.

(** An invariant of the body is an invariant of the loop. *)
Lemma for_each_invariant (P : S → Prop) body xs s s' :
  (∀ x s s', x ∈ xs → P s → body x s = Some s' → P s') →
  P s → for_each body xs s = Some s' → P s'.
Proof.
  revert s. induction xs as [|x xs IH]; intros s Hstep Hs; simpl.
  - by intros [= <-].
  - destruct (body x s) as [s1|] eqn:Hb; [|done]. apply IH.
    + intros y t t' Hy. apply Hstep. by right.
    + eapply Hstep; [left|done..].
Qed.
End for_each_facts.

(** A loop over distinct keys whose body touches the observed state only at
    its own key: what is observed at [k] in the end is what the iteration of
    [k] left there. *)
Lemma for_each_focus {S O : Type} (look : S → string → O)
    (body : string → S → option S) (ks : list string) :
  (∀ k s s' k', body k s = Some s' → k ≠ k' → look s' k' = look s k') →
  NoDup ks →
  ∀ s s' k, for_each body ks s = Some s' →
    (k ∉ ks → look s' k = look s k) ∧
    (k ∈ ks → ∃ s1 s2,
        look s1 k = look s k ∧ body k s1 = Some s2 ∧ look s' k = look s2 k).
Proof.
  intros Hlocal. induction ks as [|k0 ks IH]; intros Hnd s s' k Hrun; simpl in Hrun.
  - injection Hrun as <-. split; [done|by intros ?%elem_of_nil].
  - apply NoDup_cons in Hnd as [Hnotin Hnd].
    destruct (body k0 s) as [s1|] eqn:Hb; [|done].
    destruct (IH Hnd s1 s' k Hrun) as [IHout IHin]. split.
    + intros Hk. rewrite IHout by (intros ?; apply Hk; by right).
      eapply Hlocal; [done|]. intros ->. apply Hk. left.
    + intros [->|Hk]%elem_of_cons.
      * exists s, s1. split; [done|]. split; [done|]. by apply IHout.
      * destruct (IHin Hk) as (t1 & t2 & H1 & H2 & H3). exists t1, t2.
        split; [|done]. rewrite H1. eapply Hlocal; [done|]. by intros ->.
Qed.

(** ** Tensors *)

Section tensor_facts.
Context `{Backend}.
Implicit Types (t : Tensor) (s : list Z).

Lemma numel_nonneg t : 0 <= numel t.
Proof. unfold numel. lia. Qed.

Lemma copy_dims_pos s input : Forall (λ d, d ≠ 0) s → copy_dims s input = Some s.
Proof.
  revert input. induction s as [|d s IH]; intros input Hs; simpl; [done|].
  apply Forall_cons in Hs as [Hd Hs]. rewrite IH by done. simpl.
  by rewrite decide_False.
Qed.

Lemma infer_dim_pos n s :
  Forall (λ d, 0 < d) s → prodZ s = n → infer_dim n s = Some s.
Proof.
  intros Hs Hn. unfold infer_dim.
  rewrite bool_decide_eq_false_2.
  2:{ rewrite Exists_exists. intros (d & Hd & Hlt).
      rewrite Forall_forall in Hs. specialize (Hs d Hd). lia. }
  assert (filter (λ d, d = -1) s = []) as ->.
  { clear Hn. induction Hs as [|d s Hd _ IH]; [done|].
    rewrite filter_cons_False by lia. done. }
  by rewrite decide_True.
Qed.

Lemma reshape_pos t s :
  Forall (λ d, 0 < d) s → prodZ s = numel t → reshape t s = Some (with_shape t s).
Proof.
  intros Hs Hn. unfold reshape. rewrite copy_dims_pos.
  2:{ eapply Forall_impl; [done|]. simpl. lia. }
  simpl. by rewrite infer_dim_pos.
Qed.

Lemma reshape_flat t : reshape t [-1] = Some (with_shape t [numel t]).
Proof.
  unfold reshape. simpl. unfold infer_dim.
  rewrite bool_decide_eq_false_2.
  2:{ rewrite Exists_cons, Exists_nil. lia. }
  rewrite !filter_cons, !filter_nil.
  rewrite (decide_True (P := -1 = -1)) by done.
  rewrite (decide_False (P := -1 ≠ -1)) by (intros Hne; by apply Hne).
  simpl. rewrite decide_True by (split; [lia|apply Z.mod_1_r]).
  simpl. by rewrite Z.div_1_r.
Qed.

Lemma reshape_Some t s t' :
  reshape t s = Some t' →
  t_data t' = t_data t ∧ t_dtype t' = t_dtype t ∧ t_name t' = t_name t.
Proof.
  unfold reshape. destruct (copy_dims s (t_shape t)); simpl; [|done].
  destruct (infer_dim (numel t) l); simpl; [|done]. by intros [= <-].
Qed.

Lemma reshape_numel t s t' : reshape t s = Some t' → numel t' = numel t.
Proof. intros (Hd & _)%reshape_Some. unfold numel. by rewrite Hd. Qed.

Lemma py_index_in_range n i : 0 <= i <= n → py_index n i = i.
Proof. intros. unfold py_index. rewrite decide_False by lia. lia. Qed.

(** [t[:k]] of a 1-D tensor, for [k] within its length. *)
Lemma tprefix_vec t k :
  is_vec t → 0 <= k <= numel t →
  tprefix t k = Some (with_data t [k] (take (Z.to_nat k) (t_data t))).
Proof.
  intros Hvec Hk. unfold tprefix, tslice. rewrite Hvec.
  rewrite !py_index_in_range by (pose proof (numel_nonneg t); lia).
  simpl. do 3 f_equal.
  - lia.
  - by replace ((k - 0) * 1) with k by lia.
Qed.

Lemma concat_with_vecs dt (ts : list Tensor) :
  Forall (λ t, t_dtype t = dt ∧ is_vec t) ts →
  concat_with dt [] ts
  = Some (Z.of_nat (length (mjoin (t_data <$> ts))), mjoin (t_data <$> ts)).
Proof.
  induction ts as [|t ts IH]; intros Hts; simpl; [done|].
  apply Forall_cons in Hts as [[Hdt Hvec] Hts]. rewrite Hvec.
  rewrite decide_True by done. rewrite IH by done. simpl.
  rewrite length_app. unfold numel. do 2 f_equal. by rewrite Nat2Z.inj_add.
Qed.

(** Concatenating 1-D tensors of one dtype concatenates their elements. *)
Lemma concat_vecs t (ts : list Tensor) :
  Forall (λ t', t_dtype t' = t_dtype t ∧ is_vec t') (t :: ts) →
  concat (t :: ts)
  = Some {| t_name := EmptyString; t_dtype := t_dtype t;
            t_shape := [Z.of_nat (length (mjoin (t_data <$> t :: ts)))];
            t_data := mjoin (t_data <$> t :: ts) |}.
Proof.
  intros Hts. unfold concat.
  pose proof (Forall_inv Hts) as [_ Hvec]. rewrite Hvec.
  by rewrite concat_with_vecs.
Qed.
End tensor_facts.


(** ** The merge engine *)

Section merge_facts.
Context `{Backend} `{Utils}.
Implicit Types (cur t : Tensor) (plan : SendInfo) (net : Net).

Lemma recv_length_nonneg begin end_ S E :
  begin <= end_ → 0 <= recv_length begin end_ S E.
Proof. intros. unfold recv_length. case_bool_decide; lia. Qed.

(** On non-empty slices inside [[.., E)] the transferred length is the part
    of the slice below the real-data boundary [S]. *)
Lemma recv_length_real begin end_ S E :
  begin <= end_ → end_ <= E →
  recv_length begin end_ S E = Z.min end_ S - Z.min begin S.
Proof. intros. unfold recv_length. case_bool_decide; lia. Qed.

(** The fragment a rank cuts from its own 1-D slice. *)
Lemma own_fragment_vec cur begin end_ S E :
  is_vec cur → numel cur = end_ - begin →
  ∃ frag, own_fragment cur begin end_ S E = Some frag ∧
    is_vec frag ∧ t_dtype frag = t_dtype cur ∧
    numel frag = recv_length begin end_ S E ∧
    t_data frag = take (Z.to_nat (recv_length begin end_ S E)) (t_data cur).
Proof.
  intros Hvec Hlen. unfold own_fragment, recv_length.
  case_bool_decide as Hpad.
  - exists cur. repeat split; [done..|].
    rewrite take_ge; [done|]. unfold numel in Hlen. lia.
  - rewrite tprefix_vec by (try done; lia).
    eexists. split; [done|]. unfold is_vec, numel. simpl.
    rewrite length_take. unfold numel in Hlen.
    repeat split; try done; f_equal; lia.
Qed.

(** Every fragment the owner collects is a vector of the plan's length for
    it, whether cut locally or received. *)
Lemma collect_fragments_lengths recv_rank cur S E plan net frags net' :
  is_vec cur →
  (∀ r b e, (r, b, e) ∈ plan → r = recv_rank → numel cur = e - b) →
  collect_fragments recv_rank cur S E plan net = Some (frags, net') →
  Forall2 (λ frag '(r, b, e),
             is_vec frag ∧ t_dtype frag = t_dtype cur ∧
             numel frag = recv_length b e S E)
          frags plan
  ∧ outbox net' = outbox net.
Proof.
  intros Hvec. revert net frags.
  induction plan as [|[[r b] e] plan IH]; intros net frags Hown Hrun; simpl in Hrun.
  - injection Hrun as <- <-. split; [constructor|done].
  - case_bool_decide as Hr.
    + destruct (own_fragment_vec cur b e S E Hvec) as (frag & Hfrag & Hf1 & Hf2 & Hf3 & _).
      { eapply Hown; [left|done]. }
      rewrite Hfrag in Hrun. simpl in Hrun.
      destruct (collect_fragments recv_rank cur S E plan net) as [[tl net2]|] eqn:Htl;
        simpl in Hrun; [|done].
      injection Hrun as <- <-.
      destruct (IH net tl) as [IH1 IH2]; [|done|].
      { intros ??? Hin. apply Hown. by right. }
      split; [|done]. by constructor.
    + unfold empty, zeros in Hrun. case_decide as Hneg; [done|]. simpl in Hrun.
      unfold recv in Hrun. simpl in Hrun.
      destruct (inbox net !! r) as [[|m ms]|] eqn:Hin; [done| |done].
      rewrite length_replicate in Hrun. case_decide as Hm; [|done]. simpl in Hrun.
      match type of Hrun with
      | context [collect_fragments _ _ _ _ _ ?n] =>
          destruct (collect_fragments recv_rank cur S E plan n) as [[tl net2]|] eqn:Htl
      end; simpl in Hrun; [|done].
      injection Hrun as <- <-.
      edestruct IH as [IH1 IH2]; [|exact Htl|].
      { intros ??? Hi. apply Hown. by right. }
      split; [|done]. constructor; [|done].
      unfold is_vec, numel. simpl. rewrite Hm. repeat split; [f_equal; lia|lia].
Qed.
End merge_facts.


Section touched_facts.
Context {V : Type}.
Implicit Types (d : list (string * V)) (k : string).

Lemma od_touched_other k d d' k' :
  od_touched k d d' → k ≠ k' → od_get d' k' = od_get d k'.
Proof.
  intros [->|[[_ [v ->]]| ->]] Hne; [done| |].
  - by apply od_get_set_ne.
  - by apply od_get_del_ne.
Qed.

Lemma od_touched_NoDup k d d' :
  od_touched k d d' → NoDup (od_keys d) → NoDup (od_keys d').
Proof.
  intros [->|[[Hin [v ->]]| ->]] Hnd; [done| |].
  - by rewrite od_keys_set_in.
  - by apply od_keys_del_NoDup.
Qed.

Lemma od_touched_keys k d d' k' :
  od_touched k d d' → k' ∈ od_keys d' → k' ∈ od_keys d.
Proof.
  intros [->|[[Hin [v ->]]| ->]] Hk; [done| |].
  - by rewrite od_keys_set_in in Hk.
  - by eapply od_keys_del_sub.
Qed.
End touched_facts.

Section merge_loop_facts.
Context `{Backend} `{Utils}.
Implicit Types (cur t : Tensor) (plan : SendInfo) (net : Net) (sd : StateDict).

(** What a successful run of the sender loop did: nothing when the rank is
    not in the plan; otherwise one send of its fragment and the removal of
    the key. *)
Lemma send_fragments_Some global_rank recv_rank key S E plan sd net sd' net' :
  send_fragments global_rank recv_rank key S E plan sd net = Some (sd', net') →
  ((global_rank ∉ plan_ranks plan) ∧ sd' = sd ∧ net' = net) ∨
  (global_rank ∈ plan_ranks plan ∧ sd' = od_del sd key ∧
   ∃ b e cur frag, (global_rank, b, e) ∈ plan ∧ od_get sd key = Some cur ∧
     own_fragment cur b e S E = Some frag ∧ send frag recv_rank net = Some net').
Proof.
  revert sd net. induction plan as [|[[r b] e] plan IH]; intros sd net Hrun;
    simpl in Hrun.
  - injection Hrun as <- <-. left. split; [|done]. by intros ?%elem_of_nil.
  - case_bool_decide as Hr.
    + subst r. right. split; [left|].
      destruct (od_get sd key) as [cur|] eqn:Hcur; simpl in Hrun; [|done].
      destruct (own_fragment cur b e S E) as [frag|] eqn:Hfrag; simpl in Hrun; [|done].
      destruct (send frag recv_rank net) as [net1|] eqn:Hsent; simpl in Hrun; [|done].
      unfold od_pop in Hrun. rewrite Hcur in Hrun. simpl in Hrun.
      apply IH in Hrun as [(Hnotin & -> & ->)|(_ & _ & (b' & e' & cur' & _ & _ & Hget & _))].
      * split; [done|]. exists b, e, cur, frag. split; [left|done].
      * by rewrite od_get_del_eq in Hget.
    + apply IH in Hrun as [(Hnotin & -> & ->)|(Hin & -> & (b' & e' & cur' & frag & Hi & ?))].
      * left. split; [|done]. intros [?|?]%elem_of_cons; [by simpl in *|done].
      * right. split; [by right|]. split; [done|].
        exists b', e', cur', frag. split; [by right|done].
Qed.


(** What a successful send did: the message has an element. *)
Lemma send_inv frag dst net net' :
  send frag dst net = Some net' →
  t_data frag ≠ [] ∧
  net' = {| inbox := inbox net; outbox := outbox net ++ [(dst, t_data frag)] |}.
Proof. unfold send. case_decide; [done|]. by intros [= <-]. Qed.


Section entry.
Variables (global_rank : Z) (partial_tensor_list : list string)
          (param_shape_info : gmap string ShapeInfo)
          (send_table : gmap string SendInfo) (recv_table : gmap string Z)
          (is_master_weights : bool).

Abbreviation merge_entry' :=
  (merge_entry global_rank partial_tensor_list param_shape_info send_table
     recv_table is_master_weights).
Abbreviation drop_scalar_entry' :=
  (drop_scalar_entry global_rank partial_tensor_list send_table recv_table
     is_master_weights).

(** The first loop body touches the state dict at its own key only. *)
Lemma merge_entry_touched key sd net sd' net' :
  merge_entry' key (sd, net) = Some (sd', net') → od_touched key sd sd'.
Proof.
  unfold merge_entry. intros Hrun.
  destruct (od_get sd key) as [cur|] eqn:Hcur; simpl in Hrun; [|done].
  assert (key ∈ od_keys sd) as Hin by (apply od_get_is_Some; eauto).
  case_bool_decide; [injection Hrun as <- <-; by left|].
  destruct (param_shape_info !! _) as [[[[shape numel_] index] padded]|];
    simpl in Hrun; [|done].
  case_bool_decide.
  { destruct (reshape cur shape); simpl in Hrun; [|done].
    injection Hrun as <- <-. right. left. eauto. }
  destruct (recv_table !! _) as [recv_rank|]; simpl in Hrun; [|done].
  destruct (send_table !! _) as [plan|]; simpl in Hrun; [|done].
  case_bool_decide.
  - destruct (collect_fragments _ _ _ _ _ _) as [[frags net1]|]; simpl in Hrun; [|done].
    destruct (concat frags) as [merged|]; simpl in Hrun; [|done].
    destruct (reshape merged shape); simpl in Hrun; [|done].
    injection Hrun as <- <-. right. left. eauto.
  - apply send_fragments_Some in Hrun as [(_ & -> & _)|(_ & -> & _)];
      [by left|by right; right].
Qed.

Lemma drop_scalar_entry_touched key sd sd' :
  drop_scalar_entry' key sd = Some sd' → od_touched key sd sd'.
Proof.
  unfold drop_scalar_entry. intros Hrun.
  destruct (od_get sd key) as [cur|] eqn:Hcur; simpl in Hrun; [|done].
  repeat case_bool_decide; try (injection Hrun as <-; by left).
  destruct (recv_table !! _) as [recv_rank|]; simpl in Hrun; [|done].
  destruct (send_table !! _) as [plan|]; simpl in Hrun; [|done].
  case_bool_decide; [|injection Hrun as <-; by left].
  unfold od_pop in Hrun. rewrite Hcur in Hrun. injection Hrun as <-.
  by right; right.
Qed.

Lemma merge_loop_NoDup ks sd net sd' net' :
  for_each merge_entry' ks (sd, net) = Some (sd', net') →
  NoDup (od_keys sd) → NoDup (od_keys sd').
Proof.
  intros Hrun Hnd.
  apply (for_each_invariant (λ st, NoDup (od_keys st.1)) _ _ (sd, net) (sd', net'))
    in Hrun; [done| |done].
  intros k [s n] [s' n'] _ Hs Hb. simpl in *.
  eapply od_touched_NoDup; [|done]. by eapply merge_entry_touched.
Qed.
End entry.
End merge_loop_facts.


Section merge_at.
Context `{Backend} `{Utils}.
Implicit Types (cur t : Tensor) (plan : SendInfo) (net : Net) (sd : StateDict).
Variables (global_rank : Z) (partial_tensor_list : list string)
          (param_shape_info : gmap string ShapeInfo)
          (send_table : gmap string SendInfo) (recv_table : gmap string Z)
          (is_master_weights : bool).

Abbreviation merge_body :=
  (merge_entry global_rank partial_tensor_list param_shape_info send_table
     recv_table is_master_weights).
Abbreviation drop_body :=
  (drop_scalar_entry global_rank partial_tensor_list send_table recv_table
     is_master_weights).
Abbreviation outcome :=
  (merged_at global_rank partial_tensor_list param_shape_info send_table
     recv_table is_master_weights).
Abbreviation dropped :=
  (scalar_dropped global_rank partial_tensor_list recv_table is_master_weights).

Lemma merge_entry_at key sd net sd' net' cur :
  od_get sd key = Some cur →
  merge_body key (sd, net) = Some (sd', net') →
  outcome key cur (od_get sd' key).
Proof.
  intros Hcur Hrun. unfold merge_entry in Hrun. rewrite Hcur in Hrun. simpl in Hrun.
  case_bool_decide as Hone.
  { injection Hrun as <- <-. rewrite Hcur. by constructor. }
  destruct (param_shape_info !! _) as [[[[shape n] i] p]|] eqn:Hshape;
    simpl in Hrun; [|done].
  case_bool_decide as Hpart.
  { destruct (reshape cur shape) as [t|] eqn:Ht; simpl in Hrun; [|done].
    injection Hrun as <- <-. rewrite od_get_set_eq. by econstructor. }
  destruct (recv_table !! _) as [recv_rank|] eqn:Hrecv; simpl in Hrun; [|done].
  destruct (send_table !! _) as [plan|] eqn:Hsend; simpl in Hrun; [|done].
  case_bool_decide as Hown.
  - subst recv_rank.
    destruct (collect_fragments _ _ _ _ _ _) as [[frags net1]|] eqn:Hfr;
      simpl in Hrun; [|done].
    destruct (concat frags) as [merged|] eqn:Hcat; simpl in Hrun; [|done].
    destruct (reshape merged shape) as [t|] eqn:Ht; simpl in Hrun; [|done].
    injection Hrun as <- <-. rewrite od_get_set_eq. by eapply merged_owner.
  - apply send_fragments_Some in Hrun as [(Hout & -> & _)|(Hin & -> & _)].
    + rewrite Hcur. by eapply merged_bystander.
    + rewrite od_get_del_eq. by eapply merged_sent.
Qed.

Lemma merge_loop_at sd net sd' net' key cur :
  NoDup (od_keys sd) → od_get sd key = Some cur →
  for_each merge_body (od_keys sd) (sd, net) = Some (sd', net') →
  outcome key cur (od_get sd' key).
Proof.
  intros Hnd Hcur Hrun.
  destruct (for_each_focus (λ st k, od_get st.1 k) merge_body (od_keys sd))
    with (s := (sd, net)) (s' := (sd', net')) (k := key) as [_ Hin]; [|done..|].
  { intros k [s n] [s' n'] k' Hb Hne. simpl.
    eapply od_touched_other; [|done]. by eapply merge_entry_touched. }
  destruct Hin as ([s1 n1] & [s2 n2] & Hlook & Hb & Hres).
  { apply od_get_is_Some. eauto. }
  simpl in *. rewrite Hres. eapply merge_entry_at; [|done]. by rewrite Hlook.
Qed.

Lemma drop_scalar_entry_at key sd sd' v :
  od_get sd key = Some v →
  drop_body key sd = Some sd' →
  od_get sd' key = if dropped key v then None else Some v.
Proof.
  intros Hv Hrun. unfold drop_scalar_entry in Hrun. rewrite Hv in Hrun.
  simpl in Hrun. unfold scalar_dropped.
  case_bool_decide as Hone; simpl; [|by injection Hrun as <-].
  case_bool_decide as Hpart; simpl; [|by injection Hrun as <-].
  destruct (recv_table !! _) as [recv_rank|] eqn:Hrecv; simpl in Hrun; [|done].
  destruct (send_table !! _) as [plan|] eqn:Hsend; simpl in Hrun; [|done].
  case_bool_decide as Hne.
  - unfold od_pop in Hrun. rewrite Hv in Hrun. injection Hrun as <-.
    rewrite od_get_del_eq. rewrite bool_decide_eq_true_2; [done|congruence].
  - injection Hrun as <-. subst.
    by rewrite bool_decide_eq_false_2 by (by intros ?).
Qed.

Lemma drop_loop_at sd sd' key :
  NoDup (od_keys sd) →
  for_each drop_body (od_keys sd) sd = Some sd' →
  od_get sd' key = od_get sd key ≫= λ v, if dropped key v then None else Some v.
Proof.
  intros Hnd Hrun.
  destruct (for_each_focus (λ s k, od_get s k) drop_body (od_keys sd))
    with (s := sd) (s' := sd') (k := key) as [Hout Hin]; [|done..|].
  { intros k s s' k' Hb Hne. eapply od_touched_other; [|done].
    by eapply drop_scalar_entry_touched. }
  destruct (od_get sd key) as [v|] eqn:Hv; simpl.
  - destruct Hin as (s1 & s2 & Hlook & Hb & Hres).
    { apply od_get_is_Some. eauto. }
    rewrite Hres. eapply drop_scalar_entry_at; [|done]. done.
  - rewrite Hout; [done|]. by apply od_get_None.
Qed.

(** The entry a complete run of [merge_splited_param] leaves under a key. *)
Lemma merge_splited_param_at ckpt_quant_stage sd net sd' net' key cur :
  NoDup (od_keys sd) → od_get sd key = Some cur →
  merge_splited_param global_rank partial_tensor_list param_shape_info send_table
    recv_table is_master_weights ckpt_quant_stage sd net = Some (sd', net') →
  ∃ o, outcome key cur o ∧
    od_get sd' key =
      if bool_decide (ckpt_quant_stage ≠ "O0")
      then o ≫= λ v, if dropped key v then None else Some v
      else o.
Proof.
  intros Hnd Hcur Hrun. unfold merge_splited_param in Hrun.
  destruct (for_each _ _ _) as [[sd1 net1]|] eqn:Hloop; simpl in Hrun; [|done].
  exists (od_get sd1 key). split; [by eapply merge_loop_at|].
  case_bool_decide.
  - destruct (for_each _ (od_keys sd1) sd1) as [sd2|] eqn:Hdrop; simpl in Hrun; [|done].
    injection Hrun as <- <-. eapply drop_loop_at; [|done].
    by eapply merge_loop_NoDup.
  - by injection Hrun as <- <-.
Qed.
End merge_at.


(** Closes a decidable goal on concrete data by evaluation. *)
Ltac decide_by_compute := apply (bool_decide_unpack _); vm_compute; exact I.

(** ** Scalar pass-through and the frame of the merge *)

(** C5. An entry with exactly one element is skipped by the merge loop: the
    loop body returns the state dict and the communication state unchanged.
    After a complete run the entry is still there when [ckpt_quant_stage] is
    ["O0"]; otherwise, when its static name is in [partial_tensor_list], it
    is removed on every rank other than the parameter's [recv_rank] and kept
    on [recv_rank]; and it is kept when its static name is not in the
    list. *)
Theorem merge_scalar_pass_through `{Backend} `{Utils}
    (global_rank : Z) (partial_tensor_list : list string)
    (param_shape_info : gmap string ShapeInfo) (send_table : gmap string SendInfo)
    (recv_table : gmap string Z) (is_master_weights : bool)
    (ckpt_quant_stage : string) (sd : StateDict) (net : Net)
    (key : string) (cur : Tensor) :
  NoDup (od_keys sd) → od_get sd key = Some cur → numel cur = 1 →
  (∀ sd0 net0, od_get sd0 key = Some cur →
     merge_entry global_rank partial_tensor_list param_shape_info send_table
       recv_table is_master_weights key (sd0, net0) = Some (sd0, net0)) ∧
  (∀ sd' net',
     merge_splited_param global_rank partial_tensor_list param_shape_info send_table
       recv_table is_master_weights ckpt_quant_stage sd net = Some (sd', net') →
     let static_name := static_name_of is_master_weights key in
     (ckpt_quant_stage = "O0" → od_get sd' key = Some cur) ∧
     (ckpt_quant_stage ≠ "O0" → static_name ∉ partial_tensor_list →
        od_get sd' key = Some cur) ∧
     (ckpt_quant_stage ≠ "O0" → static_name ∈ partial_tensor_list →
        ∃ recv_rank, recv_table !! static_name = Some recv_rank ∧
          (global_rank ≠ recv_rank → od_get sd' key = None) ∧
          (global_rank = recv_rank → od_get sd' key = Some cur))).
Proof.
  intros Hnd Hcur Hone. split.
  { intros sd0 net0 Hget. unfold merge_entry. rewrite Hget. simpl.
    by rewrite bool_decide_eq_true_2. }
  intros sd' net' Hrun static_name.
  assert (Hrun' := Hrun).
  apply merge_splited_param_at with (key := key) (cur := cur) in Hrun
    as (o & Hout & Hres); [|done..].
  assert (o = Some cur) as -> by (inversion Hout; done). simpl in Hres.
  split; [|split].
  - intros ->. by rewrite bool_decide_eq_false_2 in Hres by (by intros ?).
  - intros Hq Hpart. rewrite bool_decide_eq_true_2 in Hres by done.
    rewrite Hres. unfold scalar_dropped.
    rewrite (bool_decide_eq_false_2 (_ ∈ _)) by done.
    by rewrite andb_false_r.
  - intros Hq Hpart. rewrite bool_decide_eq_true_2 in Hres by done.
    unfold scalar_dropped in Hres.
    rewrite bool_decide_eq_true_2 in Hres by done.
    rewrite bool_decide_eq_true_2 in Hres by done. simpl in Hres.
    (* the second loop looked the owner up, so the table has it *)
    unfold merge_splited_param in Hrun'.
    destruct (for_each _ _ _) as [[sd1 net1]|] eqn:Hloop; simpl in Hrun'; [|done].
    rewrite bool_decide_eq_true_2 in Hrun' by done.
    destruct (for_each _ (od_keys sd1) sd1) as [sd2|] eqn:Hdrop; simpl in Hrun'; [|done].
    assert (od_get sd1 key = Some cur) as Hcur1.
    { pose proof (merge_loop_at _ _ _ _ _ _ _ _ _ _ _ _ Hnd Hcur Hloop) as Ho.
      inversion Ho; done. }
    destruct (for_each_focus (λ s k, od_get s k)
                (drop_scalar_entry global_rank partial_tensor_list send_table
                   recv_table is_master_weights) (od_keys sd1))
      with (s := sd1) (s' := sd2) (k := key) as [_ Hin]; [| |done|].
    { intros k s s' k' Hb Hne. eapply od_touched_other; [|done].
      by eapply drop_scalar_entry_touched. }
    { eapply merge_loop_NoDup; done. }
    destruct Hin as (s1 & s2 & Hlook & Hb & _).
    { apply od_get_is_Some. eauto. }
    unfold drop_scalar_entry in Hb. rewrite Hlook, Hcur1 in Hb. simpl in Hb.
    rewrite bool_decide_eq_true_2 in Hb by done.
    rewrite bool_decide_eq_true_2 in Hb by done.
    fold static_name in Hb, Hres.
    destruct (recv_table !! static_name) as [recv_rank|]; simpl in Hb; [|done].
    exists recv_rank. split; [done|]. split.
    + intros Hne. rewrite Hres. rewrite bool_decide_eq_true_2; [done|congruence].
    + intros ->. rewrite Hres. by rewrite bool_decide_eq_false_2 by (by intros ?).
Qed.

Section merge_scalar_pass_through_example.
#[local] Existing Instance Examples.Z_backend.
#[local] Existing Instance Examples.slash_utils.
Import Examples.

(** Rank 1 of the scenario under a quantized stage: its scalar entry belongs
    to the partial parameter [w], whose owner is rank 0, and is dropped. *)
Lemma merge_scalar_pass_through_witness :
  NoDup (od_keys sd_rank1) ∧
  od_get sd_rank1 "w/beta1_pow_acc_0" = Some (vec float32 [9]) ∧
  numel (vec float32 [9]) = 1 ∧
  ∃ sd' net',
    merge_splited_param 1 ["w"] w_shape_info w_send_table w_recv_table false "O1"
      sd_rank1 empty_net = Some (sd', net') ∧
    od_get sd' "w/beta1_pow_acc_0" = None.
Proof.
  assert (NoDup (od_keys sd_rank1)) as Hnd.
  { decide_by_compute. }
  split; [exact Hnd|]. split; [reflexivity|]. split; [reflexivity|].
  destruct (merge_splited_param 1 ["w"] w_shape_info w_send_table w_recv_table
              false "O1" sd_rank1 empty_net) as [[sd' net']|] eqn:Hrun.
  - exists sd', net'. split; [reflexivity|].
    destruct (merge_scalar_pass_through 1 ["w"] w_shape_info w_send_table
                w_recv_table false "O1" sd_rank1 empty_net "w/beta1_pow_acc_0"
                (vec float32 [9]) Hnd eq_refl eq_refl) as [_ Hafter].
    destruct (Hafter sd' net' Hrun) as (_ & _ & Hdrop).
    destruct Hdrop as (recv_rank & Hrecv & Hne & _).
    + discriminate.
    + decide_by_compute.
    + apply Hne. vm_compute in Hrecv. injection Hrecv as <-. discriminate.
  - vm_compute in Hrun. discriminate.
Defined.
End merge_scalar_pass_through_example.


(** ** Tilings and the owner's concatenation *)

Lemma tiles_le lo hi plan : tiles lo hi plan → lo <= hi.
Proof.
  revert lo. induction plan as [|[[r b] e] plan IH]; intros lo; simpl.
  - lia.
  - intros (-> & Hlt & Hrest). apply IH in Hrest. lia.
Qed.



(** Over a tiling of [[lo, hi)] the transferred lengths add up to the part of
    the range below the boundary [S]. *)
Lemma tiles_recv_length lo hi S plan :
  tiles lo hi plan →
  foldr Z.add 0 ((λ '(_, b, e), recv_length b e S hi) <$> plan)
  = Z.min hi S - Z.min lo S.
Proof.
  revert lo. induction plan as [|[[r b] e] plan IH]; intros lo.
  - simpl. intros ->. lia.
  - intros (-> & Hlt & Hrest). rewrite fmap_cons. cbn [foldr].
    rewrite (IH e Hrest).
    apply tiles_le in Hrest. rewrite recv_length_real by lia. lia.
Qed.

Section owner_run.
Context `{Backend} `{Utils}.
Implicit Types (cur t : Tensor) (plan : SendInfo) (net : Net) (sd : StateDict).

Lemma length_mjoin_data (frags : list Tensor) :
  Z.of_nat (length (mjoin (t_data <$> frags))) = foldr Z.add 0 (numel <$> frags).
Proof.
  induction frags as [|f frags IH]; [done|].
  change (mjoin (t_data <$> f :: frags)) with (t_data f ++ mjoin (t_data <$> frags)).
  change (foldr Z.add 0 (numel <$> f :: frags))
    with (numel f + foldr Z.add 0 (numel <$> frags)).
  by rewrite length_app, Nat2Z.inj_add, IH.
Qed.

Lemma plan_ranks_elem_of plan r b e : (r, b, e) ∈ plan → r ∈ plan_ranks plan.
Proof. intros Hi. unfold plan_ranks. apply list_elem_of_fmap. by exists (r, b, e). Qed.

Lemma collect_fragments_run_from net0 recv_rank cur S E plan net :
  is_vec cur → NoDup (plan_ranks plan) →
  (∀ r, r ∈ plan_ranks plan → inbox net !! r = inbox net0 !! r) →
  (∀ r b e, (r, b, e) ∈ plan → r = recv_rank → numel cur = e - b) →
  (∀ r b e, (r, b, e) ∈ plan → r ≠ recv_rank →
     ∃ m ms, inbox net0 !! r = Some (m :: ms) ∧
             Z.of_nat (length m) = recv_length b e S E) →
  ∃ frags net',
    collect_fragments recv_rank cur S E plan net = Some (frags, net') ∧
    Forall2 (λ frag '(r, b, e),
               if bool_decide (r = recv_rank)
               then t_data frag = take (Z.to_nat (recv_length b e S E)) (t_data cur)
               else ∃ ms, inbox net0 !! r = Some (t_data frag :: ms))
            frags plan.
Proof.
  intros Hvec. revert net.
  induction plan as [|[[r b] e] plan IH]; intros net Hnd Hsame Hown Hin; simpl.
  { exists [], net. split; [done|constructor]. }
  apply NoDup_cons in Hnd as [Hnotin Hnd].
  case_bool_decide as Hr.
  - destruct (own_fragment_vec cur b e S E Hvec) as (frag & Hfrag & _ & _ & _ & Hdata).
    { eapply Hown; [left|done]. }
    rewrite Hfrag. simpl.
    destruct (IH net Hnd) as (frags & net' & Hrun & Hall).
    { intros r' Hr'. apply Hsame. by right. }
    { intros ??? Hi. apply Hown. by right. }
    { intros ??? Hi. apply Hin. by right. }
    rewrite Hrun. simpl. exists (frag :: frags), net'. split; [done|].
    constructor; [|done]. by rewrite bool_decide_eq_true_2.
  - destruct (Hin r b e) as (m & ms & Hq & Hlen); [left|done|].
    unfold empty, zeros. rewrite decide_False by lia. simpl.
    unfold recv. simpl. rewrite Hsame by left. rewrite Hq. rewrite length_replicate.
    rewrite decide_True by lia. simpl.
    set (net1 := {| inbox := <[r:=ms]> (inbox net); outbox := outbox net |}).
    destruct (IH net1 Hnd) as (frags & net' & Hrun & Hall).
    { intros r' Hr'. simpl. rewrite lookup_insert_ne by (by intros ->).
      apply Hsame. by right. }
    { intros ??? Hi. apply Hown. by right. }
    { intros ??? Hi. apply Hin. by right. }
    rewrite Hrun. simpl. eexists (_ :: frags), net'. split; [done|].
    constructor; [|done].
    rewrite bool_decide_eq_false_2 by done. simpl. eauto.
Qed.

(** The owner's loop succeeds when the rank holds its own slice as a vector
    and every other rank of the plan has a message of the planned length at
    the head of its queue; it returns the own prefix and these messages, in
    plan order. *)
Lemma collect_fragments_run recv_rank cur S E plan net :
  is_vec cur → NoDup (plan_ranks plan) →
  (∀ r b e, (r, b, e) ∈ plan → r = recv_rank → numel cur = e - b) →
  (∀ r b e, (r, b, e) ∈ plan → r ≠ recv_rank →
     ∃ m ms, inbox net !! r = Some (m :: ms) ∧
             Z.of_nat (length m) = recv_length b e S E) →
  ∃ frags net',
    collect_fragments recv_rank cur S E plan net = Some (frags, net') ∧
    Forall2 (λ frag '(r, b, e),
               if bool_decide (r = recv_rank)
               then t_data frag = take (Z.to_nat (recv_length b e S E)) (t_data cur)
               else ∃ ms, inbox net !! r = Some (t_data frag :: ms))
            frags plan.
Proof. intros. by apply collect_fragments_run_from. Qed.
End owner_run.


Lemma prodZ_pos (s : list Z) : Forall (λ d, 0 < d) s → 0 < prodZ s.
Proof.
  induction 1 as [|d s Hd _ IH]; simpl; [lia|]. by apply Z.mul_pos_pos.
Qed.

Section owner_merge.
Context `{Backend} `{Utils}.
Implicit Types (cur t : Tensor) (plan : SendInfo) (net : Net) (sd : StateDict).

Lemma fragments_total_length cur S E (frags : list Tensor) plan :
  Forall2 (λ frag '(r, b, e),
             is_vec frag ∧ t_dtype frag = t_dtype cur ∧
             numel frag = recv_length b e S E)
          frags plan →
  foldr Z.add 0 (numel <$> frags)
  = foldr Z.add 0 ((λ '(_, b, e), recv_length b e S E) <$> plan).
Proof.
  induction 1 as [|frag [[r b] e] frags plan (_ & _ & Hlen) _ IH]; [done|].
  rewrite !fmap_cons. cbn [foldr]. by rewrite IH, Hlen.
Qed.

(** The owner's concatenation of collected fragments. *)
Lemma concat_fragments cur S E (frags : list Tensor) plan :
  plan ≠ [] →
  Forall2 (λ frag '(r, b, e),
             is_vec frag ∧ t_dtype frag = t_dtype cur ∧
             numel frag = recv_length b e S E)
          frags plan →
  ∃ merged, concat frags = Some merged ∧ is_vec merged ∧
    t_data merged = mjoin (t_data <$> frags) ∧ t_dtype merged = t_dtype cur.
Proof.
  intros Hne Hall. destruct Hall as [|frag [[r b] e] frags plan Hhd Htl]; [done|].
  assert (Forall (λ t', t_dtype t' = t_dtype frag ∧ is_vec t') (frag :: frags)) as Hvecs.
  { destruct Hhd as (Hv & Hd & _). constructor; [done|].
    clear -Htl Hd. induction Htl as [|f [[r' b'] e'] fs ps (Hv' & Hd' & _) _ IH];
      constructor; [|done]. split; [congruence|done]. }
  rewrite concat_vecs by done. eexists. split; [done|].
  destruct Hhd as (_ & Hd & _). unfold is_vec, numel. simpl. done.
Qed.

(** The run of the first loop on the entry of a partial parameter on its
    receiving rank, when the plan tiles the padded range and every other rank
    of the plan has its message at the head of its queue. *)
Lemma merge_entry_owner_run
    (global_rank : Z) (partial_tensor_list : list string)
    (param_shape_info : gmap string ShapeInfo) (send_table : gmap string SendInfo)
    (recv_table : gmap string Z) (is_master_weights : bool)
    (key : string) (sd : StateDict) (net : Net) (cur : Tensor)
    (shape : list Z) (n i p : Z) (plan : SendInfo) :
  let static_name := static_name_of is_master_weights key in
  od_get sd key = Some cur → numel cur ≠ 1 →
  static_name ∈ partial_tensor_list →
  param_shape_info !! static_name = Some (shape, n, i, p) →
  recv_table !! static_name = Some global_rank →
  send_table !! static_name = Some plan →
  is_vec cur →
  (∀ r b e, (r, b, e) ∈ plan → r = global_rank → numel cur = e - b) →
  NoDup (plan_ranks plan) →
  (∀ r b e, (r, b, e) ∈ plan → r ≠ global_rank →
     ∃ m ms, inbox net !! r = Some (m :: ms) ∧
             Z.of_nat (length m) = recv_length b e (i + n) (i + p)) →
  tiles i (i + p) plan → 0 <= n <= p →
  Forall (λ d, 0 < d) shape → prodZ shape = n →
  ∃ frags net' t,
    collect_fragments global_rank cur (i + n) (i + p) plan net = Some (frags, net') ∧
    merge_entry global_rank partial_tensor_list param_shape_info send_table
      recv_table is_master_weights key (sd, net) = Some (od_set sd key t, net') ∧
    t_shape t = shape ∧ numel t = n ∧ t_dtype t = t_dtype cur ∧
    t_data t = mjoin (t_data <$> frags) ∧
    Forall2 (λ frag '(r, b, e),
               if bool_decide (r = global_rank)
               then t_data frag
                    = take (Z.to_nat (recv_length b e (i + n) (i + p))) (t_data cur)
               else ∃ ms, inbox net !! r = Some (t_data frag :: ms))
            frags plan.
Proof.
  intros static_name Hcur Hmany Hpart Hshape Hrecv Hsend Hvec Hown
    Hnd Hin Htiles Hn Hpos Hprod.
  destruct (collect_fragments_run global_rank cur (i + n) (i + p) plan net
              Hvec Hnd Hown Hin) as (frags & net' & Hfr & Hdata).
  destruct (collect_fragments_lengths _ _ _ _ _ _ _ _ Hvec Hown Hfr) as [Hlen _].
  assert (plan ≠ []) as Hne.
  { intros ->. simpl in Htiles. apply prodZ_pos in Hpos. lia. }
  destruct (concat_fragments _ _ _ _ _ Hne Hlen) as (merged & Hcat & Hmv & Hmd & Hdt).
  assert (numel merged = n) as Hmn.
  { unfold numel. rewrite Hmd, length_mjoin_data.
    rewrite (fragments_total_length _ _ _ _ _ Hlen).
    rewrite (tiles_recv_length i (i + p)) by done. lia. }
  exists frags, net', (with_shape merged shape).
  split; [done|]. split; [|done].
  unfold merge_entry. rewrite Hcur. simpl.
  rewrite bool_decide_eq_false_2 by done.
  fold static_name. rewrite Hshape. simpl.
  rewrite bool_decide_eq_false_2 by (by intros ?).
  rewrite Hrecv, Hsend. simpl. rewrite bool_decide_eq_true_2 by done.
  rewrite Hfr. simpl. rewrite Hcat. simpl.
  by rewrite reshape_pos by (try done; congruence).
Qed.

(** C3, as the code has it.  On the receiving rank of a partial parameter,
    for an entry of other than one element (line 66 skips an entry of one
    element), with [base_padding_start = index + numel] and
    [base_padding_end = index + padded_size], every fragment of the send plan
    contributes [end - begin] elements when
    [max(begin, base_padding_start) >= min(end, base_padding_end)] and
    [max(begin, base_padding_start) - begin] elements otherwise, whether cut
    from the rank's own slice or received; the fragments are concatenated in
    plan order and reshaped to the logical shape.  When the plan tiles
    [[index, index + padded_size)] and every other rank of the plan has a
    message of the planned length, which is not empty, at the head of its
    queue, the merge of the entry succeeds, and the merged tensor has the
    logical shape and exactly [numel] elements: the part of the rank's own
    slice below the padding and these messages, in plan order. *)
Theorem merge_owner_fragments
    (global_rank : Z) (partial_tensor_list : list string)
    (param_shape_info : gmap string ShapeInfo) (send_table : gmap string SendInfo)
    (recv_table : gmap string Z) (is_master_weights : bool)
    (key : string) (sd : StateDict) (net : Net) (cur : Tensor)
    (shape : list Z) (n i p : Z) (plan : SendInfo) :
  let static_name := static_name_of is_master_weights key in
  od_get sd key = Some cur → numel cur ≠ 1 →
  static_name ∈ partial_tensor_list →
  param_shape_info !! static_name = Some (shape, n, i, p) →
  recv_table !! static_name = Some global_rank →
  send_table !! static_name = Some plan →
  is_vec cur →
  (∀ r b e, (r, b, e) ∈ plan → r = global_rank → numel cur = e - b) →
  (∀ frags net',
     collect_fragments global_rank cur (i + n) (i + p) plan net = Some (frags, net') →
     Forall2 (λ frag '(_, b, e),
                numel frag =
                  if bool_decide (Z.max b (i + n) >= Z.min e (i + p))
                  then e - b else Z.max b (i + n) - b)
             frags plan ∧
     merge_entry global_rank partial_tensor_list param_shape_info send_table
       recv_table is_master_weights key (sd, net)
     = (merged ← concat frags; t ← reshape merged shape;
        Some (od_set sd key t, net')) ∧
     (plan ≠ [] → ∃ merged, concat frags = Some merged ∧
                    t_data merged = mjoin (t_data <$> frags))) ∧
  (NoDup (plan_ranks plan) →
   (∀ r b e, (r, b, e) ∈ plan → r ≠ global_rank →
      ∃ m ms, inbox net !! r = Some (m :: ms) ∧ m ≠ [] ∧
              Z.of_nat (length m) = recv_length b e (i + n) (i + p)) →
   tiles i (i + p) plan → 0 <= n <= p →
   Forall (λ d, 0 < d) shape → prodZ shape = n →
   ∃ frags net' t,
     collect_fragments global_rank cur (i + n) (i + p) plan net = Some (frags, net') ∧
     merge_entry global_rank partial_tensor_list param_shape_info send_table
       recv_table is_master_weights key (sd, net) = Some (od_set sd key t, net') ∧
     t_shape t = shape ∧ numel t = n ∧ t_dtype t = t_dtype cur ∧
     t_data t = mjoin (t_data <$> frags) ∧
     Forall2 (λ frag '(r, b, e),
                if bool_decide (r = global_rank)
                then t_data frag
                     = take (Z.to_nat (recv_length b e (i + n) (i + p))) (t_data cur)
                else ∃ ms, inbox net !! r = Some (t_data frag :: ms))
             frags plan).
Proof.
  intros static_name Hcur Hmany Hpart Hshape Hrecv Hsend Hvec Hown.
  assert (∀ frags net',
            collect_fragments global_rank cur (i + n) (i + p) plan net
              = Some (frags, net') →
            merge_entry global_rank partial_tensor_list param_shape_info send_table
              recv_table is_master_weights key (sd, net)
            = (merged ← concat frags; t ← reshape merged shape;
               Some (od_set sd key t, net'))) as Hentry.
  { intros frags net' Hfr. unfold merge_entry. rewrite Hcur. simpl.
    rewrite bool_decide_eq_false_2 by done.
    fold static_name. rewrite Hshape. simpl.
    rewrite bool_decide_eq_false_2 by (by intros ?).
    rewrite Hrecv, Hsend. simpl. rewrite bool_decide_eq_true_2 by done.
    rewrite Hfr. simpl. done. }
  split.
  - intros frags net' Hfr.
    destruct (collect_fragments_lengths _ _ _ _ _ _ _ _ Hvec Hown Hfr) as [Hlen _].
    split; [|split].
    + eapply Forall2_impl; [exact Hlen|]. intros frag [[r b] e] (_ & _ & ->). done.
    + by apply Hentry.
    + intros Hne. destruct (concat_fragments _ _ _ _ _ Hne Hlen) as (m & ? & _ & ? & _).
      eauto.
  - intros Hnd Hin Htiles Hn Hpos Hprod.
    destruct (merge_entry_owner_run global_rank partial_tensor_list param_shape_info
                send_table recv_table is_master_weights key sd net cur shape n i p
                plan Hcur Hmany Hpart Hshape Hrecv Hsend Hvec Hown Hnd)
      as (frags & net' & t & Hfr & Hrun & Hs & Hnum & Hdt & Hd & Hprov); try done.
    { intros r b e Hx Hr. destruct (Hin r b e Hx Hr) as (m & ms & ? & _ & ?). eauto. }
    by exists frags, net', t.
Qed.
End owner_merge.

(** Splits the membership of a tuple in a concrete plan into its cases. *)
Ltac plan_cases Hin :=
  repeat (apply elem_of_cons in Hin as [Hin|Hin];
          [injection Hin as -> -> ->|]);
  [..|by apply elem_of_nil in Hin].

Section merge_owner_fragments_example.
#[local] Existing Instance Examples.Z_backend.
#[local] Existing Instance Examples.slash_utils.
Import Examples.

(** Rank 0 of the scenario: six elements of its own and four received from
    rank 1 make the ten elements of [w]. *)
Lemma merge_owner_fragments_witness :
  tiles 0 (0 + 12) [(0, 0, 6); (1, 6, 12)] ∧
  ∃ frags net' t,
    collect_fragments 0 (vec float32 [1; 2; 3; 4; 5; 6]) (0 + 10) (0 + 12)
      [(0, 0, 6); (1, 6, 12)] inbox_rank0 = Some (frags, net') ∧
    merge_entry 0 ["w"] w_shape_info w_send_table w_recv_table false "w/moment1_0"
      (sd_rank0, inbox_rank0) = Some (od_set sd_rank0 "w/moment1_0" t, net') ∧
    t_shape t = [2; 5] ∧ numel t = 10 ∧ t_dtype t = float32 ∧
    t_data t = mjoin (t_data <$> frags).
Proof.
  assert (tiles 0 (0 + 12) [(0, 0, 6); (1, 6, 12)]) as Htiles by (simpl; lia).
  split; [exact Htiles|].
  destruct (merge_owner_fragments 0 ["w"] w_shape_info w_send_table w_recv_table
              false "w/moment1_0" sd_rank0 inbox_rank0
              (vec float32 [1; 2; 3; 4; 5; 6]) [2; 5] 10 0 12
              [(0, 0, 6); (1, 6, 12)]) as [_ Hrun].
  - reflexivity.
  - discriminate.
  - decide_by_compute.
  - reflexivity.
  - reflexivity.
  - reflexivity.
  - reflexivity.
  - intros r b e Hin Hr. plan_cases Hin; [reflexivity|discriminate].
  - destruct Hrun as (frags & net' & t & Hfr & Hentry & Hs & Hn & Hdt & Hd & _).
    + decide_by_compute.
    + intros r b e Hin Hr. plan_cases Hin; [done|].
      exists [7; 8; 9; 10], []. split; [reflexivity|]. split; [discriminate|reflexivity].
    + exact Htiles.
    + lia.
    + repeat constructor.
    + reflexivity.
    + exists frags, net', t. repeat (split; [assumption|]). exact Hd.
Defined.

(** C3 as stated fails on a receiving rank whose own fragment has exactly
    one element.  The slices of [v] tile its padded range and rank 1 has
    sent its two real elements, but line 66 makes rank 0 skip its entry: it
    takes no message, and what it holds after the merge is its own element,
    not the three elements of [v]. *)
Lemma owner_skips_one_element_fragment :
  tiles 0 (0 + 4) [(0, 0, 1); (1, 1, 4)] ∧
  v_recv_table !! "v" = Some 0 ∧
  merge_splited_param 0 ["v"] v_shape_info v_send_table v_recv_table false "O0"
    [("v/moment1_0", vector float32 [5])]
    {| inbox := {[ 1 := [[6; 7]] ]}; outbox := [] |}
  = Some ([("v/moment1_0", vector float32 [5])],
          {| inbox := {[ 1 := [[6; 7]] ]}; outbox := [] |}) ∧
  numel (vector float32 [5]) ≠ 3.
Proof.
  split; [simpl; lia|]. split; [reflexivity|].
  split; [vm_compute; reflexivity|]. discriminate.
Qed.
End merge_owner_fragments_example.


(** ** Slice catalogs *)

Lemma foldl_mjoin {A B : Type} (f : A → B → A) (a : A) (ls : list (list B)) :
  foldl (λ acc l, foldl f acc l) a ls = foldl f a (mjoin ls).
Proof.
  revert a. induction ls as [|l ls IH]; intros a; simpl; [done|].
  by rewrite IH, foldl_app.
Qed.

Section catalog_facts.
Implicit Types (l : CommBuffer) (bufs : list CommBuffer) (key : string).

(** The catalog holds, for every key, the last view listed under it. *)
Lemma collect_slice_info_lookup bufs key :
  (collect_slice_info bufs).1 !! key
    = (λ v, SliceRange (_param_begin v) (_param_end v))
        <$> od_get (reverse (mjoin bufs)) key ∧
  (collect_slice_info bufs).2 !! key
    = shape_info_of <$> od_get (reverse (mjoin bufs)) key.
Proof.
  unfold collect_slice_info.
  rewrite (foldl_mjoin
             (λ acc '(key, v),
                (<[key := SliceRange (_param_begin v) (_param_end v)]> acc.1,
                 <[key := shape_info_of v]> acc.2))).
  induction (mjoin bufs) as [|[k v] l IH] using rev_ind; [done|].
  rewrite foldl_app, reverse_app. simpl.
  destruct (decide (k = key)) as [->|Hne].
  - by rewrite !lookup_insert_eq.
  - rewrite !lookup_insert_ne by done. exact IH.
Qed.

Lemma od_get_reverse_is_Some l key :
  is_Some (od_get (reverse l) key) ↔ key ∈ l.*1.
Proof.
  rewrite od_get_is_Some. unfold od_keys. rewrite fmap_reverse.
  by rewrite elem_of_reverse.
Qed.

Lemma local_slice_info_rank global_rank bufs :
  local_slice_info global_rank bufs !! "global_rank" = Some (RankId global_rank).
Proof. unfold local_slice_info. by rewrite lookup_insert_eq. Qed.

Lemma local_slice_info_lookup global_rank bufs key :
  key ≠ "global_rank" →
  local_slice_info global_rank bufs !! key
  = (λ v, SliceRange (_param_begin v) (_param_end v))
      <$> od_get (reverse (mjoin bufs)) key.
Proof.
  intros Hne. unfold local_slice_info. rewrite lookup_insert_ne by done.
  apply collect_slice_info_lookup.
Qed.

(** A key with a slice in the catalog is a parameter of the buffers, and not
    the key of the rank. *)
Lemma local_slice_info_range global_rank bufs key b e :
  local_slice_info global_rank bufs !! key = Some (SliceRange b e) →
  key ≠ "global_rank" ∧ key ∈ buffer_keys bufs.
Proof.
  intros Hl. assert (key ≠ "global_rank") as Hne.
  { intros ->. by rewrite local_slice_info_rank in Hl. }
  split; [done|]. rewrite local_slice_info_lookup in Hl by done.
  apply od_get_reverse_is_Some. destruct (od_get _ key); [eauto|done].
Qed.

Lemma local_slice_info_param global_rank bufs key :
  key ∈ buffer_keys bufs → key ≠ "global_rank" →
  ∃ v, (key, v) ∈ mjoin bufs ∧
    local_slice_info global_rank bufs !! key
    = Some (SliceRange (_param_begin v) (_param_end v)).
Proof.
  intros Hin Hne. rewrite local_slice_info_lookup by done.
  apply od_get_reverse_is_Some in Hin as [v Hv]. exists v. rewrite Hv.
  split; [|done]. apply elem_of_reverse. by apply od_get_elem_of.
Qed.

(** The ranks the resolver lists are the holders, in group order. *)
Lemma sharding_ranklist_of_holders key group plan :
  sharding_ranklist_of key (all_gather_object group) = Some plan →
  plan = holders key group.
Proof.
  revert plan. induction group as [|p group IH]; intros plan; simpl.
  - by intros [= <-].
  - unfold holders. simpl. fold (holders key group). unfold peer_slice at 1.
    destruct (local_slice_info _ _ !! key ≫= as_range) as [[b e]|]; simpl; [|done].
    rewrite local_slice_info_rank. simpl.
    case_bool_decide.
    + destruct (sharding_ranklist_of key (all_gather_object group)) as [tl|];
        simpl; [|done].
      intros [= <-]. f_equal. by apply IH.
    + apply IH.
Qed.

Lemma sharding_ranklist_of_total key group :
  (∀ p, p ∈ group → is_Some (peer_slice key p)) →
  sharding_ranklist_of key (all_gather_object group) = Some (holders key group).
Proof.
  induction group as [|p group IH]; intros Hall; simpl; [done|].
  unfold holders. simpl. fold (holders key group).
  destruct (Hall p) as [[b e] Hp]; [left|]. rewrite Hp. simpl.
  unfold peer_slice in Hp. rewrite Hp. simpl.
  rewrite local_slice_info_rank. simpl.
  rewrite IH by (intros q Hq; apply Hall; by right). simpl.
  by case_bool_decide.
Qed.

Lemma holders_elem_of key group p b e :
  p ∈ group → peer_slice key p = Some (b, e) → b < e →
  (peer_rank p, b, e) ∈ holders key group.
Proof.
  intros Hp Hs Hlt. unfold holders. apply list_elem_of_omap. exists p.
  split; [done|]. rewrite Hs. simpl. by rewrite bool_decide_eq_true_2 by lia.
Qed.

Lemma holders_sorted key group :
  StronglySorted
    (λ p q, ∀ b e b' e', peer_slice key p = Some (b, e) →
       peer_slice key q = Some (b', e') → b < e → b' < e' → b <= b')
    group →
  StronglySorted (λ x y, plan_begin x <= plan_begin y) (holders key group).
Proof.
  induction 1 as [|p group Hsorted IH Hall]; [constructor|].
  unfold holders. simpl. fold (holders key group).
  destruct (peer_slice key p) as [[b e]|] eqn:Hp; simpl; [|done].
  case_bool_decide as Hlt; [|done]. constructor; [done|].
  apply Forall_forall. intros [[r' b'] e'] Hin.
  apply list_elem_of_omap in Hin as (q & Hq & Heq).
  destruct (peer_slice key q) as [[b0 e0]|] eqn:Hqs; simpl in Heq; [|done].
  case_bool_decide as Hlt'; [|done]. injection Heq as <- <- <-.
  rewrite Forall_forall in Hall. unfold plan_begin. simpl.
  eapply (Hall q Hq); [done..|lia|lia].
Qed.
End catalog_facts.


(** ** The ownership resolver *)

(** C1, as the code has it.  For a name of [partial_tensor_list] the resolver
    stores as send plan the members of the sharding group that publish a
    non-empty slice, in the order of the gathered catalogs (the order of the
    group), and as [recv_rank] the rank of the first tuple of that plan.  The
    plan is sorted by ascending [begin], and the receiving rank holds the
    smallest [begin], when the non-empty slices ascend along the group. *)
Theorem resolve_owner_group_order (group : list Peer) (key : string)
    (tables tables' : gmap string SendInfo * gmap string Z) :
  resolve_owner (all_gather_object group) key tables = Some tables' →
  tables'.1 !! key = Some (holders key group) ∧
  (∃ rank b e rest, holders key group = (rank, b, e) :: rest ∧
     tables'.2 !! key = Some rank ∧
     (StronglySorted
        (λ p q, ∀ b e b' e', peer_slice key p = Some (b, e) →
           peer_slice key q = Some (b', e') → b < e → b' < e' → b <= b')
        group →
      StronglySorted (λ x y, plan_begin x <= plan_begin y) (holders key group) ∧
      ∀ x, x ∈ holders key group → b <= plan_begin x)).
Proof.
  unfold resolve_owner. intros Hrun.
  destruct (sharding_ranklist_of key (all_gather_object group)) as [plan|] eqn:Hplan;
    simpl in Hrun; [|done].
  apply sharding_ranklist_of_holders in Hplan as ->.
  destruct (holders key group) as [|[[rank b] e] rest] eqn:Hh; simpl in Hrun; [done|].
  injection Hrun as <-. simpl. split; [by rewrite lookup_insert_eq|].
  exists rank, b, e, rest. split; [done|]. split; [by rewrite lookup_insert_eq|].
  intros Hsorted. apply (holders_sorted key) in Hsorted. rewrite Hh in Hsorted.
  split; [done|]. intros x [->|Hx]%elem_of_cons; [done|].
  apply StronglySorted_inv in Hsorted as [_ Hall].
  rewrite Forall_forall in Hall. by apply Hall.
Qed.

Section resolve_owner_example.
Import Examples.

(** The scenario: rank 0 holds the lower half and comes first. *)
Lemma resolve_owner_group_order_witness :
  resolve_owner (all_gather_object w_group) "w" (∅, ∅)
  = Some ({[ "w" := [(0, 0, 6); (1, 6, 12)] ]}, {[ "w" := 0 ]}) ∧
  holders "w" w_group = [(0, 0, 6); (1, 6, 12)].
Proof.
  assert (resolve_owner (all_gather_object w_group) "w" (∅, ∅)
          = Some ({[ "w" := [(0, 0, 6); (1, 6, 12)] ]}, {[ "w" := 0 ]})) as Hrun.
  { vm_compute. reflexivity. }
  split; [exact Hrun|].
  destruct (resolve_owner_group_order w_group "w" (∅, ∅) _ Hrun) as [Hplan _].
  simpl in Hplan. rewrite lookup_singleton_eq in Hplan.
  apply (inj Some). symmetry. exact Hplan.
Defined.

(** C1 as stated fails: when the first member of the group holds the upper
    half of the parameter, the plan starts with the larger [begin] and the
    receiving rank is not the holder of the smallest one. *)
Lemma resolve_owner_not_sorted :
  ∃ send_table recv_table,
    resolve_owner (all_gather_object swapped_group) "w" (∅, ∅)
      = Some (send_table, recv_table) ∧
    send_table !! "w" = Some [(0, 6, 12); (1, 0, 6)] ∧
    recv_table !! "w" = Some 0 ∧
    ¬ StronglySorted (λ x y, plan_begin x <= plan_begin y)
        [(0, 6, 12); (1, 0, 6)] ∧
    peer_slice "w" (mkPeer 1 [[("w", w_view 0 6)]]) = Some (0, 6).
Proof.
  exists {[ "w" := [(0, 6, 12); (1, 0, 6)] ]}, {[ "w" := 0 ]}.
  split; [vm_compute; reflexivity|]. split; [reflexivity|]. split; [reflexivity|].
  split; [|vm_compute; reflexivity].
  intros Hsorted. apply StronglySorted_inv in Hsorted as [_ Hall].
  apply Forall_inv in Hall. unfold plan_begin in Hall. simpl in Hall. lia.
Qed.
End resolve_owner_example.


(** ** Classification *)

(** C2, as the code has it.  For an optimizer-state key of more than one
    element (any count other than one) whose static name has the local slice
    [(begin, end)] and the element count [numel]: the tensor is reshaped to
    the logical shape when [end - begin = numel]; the entry is left untouched
    and its name is not listed when [end - begin <> numel] and
    [end <= begin]; and the static name is appended to
    [partial_tensor_list] if and only if [end > begin] and
    [end - begin <> numel], which includes slices longer than [numel]. *)
Theorem classify_entry_cases `{Backend} `{Utils}
    (param_slice_info : gmap string SliceEntry)
    (param_shape_info : gmap string ShapeInfo) (key : string)
    (sd : StateDict) (partial_tensor_list : list string) (cur : Tensor)
    (begin end_ : Z) (shape : list Z) (n i p : Z) :
  let static_name := (generate_base_static_name key).1 in
  let result :=
    classify_entry param_slice_info param_shape_info key (sd, partial_tensor_list) in
  od_get sd key = Some cur → numel cur ≠ 1 →
  param_slice_info !! static_name = Some (SliceRange begin end_) →
  param_shape_info !! static_name = Some (shape, n, i, p) →
  (end_ - begin = n →
     result = (t ← reshape cur shape; Some (od_set sd key t, partial_tensor_list))) ∧
  (end_ - begin ≠ n → end_ <= begin → result = Some (sd, partial_tensor_list)) ∧
  (end_ - begin ≠ n → begin < end_ →
     result = Some (sd, partial_tensor_list ++ [static_name])) ∧
  ((∃ sd', result = Some (sd', partial_tensor_list ++ [static_name])) ↔
   begin < end_ ∧ end_ - begin ≠ n).
Proof.
  intros static_name result Hcur Hmany Hslice Hshape.
  assert (result =
            if bool_decide (end_ - begin = n) then
              t ← reshape cur shape; Some (od_set sd key t, partial_tensor_list)
            else if bool_decide (end_ <= begin) then Some (sd, partial_tensor_list)
            else Some (sd, partial_tensor_list ++ [static_name])) as Hres.
  { unfold result, classify_entry. fold static_name. rewrite Hslice, Hcur. simpl.
    rewrite bool_decide_eq_false_2 by done. by rewrite Hshape. }
  rewrite Hres. split; [|split; [|split]].
  - intros Hfull. by rewrite bool_decide_eq_true_2.
  - intros Hne Hempty. rewrite bool_decide_eq_false_2 by done.
    by rewrite bool_decide_eq_true_2.
  - intros Hne Hlt. rewrite bool_decide_eq_false_2 by done.
    by rewrite bool_decide_eq_false_2 by lia.
  - split.
    + intros [sd' Heq]. case_bool_decide as Hfull.
      * destruct (reshape cur shape) as [t|]; simpl in Heq; [|done].
        exfalso. injection Heq as <- Heq. apply (f_equal length) in Heq.
        rewrite length_app in Heq. simpl in Heq. lia.
      * case_bool_decide as Hempty; [|lia].
        exfalso. injection Heq as <- Heq. apply (f_equal length) in Heq.
        rewrite length_app in Heq. simpl in Heq. lia.
    + intros [Hlt Hne]. exists sd. rewrite bool_decide_eq_false_2 by done.
      by rewrite bool_decide_eq_false_2 by lia.
Qed.

Section classify_example.
#[local] Existing Instance Examples.Z_backend.
#[local] Existing Instance Examples.slash_utils.
Import Examples.

(** Rank 0 of the scenario holds six of the ten elements of [w]. *)
Lemma classify_entry_cases_witness :
  classify_entry (local_slice_info 0 [[("w", w_view 0 6)]])
    (collect_slice_info [[("w", w_view 0 6)]]).2 "w/moment1_0" (sd_rank0, [])
  = Some (sd_rank0, ["w"]).
Proof.
  destruct (classify_entry_cases (local_slice_info 0 [[("w", w_view 0 6)]])
              (collect_slice_info [[("w", w_view 0 6)]]).2 "w/moment1_0" sd_rank0 []
              (vec float32 [1; 2; 3; 4; 5; 6]) 0 6 [2; 5] 10 0 12)
    as (_ & _ & Hpartial & _).
  - reflexivity.
  - discriminate.
  - vm_compute. reflexivity.
  - vm_compute. reflexivity.
  - apply Hpartial; lia.
Defined.

(** C2 as stated fails: a rank that holds the whole parameter with its
    padding has a slice of 12 elements for 10 real ones; the name is listed
    as partial although [end - begin < numel] does not hold. *)
Lemma classify_entry_padded_whole :
  classify_entry (local_slice_info 0 [[("w", w_view 0 12)]])
    (collect_slice_info [[("w", w_view 0 12)]]).2 "w/moment1_0" (sd_whole, [])
  = Some (sd_whole, ["w"]) ∧
  local_slice_info 0 [[("w", w_view 0 12)]] !! "w" = Some (SliceRange 0 12) ∧
  (collect_slice_info [[("w", w_view 0 12)]]).2 !! "w" = Some ([2; 5], 10, 0, 12) ∧
  ¬ (0 < 12 - 0 < 10).
Proof.
  split; [vm_compute; reflexivity|]. split; [vm_compute; reflexivity|].
  split; [vm_compute; reflexivity|]. lia.
Qed.
(** The listing of a padded whole parameter as partial is what makes the
    merge drop its padding: the rank is the only holder and the receiving
    rank, and its twelve elements are cut to the ten real ones. *)
Lemma padded_whole_merges :
  merge_splited_param 0 ["w"] w_shape_info {[ "w" := [(0, 0, 12)] ]} {[ "w" := 0 ]}
    false "O0" sd_whole empty_net
  = Some ([("w/moment1_0",
            {| t_name := EmptyString; t_dtype := float32; t_shape := [2; 5];
               t_data := [1; 2; 3; 4; 5; 6; 7; 8; 9; 10] |})],
          empty_net).
Proof. vm_compute. reflexivity. Qed.
End classify_example.


(** ** Safety of the catalog lookups *)

Section lookup_safety.
Context `{Backend} `{Utils}.

(** Every name the classification lists has a non-empty local slice. *)
Lemma classify_loop_partial param_slice_info param_shape_info ks
    (sd sd' : StateDict) (partial_tensor_list : list string) :
  for_each (classify_entry param_slice_info param_shape_info) ks (sd, [])
    = Some (sd', partial_tensor_list) →
  ∀ name, name ∈ partial_tensor_list →
    ∃ b e, param_slice_info !! name = Some (SliceRange b e) ∧ b < e.
Proof.
  intros Hrun.
  refine (for_each_invariant
            (λ st, ∀ name, name ∈ st.2 →
               ∃ b e, param_slice_info !! name = Some (SliceRange b e) ∧ b < e)
            _ _ (sd, []) (sd', partial_tensor_list) _ _ Hrun).
  - intros key [s pl] [s' pl'] _ Hinv Hstep. simpl in *.
    unfold classify_entry in Hstep.
    destruct (param_slice_info !! _) as [entry|] eqn:Hentry;
      [|by injection Hstep as <- <-].
    destruct (od_get s key) as [cur|]; simpl in Hstep; [|done].
    case_bool_decide; [by injection Hstep as <- <-|].
    destruct entry as [b e|r]; simpl in Hstep; [|done].
    destruct (param_shape_info !! _) as [[[[shape n] i] p]|]; simpl in Hstep; [|done].
    case_bool_decide.
    { destruct (reshape cur shape); simpl in Hstep; [|done].
      by injection Hstep as <- <-. }
    case_bool_decide as Hempty; [by injection Hstep as <- <-|].
    injection Hstep as <- <-. intros name [Hin|Hin]%elem_of_app; [by apply Hinv|].
    apply list_elem_of_singleton in Hin as ->. exists b, e. split; [done|lia].
  - simpl. by intros name ?%elem_of_nil.
Qed.

Lemma resolve_owner_loop_total (gathered : list (gmap string SliceEntry))
    (names : list string) (tables : gmap string SendInfo * gmap string Z) :
  (∀ name, name ∈ names →
     ∃ plan, sharding_ranklist_of name gathered = Some plan ∧ plan ≠ []) →
  ∃ tables', for_each (resolve_owner gathered) names tables = Some tables' ∧
    (∀ name, name ∈ names → is_Some (tables'.2 !! name)) ∧
    (∀ name, is_Some (tables.2 !! name) → is_Some (tables'.2 !! name)).
Proof.
  revert tables. induction names as [|name names IH]; intros tables Hall; simpl.
  { exists tables. split; [done|]. split; [by intros ? ?%elem_of_nil|done]. }
  destruct (Hall name) as (plan & Hplan & Hne); [left|].
  unfold resolve_owner at 1. rewrite Hplan. simpl.
  destruct plan as [|[[rank b] e] rest]; [done|]. simpl.
  destruct (IH (<[name:=(rank, b, e) :: rest]> tables.1, <[name:=rank]> tables.2))
    as (tables' & Hrun & Hnew & Hold).
  { intros ??. apply Hall. by right. }
  exists tables'. split; [done|]. split.
  - intros name' [->|Hin]%elem_of_cons; [|by apply Hnew].
    apply Hold. simpl. by rewrite lookup_insert_eq.
  - intros name' Hsome. apply Hold. simpl.
    destruct (decide (name = name')) as [->|Hne'];
      [by rewrite lookup_insert_eq|by rewrite lookup_insert_ne].
Qed.

(** C10. The catalog a rank publishes has a [(begin, end)] slice for every
    parameter of its communication buffers, held or not.  When every member
    of the sharding group has the same parameters in its buffers and the rank
    is a member of the group, then for every name of [partial_tensor_list]
    the lookup of the name succeeds in every gathered catalog, the list of
    ranks with a non-empty slice is not empty, and the loop that fills
    [send_table] and [recv_table] completes with a receiving rank for every
    name. *)
Theorem catalog_lookups_succeed (group : list Peer) (global_rank : Z)
    (optimizer : Optimizer) (sd' : StateDict) (partial_tensor_list : list string) :
  let comm_buffer_list := _comm_buffer_list optimizer in
  let param_slice_info := local_slice_info global_rank comm_buffer_list in
  let param_shape_info := (collect_slice_info comm_buffer_list).2 in
  mkPeer global_rank comm_buffer_list ∈ group →
  (∀ p key, p ∈ group →
     key ∈ buffer_keys (peer_comm_buffer_list p) ↔ key ∈ buffer_keys comm_buffer_list) →
  for_each (classify_entry param_slice_info param_shape_info)
    (od_keys (entries (state_dict optimizer))) (entries (state_dict optimizer), [])
    = Some (sd', partial_tensor_list) →
  (∀ key, key ∈ buffer_keys comm_buffer_list → key ≠ "global_rank" →
     ∃ v, (key, v) ∈ mjoin comm_buffer_list ∧
       param_slice_info !! key = Some (SliceRange (_param_begin v) (_param_end v))) ∧
  (∀ name slice_info, name ∈ partial_tensor_list →
     slice_info ∈ all_gather_object group →
     ∃ b e, slice_info !! name = Some (SliceRange b e)) ∧
  (∀ name, name ∈ partial_tensor_list →
     ∃ sharding_ranklist,
       sharding_ranklist_of name (all_gather_object group) = Some sharding_ranklist ∧
       sharding_ranklist ≠ []) ∧
  (∃ send_table recv_table,
     for_each (resolve_owner (all_gather_object group)) partial_tensor_list (∅, ∅)
       = Some (send_table, recv_table) ∧
     ∀ name, name ∈ partial_tensor_list → is_Some (recv_table !! name)).
Proof.
  intros comm_buffer_list param_slice_info param_shape_info Hme Hsame Hclass.
  pose proof (classify_loop_partial _ _ _ _ _ _ Hclass) as Hpartial.
  assert (∀ name p, name ∈ partial_tensor_list → p ∈ group →
            ∃ b e, local_slice_info (peer_rank p) (peer_comm_buffer_list p) !! name
                   = Some (SliceRange b e)) as Hpeer.
  { intros name p Hname Hp. destruct (Hpartial name Hname) as (b & e & Hl & _).
    apply local_slice_info_range in Hl as [Hne Hkey].
    apply (Hsame p name Hp) in Hkey.
    destruct (local_slice_info_param (peer_rank p) _ _ Hkey Hne) as (v & _ & Hv).
    eauto. }
  assert (∀ name, name ∈ partial_tensor_list →
            ∃ sharding_ranklist,
              sharding_ranklist_of name (all_gather_object group)
                = Some sharding_ranklist ∧ sharding_ranklist ≠ []) as Hlist.
  { intros name Hname. exists (holders name group). split.
    - apply sharding_ranklist_of_total. intros p Hp.
      destruct (Hpeer name p Hname Hp) as (b & e & Hl).
      unfold peer_slice. rewrite Hl. simpl. eauto.
    - destruct (Hpartial name Hname) as (b & e & Hl & Hlt).
      intros Hnil.
      pose proof (holders_elem_of name group _ b e Hme) as Hin.
      rewrite Hnil in Hin. eapply elem_of_nil, Hin; [|done].
      unfold peer_slice. simpl. fold comm_buffer_list param_slice_info.
      by rewrite Hl. }
  split; [|split; [|split]].
  - intros key Hkey Hne. by apply local_slice_info_param.
  - intros name slice_info Hname Hin. unfold all_gather_object in Hin.
    apply list_elem_of_fmap in Hin as (p & -> & Hp). by apply Hpeer.
  - exact Hlist.
  - destruct (resolve_owner_loop_total (all_gather_object group) partial_tensor_list
                (∅, ∅) Hlist) as ([send_table recv_table] & Hrun & Hnew & _).
    by exists send_table, recv_table.
Qed.
End lookup_safety.

Section lookup_safety_example.
#[local] Existing Instance Examples.Z_backend.
#[local] Existing Instance Examples.slash_utils.
Import Examples.

(** Rank 0 of the scenario: [w] is partial and both tables get an entry. *)
Lemma catalog_lookups_succeed_witness :
  mkPeer 0 (_comm_buffer_list optimizer_rank0) ∈ w_group ∧
  ∃ send_table recv_table,
    for_each (resolve_owner (all_gather_object w_group)) ["w"] (∅, ∅)
      = Some (send_table, recv_table) ∧
    ∀ name, name ∈ ["w"] → is_Some (recv_table !! name).
Proof.
  assert (mkPeer 0 (_comm_buffer_list optimizer_rank0) ∈ w_group) as Hme by left.
  split; [exact Hme|].
  apply (catalog_lookups_succeed w_group 0 optimizer_rank0 sd_rank0 ["w"] Hme).
  - intros p key Hp. unfold w_group in Hp.
    repeat (apply elem_of_cons in Hp as [->|Hp]; [done|]).
    by apply elem_of_nil in Hp.
  - vm_compute. reflexivity.
Defined.
End lookup_safety_example.


(** ** The split engine *)

Section split_facts.
Context `{Backend} `{Utils}.
Implicit Types (cur t : Tensor) (sd : StateDict).

Lemma py_index_range n i : 0 <= n → 0 <= py_index n i <= n.
Proof. intros. unfold py_index. case_decide; lia. Qed.

Lemma py_slice_length {A : Type} (l : list A) (a b : Z) :
  Z.of_nat (length (py_slice l a b))
  = Z.max 0 (py_index (Z.of_nat (length l)) b - py_index (Z.of_nat (length l)) a).
Proof.
  unfold py_slice. rewrite length_take, length_drop.
  pose proof (py_index_range (Z.of_nat (length l)) a ltac:(lia)).
  pose proof (py_index_range (Z.of_nat (length l)) b ltac:(lia)).
  lia.
Qed.

(** What [reshape_param] computes from a buffer for the slice
    [[begin, end)] of a parameter at [index]: the Python slice
    [[begin - index : end - index]] of the flattened buffer followed by the
    zeros of the padding the slice runs into. *)
Lemma reshape_param_Some (param_shape_info : gmap string ShapeInfo)
    (param_slice_info : gmap string (Z * Z)) static_name cur begin end_ shape n i p :
  param_slice_info !! static_name = Some (begin, end_) →
  param_shape_info !! static_name = Some (shape, n, i, p) →
  ∃ t, reshape_param param_shape_info param_slice_info (Some static_name) cur = Some t ∧
    is_vec t ∧ t_dtype t = t_dtype cur ∧
    t_data t = py_slice (t_data cur) (begin - i) (end_ - i)
               ++ replicate (Z.to_nat (Z.min end_ (i + p) - Z.max begin (i + n)))
                    (zero_elem (t_dtype cur)).
Proof.
  intros Hslice Hshape. unfold reshape_param. simpl.
  rewrite Hslice, Hshape. simpl. rewrite reshape_flat. simpl.
  unfold tslice. simpl.
  set (N := numel cur).
  set (a' := py_index N (begin - i)). set (b' := py_index N (end_ - i)).
  assert (take (Z.to_nat ((b' - a') * 1)) (drop (Z.to_nat (a' * 1)) (t_data cur))
          = py_slice (t_data cur) (begin - i) (end_ - i)) as Hdata.
  { unfold py_slice. fold (numel cur). fold N. fold a' b'.
    by rewrite !Z.mul_1_r. }
  rewrite Hdata.
  assert (Z.of_nat (length (py_slice (t_data cur) (begin - i) (end_ - i)))
          = Z.max 0 (b' - a')) as Hlen.
  { rewrite py_slice_length. fold (numel cur). by fold N. }
  set (sliced := with_data (with_shape cur [N]) [Z.max 0 (b' - a')]
                   (py_slice (t_data cur) (begin - i) (end_ - i))).
  assert (is_vec sliced) as Hvec.
  { unfold is_vec, numel, sliced. simpl. by rewrite Hlen. }
  case_bool_decide as Hpad.
  - unfold zeros. rewrite decide_False by lia. simpl.
    rewrite !decide_True by done. simpl.
    eexists. split; [done|]. rewrite app_nil_r.
    split; [|done]. unfold is_vec, numel. simpl. f_equal.
    rewrite length_app, length_replicate, Nat2Z.inj_add, Hlen. lia.
  - exists sliced. split; [done|]. split; [done|]. split; [done|].
    replace (Z.to_nat (end_ `min` (i + p) - begin `max` (i + n))) with O by lia.
    simpl. by rewrite app_nil_r.
Qed.

Lemma reshape_entry_touched (struct2static_name_mappings : gmap string string)
    (param_shape_info : gmap string ShapeInfo)
    (param_slice_info : gmap string (Z * Z)) key sd sd' :
  reshape_entry struct2static_name_mappings param_shape_info param_slice_info key sd
    = Some sd' →
  od_touched key sd sd'.
Proof.
  unfold reshape_entry. intros Hrun.
  destruct (od_get sd key) as [cur|] eqn:Hcur; simpl in Hrun; [|done].
  case_bool_decide; [|injection Hrun as <-; by left].
  destruct (reshape_param _ _ _ cur) as [t|]; simpl in Hrun; [|done].
  injection Hrun as <-. right. left. split; [|eauto].
  apply od_get_is_Some. eauto.
Qed.

(** The entry [reshape_params] leaves under a key is what [reshape_entry]
    makes of the entry that was there. *)
Lemma reshape_params_at (struct2static_name_mappings : gmap string string)
    (param_shape_info : gmap string ShapeInfo)
    (param_slice_info : gmap string (Z * Z)) sd sd' key cur :
  NoDup (od_keys sd) → od_get sd key = Some cur →
  reshape_params struct2static_name_mappings param_shape_info param_slice_info sd
    = Some sd' →
  od_get sd' key =
    if bool_decide (numel cur > 1)
    then reshape_param param_shape_info param_slice_info
           (struct2static_name_mappings !! struct_name_of key) cur
    else Some cur.
Proof.
  intros Hnd Hcur Hrun. unfold reshape_params in Hrun.
  destruct (for_each_focus (λ s k, od_get s k)
              (reshape_entry struct2static_name_mappings param_shape_info
                 param_slice_info) (od_keys sd))
    with (s := sd) (s' := sd') (k := key) as [_ Hin]; [|done..|].
  { intros k s s' k' Hb Hne. eapply od_touched_other; [|done].
    by eapply reshape_entry_touched. }
  destruct Hin as (s1 & s2 & Hlook & Hb & Hres).
  { apply od_get_is_Some. eauto. }
  rewrite Hres. unfold reshape_entry in Hb. rewrite Hlook, Hcur in Hb. simpl in Hb.
  case_bool_decide; [|by injection Hb as <-; rewrite Hlook].
  destruct (reshape_param _ _ _ cur) as [t|]; simpl in Hb; [|done].
  injection Hb as <-. by rewrite od_get_set_eq.
Qed.

(** C6. For an entry of more than one element whose buffer has exactly
    [numel] elements, [reshape_params] replaces the entry by a 1-D tensor of
    the same dtype: the slice [[begin - index : end - index]] of the
    flattened buffer followed by
    [min(end, index + padded_size) - max(begin, index + numel)] zeros when
    that number is positive, and by nothing otherwise.  For a local slice
    inside the padded range of the parameter
    ([index <= begin <= end <= index + padded_size]) the tensor has exactly
    [end - begin] elements, and every element at or beyond the real-data
    boundary [index + numel] is zero. *)
Theorem reshape_params_local_slice
    (struct2static_name_mappings : gmap string string)
    (param_shape_info : gmap string ShapeInfo)
    (param_slice_info : gmap string (Z * Z))
    (sd : StateDict) (key static_name : string) (cur : Tensor)
    (begin end_ : Z) (shape : list Z) (n i p : Z) :
  NoDup (od_keys sd) → od_get sd key = Some cur →
  numel cur > 1 → numel cur = n →
  struct2static_name_mappings !! struct_name_of key = Some static_name →
  param_slice_info !! static_name = Some (begin, end_) →
  param_shape_info !! static_name = Some (shape, n, i, p) →
  ∃ t,
    reshape_entry struct2static_name_mappings param_shape_info param_slice_info
      key sd = Some (od_set sd key t) ∧
    (∀ sd', reshape_params struct2static_name_mappings param_shape_info
              param_slice_info sd = Some sd' →
            od_get sd' key = Some t) ∧
    is_vec t ∧ t_dtype t = t_dtype cur ∧
    t_data t = py_slice (t_data cur) (begin - i) (end_ - i)
               ++ replicate (Z.to_nat (Z.min end_ (i + p) - Z.max begin (i + n)))
                    (zero_elem (t_dtype cur)) ∧
    (i <= begin → begin <= end_ → end_ <= i + p →
     numel t = end_ - begin ∧
     ∀ (j : nat) x, t_data t !! j = Some x → i + n <= begin + Z.of_nat j →
       x = zero_elem (t_dtype cur)).
Proof.
  intros Hnd Hcur Hmany Hn Hname Hslice Hshape.
  destruct (reshape_param_Some param_shape_info param_slice_info static_name cur
              begin end_ shape n i p Hslice Hshape)
    as (t & Ht & Hvec & Hdt & Hdata).
  exists t. split; [|split; [|split; [|split; [|split]]]]; try done.
  - unfold reshape_entry. rewrite Hcur. simpl.
    rewrite bool_decide_eq_true_2 by done. rewrite Hname, Ht. done.
  - intros sd' Hrun.
    rewrite (reshape_params_at _ _ _ _ _ _ _ Hnd Hcur Hrun).
    rewrite bool_decide_eq_true_2 by done. by rewrite Hname.
  - intros Hlo Hle Hhi.
    assert (Z.of_nat (length (py_slice (t_data cur) (begin - i) (end_ - i)))
            = Z.min (end_ - i) n - Z.min (begin - i) n) as Hlen.
    { rewrite py_slice_length. fold (numel cur). rewrite Hn.
      unfold py_index. rewrite !decide_False by lia. lia. }
    split.
    + unfold numel.
      rewrite Hdata, length_app, length_replicate, Nat2Z.inj_add, Hlen. lia.
    + intros j x Hj Hbound. rewrite Hdata in Hj.
      rewrite lookup_app_r in Hj by lia.
      by apply lookup_replicate in Hj as [-> _].
Qed.
End split_facts.

Section reshape_params_example.
#[local] Existing Instance Examples.Z_backend.
#[local] Existing Instance Examples.slash_utils.
Import Examples.

(** Rank 1 of the scenario gets four real elements and two zeros back. *)
Lemma reshape_params_local_slice_witness :
  ∃ t,
    reshape_params {[ "linear.weight" := "w" ]} w_shape_info {[ "w" := (6, 12) ]}
      [("linear.weight/moment1_0",
        with_shape (vec float32 [1; 2; 3; 4; 5; 6; 7; 8; 9; 10]) [2; 5])]
    = Some [("linear.weight/moment1_0", t)] ∧
    numel t = 12 - 6 ∧ t_data t = [7; 8; 9; 10; 0; 0].
Proof.
  destruct (reshape_params_local_slice {[ "linear.weight" := "w" ]} w_shape_info
              {[ "w" := (6, 12) ]}
              [("linear.weight/moment1_0",
                with_shape (vec float32 [1; 2; 3; 4; 5; 6; 7; 8; 9; 10]) [2; 5])]
              "linear.weight/moment1_0" "w"
              (with_shape (vec float32 [1; 2; 3; 4; 5; 6; 7; 8; 9; 10]) [2; 5])
              6 12 [2; 5] 10 0 12)
    as (t & Hentry & _ & _ & _ & Hdata & Hlen).
  - decide_by_compute.
  - reflexivity.
  - reflexivity.
  - reflexivity.
  - reflexivity.
  - reflexivity.
  - reflexivity.
  - exists t. split; [|split; [apply Hlen; lia|exact Hdata]].
    unfold reshape_params. simpl. rewrite Hentry. reflexivity.
Defined.
End reshape_params_example.


(** ** Merge, then split *)

Lemma tiles_recv_length_below lo hi S E plan :
  tiles lo hi plan → hi <= E →
  foldr Z.add 0 ((λ '(_, b, e), recv_length b e S E) <$> plan)
  = Z.min hi S - Z.min lo S.
Proof.
  revert lo. induction plan as [|[[r b] e] plan IH]; intros lo.
  - simpl. intros ->. lia.
  - intros (-> & Hlt & Hrest) Hhi. rewrite fmap_cons. cbn [foldr].
    rewrite (IH e Hrest Hhi).
    apply tiles_le in Hrest. rewrite recv_length_real by lia. lia.
Qed.

Section roundtrip_facts.
Context `{Backend}.
Implicit Types (plan : SendInfo) (bufs : list (list elem)) (buf : list elem).




End roundtrip_facts.


Section roundtrip.
Context `{Backend} `{Utils}.
Implicit Types (plan : SendInfo) (bufs : list (list elem)) (buf : list elem).





End roundtrip.


Section roundtrip_owner.
Context `{Backend} `{Utils}.
Implicit Types (plan : SendInfo) (bufs : list (list elem)) (buf : list elem).


End roundtrip_owner.



Section roundtrip_example.
#[local] Existing Instance Examples.Z_backend.
#[local] Existing Instance Examples.slash_utils.
Import Examples.



(** The guard of [reshape_params] alone breaks the round trip for a
    parameter of one element: the rank that holds all of [s], padding
    included, merges it to the single element, and gets that element back
    where it held four. *)
Lemma roundtrip_one_element_parameter :
  tiles 0 (0 + 4) [(0, 0, 4)] ∧
  Forall2 (fits (0 + 1) 0) [(0, 0, 4)] [[5; 0; 0; 0]] ∧
  ∃ merged,
    merge_splited_param 0 ["s"] s_shape_info s_send_table s_recv_table false "O0"
      [("s/moment1_0", vector float32 [5; 0; 0; 0])] empty_net
    = Some ([("s/moment1_0", merged)], empty_net) ∧
    t_data merged = [5] ∧
    reshape_params {[ "scale" := "s" ]} s_shape_info {[ "s" := (0, 4) ]}
      [("scale/moment1_0", merged)]
    = Some [("scale/moment1_0", merged)].
Proof.
  split; [simpl; lia|]. split.
  { repeat constructor; simpl in *;
      repeat (destruct j as [|j]; simpl in *; try lia; try congruence). }
  eexists. split; [vm_compute; reflexivity|].
  split; [reflexivity|]. vm_compute. reflexivity.
Qed.

(** A rank whose slice lies in the padding has no element to send: its run
    of the merge fails at the send. *)
Lemma padding_only_rank_cannot_send :
  tiles 0 (0 + 4) [(0, 0, 2); (1, 2, 4)] ∧
  merge_splited_param 1 ["q"] q_shape_info q_send_table q_recv_table false "O0"
    [("q/moment1_0", vector float32 [0; 0])] empty_net = None.
Proof. split; [simpl; lia|]. vm_compute. reflexivity. Qed.
End roundtrip_example.


(** ** The fallback scan *)

Section fallback_facts.
Context `{Backend} `{Utils}.
Implicit Types (sd fin : StateDict) (files : Directory) (key : string).

Lemma unfound_of_spec (expected : list string) sd key :
  key ∈ unfound_of expected sd ↔ key ∈ expected ∧ od_get sd key = None.
Proof.
  unfold unfound_of. rewrite list_elem_of_filter, elem_of_remove_dups. tauto.
Qed.

(** One opened file overwrites exactly the unfound keys it holds. *)
Lemma pull_from_file_lookup (unfound_keys : list string) sd fin key :
  od_get (pull_from_file unfound_keys sd fin) key
  = match od_get fin key with
    | Some t => if bool_decide (key ∈ unfound_keys) then Some t else od_get sd key
    | None => od_get sd key
    end.
Proof.
  unfold pull_from_file. revert sd.
  induction unfound_keys as [|k ks IH]; intros sd; simpl.
  { destruct (od_get fin key); by rewrite ?bool_decide_eq_false_2 by apply not_elem_of_nil. }
  rewrite IH. unfold _copy_to.
  destruct (od_get fin key) as [t|] eqn:Hkey.
  - destruct (decide (k = key)) as [->|Hne].
    + rewrite Hkey, od_get_set_eq.
      rewrite (bool_decide_eq_true_2 (key ∈ key :: ks)) by left.
      by case_bool_decide.
    + assert (od_get (match od_get fin k with
                      | Some tensor => od_set sd k tensor
                      | None => sd
                      end) key = od_get sd key) as ->.
      { destruct (od_get fin k); [by apply od_get_set_ne|done]. }
      rewrite (bool_decide_ext (key ∈ ks) (key ∈ k :: ks)); [done|].
      rewrite elem_of_cons. split; [by right|]. intros [?|?]; [congruence|done].
  - destruct (od_get fin k) as [t|] eqn:Hk; [|done].
    apply od_get_set_ne. intros ->. congruence.
Qed.

(** The scan over the opened files: a key keeps its entry, or takes the
    tensor of one of the files that hold it. *)
Lemma pull_from_files_lookup (unfound_keys : list string) files sd key :
  let sd' := foldl (λ sd f, pull_from_file unfound_keys sd f.2) sd files in
  (od_get sd' key = od_get sd key ∧
   (key ∉ unfound_keys ∨ ∀ f, f ∈ files → od_get f.2 key = None)) ∨
  (key ∈ unfound_keys ∧
   ∃ f t, f ∈ files ∧ od_get f.2 key = Some t ∧ od_get sd' key = Some t).
Proof.
  revert sd. induction files as [|f files IH]; intros sd; simpl.
  { left. split; [done|]. right. by intros ? ?%elem_of_nil. }
  destruct (IH (pull_from_file unfound_keys sd f.2))
    as [[Hsame Hnone]|(Hin & f' & t & Hf' & Hget & Hres)].
  - rewrite pull_from_file_lookup in Hsame.
    destruct (od_get f.2 key) as [t|] eqn:Hkey.
    + case_bool_decide as Hin.
      * right. split; [done|]. exists f, t. split; [left|done].
      * left. split; [done|]. by left.
    + left. split; [done|]. destruct Hnone as [?|Hnone]; [by left|].
      right. intros f' [->|?]%elem_of_cons; [done|by apply Hnone].
  - right. split; [done|]. exists f', t. split; [by right|done].
Qed.

Lemma is_backup_file_spec (name name_ f : string) :
  is_backup_file name name_ f = true ↔
  startswith f name_ = true ∧ endswith f "safetensors" = true ∧
  f ≠ name ∧ strip_shard f = strip_shard name.
Proof.
  unfold is_backup_file. rewrite !andb_true_iff, !bool_decide_eq_true. tauto.
Qed.

(** C8, as the code has it.  The fallback scan opens the files of the
    checkpoint directory other than the primary file whose name starts with
    [optimizer] (or [master_weights]), ends with [safetensors] and equals the
    name of the primary file once the shard tokens are stripped from both.
    An entry that was loaded stays; an expected key that is missing and is
    held by one of these files is added with the tensor of such a file; an
    expected key held by none of them, like any key that is not expected,
    stays absent, and the scan itself raises nothing. *)
Theorem get_unfound_params_fallback (resume_from_checkpoint : Directory)
    (optimizer_name master_weights_name : string) (expected : list string)
    (sd : StateDict) (is_optimizer : bool) (key : string) :
  let name := if is_optimizer then optimizer_name else master_weights_name in
  let name_ := if is_optimizer then "optimizer" else "master_weights" in
  let backup (f : string * StateDict) :=
    f ∈ resume_from_checkpoint ∧
    startswith f.1 name_ = true ∧ endswith f.1 "safetensors" = true ∧
    f.1 ≠ name ∧ strip_shard f.1 = strip_shard name in
  let sd' :=
    get_unfound_params resume_from_checkpoint optimizer_name master_weights_name
      (unfound_of expected sd) sd is_optimizer in
  (∀ t, od_get sd key = Some t → od_get sd' key = Some t) ∧
  (key ∈ expected → od_get sd key = None →
     (∃ f, backup f ∧ is_Some (od_get f.2 key)) →
     ∃ f t, backup f ∧ od_get f.2 key = Some t ∧ od_get sd' key = Some t) ∧
  (od_get sd key = None →
     key ∉ expected ∨ (∀ f, backup f → od_get f.2 key = None) →
     od_get sd' key = None).
Proof.
  intros name name_ backup sd'.
  set (files := filter (λ f, is_backup_file name name_ f.1 = true)
                  resume_from_checkpoint).
  assert (∀ f, f ∈ files ↔ backup f) as Hfiles.
  { intros f. unfold files, backup.
    rewrite list_elem_of_filter, is_backup_file_spec. tauto. }
  assert ((od_get sd' key = od_get sd key ∧
           (key ∉ unfound_of expected sd ∨ ∀ f, backup f → od_get f.2 key = None)) ∨
          (key ∈ unfound_of expected sd ∧
           ∃ f t, backup f ∧ od_get f.2 key = Some t ∧ od_get sd' key = Some t))
    as Hcases.
  { unfold sd', get_unfound_params. case_bool_decide as Hlen.
    - fold name name_ files.
      destruct (pull_from_files_lookup (unfound_of expected sd) files sd key)
        as [[Hsame Hnone]|(Hin & f & t & Hf & Hget & Hres)].
      + left. split; [done|]. destruct Hnone as [?|Hnone]; [by left|].
        right. intros f Hf. apply Hnone. by apply Hfiles.
      + right. split; [done|]. exists f, t. split; [by apply Hfiles|done].
    - left. split; [done|]. left.
      destruct (unfound_of expected sd); [apply not_elem_of_nil|simpl in Hlen; lia]. }
  split; [|split].
  - intros t Ht. destruct Hcases as [[-> _]|(Hin & _)]; [done|].
    apply unfound_of_spec in Hin as [_ Hnone]. congruence.
  - intros Hexp Hnone (f & Hf & [t Ht]).
    destruct Hcases as [[_ [Hnot|Hall]]|(_ & Hfound)]; [| |done].
    + exfalso. apply Hnot. by apply unfound_of_spec.
    + rewrite (Hall f Hf) in Ht. done.
  - intros Hnone Hwhy.
    destruct Hcases as [[-> _]|(Hin & f & t & Hf & Hget & _)]; [done|].
    apply unfound_of_spec in Hin as [Hexp _].
    destruct Hwhy as [Hnot|Hall]; [done|]. rewrite (Hall f Hf) in Hget. done.
Qed.
End fallback_facts.

Section fallback_example.
#[local] Existing Instance Examples.Z_backend.
#[local] Existing Instance Examples.slash_utils.
Import Examples.

(** C8 as stated fails: a file whose stripped name equals the stripped name
    of the primary file, and which is not the primary file, is not opened
    when its name does not start with [optimizer]; a missing key it holds
    stays missing. *)
Lemma fallback_skips_other_prefix :
  strip_shard "shard1_optimizer.safetensors" = strip_shard "optimizer.safetensors" ∧
  "shard1_optimizer.safetensors" ≠ "optimizer.safetensors" ∧
  od_get [("linear.weight/moment1_0", vec float32 [1; 2])] "linear.weight/moment1_0"
    = Some (vec float32 [1; 2]) ∧
  "linear.weight/moment1_0" ∈ unfound_of ["linear.weight/moment1_0"] [] ∧
  get_unfound_params
    [("shard1_optimizer.safetensors",
      [("linear.weight/moment1_0", vec float32 [1; 2])])]
    "optimizer.safetensors" "master_weights.safetensors"
    (unfound_of ["linear.weight/moment1_0"] []) [] true
  = [].
Proof.
  split; [vm_compute; reflexivity|]. split; [discriminate|].
  split; [reflexivity|]. split; [decide_by_compute|]. vm_compute. reflexivity.
Qed.
End fallback_example.


(** ** Master weights on the load path *)

Section od_set_facts.
Context {V : Type}.
Implicit Types (d : list (string * V)) (k : string) (v : V).

Lemma od_keys_set_elem_of d k v k' :
  k' ∈ od_keys (od_set d k v) ↔ k' = k ∨ k' ∈ od_keys d.
Proof.
  rewrite <-!od_get_is_Some. destruct (decide (k = k')) as [->|Hne].
  - rewrite od_get_set_eq. split; [by left|eauto].
  - rewrite od_get_set_ne by done. split; [by right|]. intros [?|?]; [congruence|done].
Qed.

Lemma od_keys_set_NoDup d k v : NoDup (od_keys d) → NoDup (od_keys (od_set d k v)).
Proof.
  unfold od_keys. induction d as [|[k0 v0] d IH]; simpl.
  - intros _. apply NoDup_singleton.
  - intros [Hnotin Hnd]%NoDup_cons. destruct (decide (k0 = k)) as [->|Hne]; simpl.
    + by apply NoDup_cons.
    + apply NoDup_cons. split; [|by apply IH].
      intros Hin. apply (od_keys_set_elem_of d k v k0) in Hin as [?|?]; [congruence|done].
Qed.
End od_set_facts.

Section master_weight_facts.
Context `{Backend} `{Utils}.
Implicit Types (sd : StateDict) (cur t : Tensor).

Lemma concat_with_dtype dt rest (ts : list Tensor) r :
  concat_with dt rest ts = Some r → Forall (λ t, t_dtype t = dt) ts.
Proof.
  revert r. induction ts as [|t ts IH]; intros r; simpl; [constructor|].
  destruct (t_shape t) as [|d rest']; [done|].
  case_decide as Hd; [|done].
  destruct (concat_with dt rest ts) as [[n data]|]; simpl; [|done].
  intros _. constructor; [by destruct Hd|]. by eapply IH.
Qed.

Lemma concat_dtype t (ts : list Tensor) merged :
  concat (t :: ts) = Some merged → t_dtype merged = t_dtype t.
Proof.
  unfold concat. destruct (t_shape t) as [|d rest]; [done|].
  destruct (concat_with _ _ _) as [[n data]|]; simpl; [|done].
  by intros [= <-].
Qed.

Lemma tslice_dtype cur a b t : tslice cur a b = Some t → t_dtype t = t_dtype cur.
Proof. unfold tslice. destruct (t_shape cur); [done|]. by intros [= <-]. Qed.

(** Cutting a tensor to the local slice keeps its dtype. *)
Lemma reshape_param_dtype (param_shape_info : gmap string ShapeInfo)
    (param_slice_info : gmap string (Z * Z)) static_name cur t :
  reshape_param param_shape_info param_slice_info static_name cur = Some t →
  t_dtype t = t_dtype cur.
Proof.
  unfold reshape_param. intros Hrun.
  destruct (static_name ≫= (param_slice_info !!.)) as [[b e]|];
    cbn -[tslice concat zeros reshape] in Hrun; [|done].
  destruct (static_name ≫= (param_shape_info !!.)) as [[[[shape n] i] p]|];
    cbn -[tslice concat zeros reshape] in Hrun; [|done].
  rewrite reshape_flat in Hrun. cbn -[tslice concat zeros reshape] in Hrun.
  destruct (tslice _ _ _) as [sliced|] eqn:Hsl;
    cbn -[tslice concat zeros reshape] in Hrun; [|done].
  apply tslice_dtype in Hsl. simpl in Hsl.
  case_bool_decide.
  - destruct (zeros _ _) as [pad|]; cbn -[tslice concat zeros reshape] in Hrun; [|done].
    apply concat_dtype in Hrun. congruence.
  - injection Hrun as <-. done.
Qed.

Lemma reshape_params_keys (struct2static_name_mappings : gmap string string)
    (param_shape_info : gmap string ShapeInfo)
    (param_slice_info : gmap string (Z * Z)) sd sd' :
  reshape_params struct2static_name_mappings param_shape_info param_slice_info sd
    = Some sd' →
  (NoDup (od_keys sd) → NoDup (od_keys sd')) ∧
  ∀ k, k ∈ od_keys sd' → k ∈ od_keys sd.
Proof.
  unfold reshape_params. intros Hrun.
  refine (for_each_invariant
            (λ s, (NoDup (od_keys sd) → NoDup (od_keys s)) ∧
                  ∀ k, k ∈ od_keys s → k ∈ od_keys sd)
            _ _ sd sd' _ _ Hrun); [|done].
  intros key s s' _ [Hnd Hsub] Hb. apply reshape_entry_touched in Hb. split.
  - intros Hd. eapply od_touched_NoDup; [done|]. by apply Hnd.
  - intros k Hk. apply Hsub. by eapply od_touched_keys.
Qed.

Lemma to_float32_dtype t : t_dtype (to_float32 t) = float32.
Proof.
  unfold to_float32. case_bool_decide as Hd; [done|].
  by destruct (decide (t_dtype t = float32)).
Qed.

Lemma store_master_weight_loop (s2s : gmap string string) ks sd0 sd' ret' :
  for_each (store_master_weight s2s) ks (sd0, []) = Some (sd', ret') →
  ∀ static_name t, od_get ret' static_name = Some t →
    ∃ key cur, s2s !! key = Some static_name ∧ od_get sd0 key = Some cur ∧
      t = with_name (to_float32 cur) (join_underscore [static_name; FP32_MASTER]).
Proof.
  intros Hrun.
  refine (proj2 (for_each_invariant
            (λ st, (∀ k v, od_get st.1 k = Some v → od_get sd0 k = Some v) ∧
                   ∀ static_name t, od_get st.2 static_name = Some t →
                     ∃ key cur, s2s !! key = Some static_name ∧
                       od_get sd0 key = Some cur ∧
                       t = with_name (to_float32 cur)
                             (join_underscore [static_name; FP32_MASTER]))
            _ _ (sd0, []) (sd', ret') _ _ Hrun)); [|done].
  intros key [s ret] [s' ret2] _ [Hsub Hret] Hb. simpl in *.
  unfold store_master_weight in Hb.
  destruct (od_get s key) as [cur|] eqn:Hcur; simpl in Hb; [|done].
  unfold od_pop, _copy_to in Hb. rewrite od_get_set_eq in Hb. simpl in Hb.
  destruct (s2s !! key) as [static_name|] eqn:Hs; simpl in Hb; [|done].
  injection Hb as <- <-. split.
  - intros k v Hk. apply Hsub. destruct (decide (key = k)) as [->|Hne].
    + by rewrite od_get_del_eq in Hk.
    + by rewrite od_get_del_ne, od_get_set_ne in Hk.
  - intros static' t Ht. destruct (decide (static_name = static')) as [->|Hne].
    + rewrite od_get_set_eq in Ht. injection Ht as <-.
      exists key, cur. split; [done|]. split; [by apply Hsub|done].
    + rewrite od_get_set_ne in Ht by done. by apply Hret.
Qed.
End master_weight_facts.


Section non_merge_facts.
Context `{Backend} `{Utils}.
Implicit Types (sd : StateDict) (cur t : Tensor).

(** The master weights after the renaming loop: what was loaded, or, when
    there is no master-weight file, casts of model parameters. *)
Lemma rename_loop_master_weights (model_state_dict : StateDict)
    (s2s : gmap string string) (master_weights_file : bool) ks
    (optsd ret mw0 optsd' ret' mw' : StateDict) :
  for_each (rename_entry model_state_dict s2s false master_weights_file) ks
    (optsd, ret, mw0) = Some (optsd', ret', mw') →
  (NoDup (od_keys mw0) → NoDup (od_keys mw')) ∧
  ∀ k v, od_get mw' k = Some v →
    od_get mw0 k = Some v ∨
    (master_weights_file = false ∧
     ∃ param, od_get model_state_dict k = Some param ∧ v = cast param float32).
Proof.
  intros Hrun.
  refine (for_each_invariant
            (λ st, (NoDup (od_keys mw0) → NoDup (od_keys st.2)) ∧
                   ∀ k v, od_get st.2 k = Some v →
                     od_get mw0 k = Some v ∨
                     (master_weights_file = false ∧
                      ∃ param, od_get model_state_dict k = Some param ∧
                        v = cast param float32))
            _ _ (optsd, ret, mw0) (optsd', ret', mw') _ _ Hrun); [|by split; eauto].
  intros key [[s r] mw] [[s' r'] mw2] _ [Hnd Hinv] Hb. simpl in *.
  unfold rename_entry in Hb.
  destruct (split_slash key !! 0%nat) as [model_weight_key|]; simpl in Hb; [|done].
  destruct (s2s !! model_weight_key) as [static_name|]; simpl in Hb; [|done].
  destruct (od_get model_state_dict model_weight_key) as [param|] eqn:Hparam;
    simpl in Hb; [|done].
  destruct (split_slash key !! 1%nat) as [typename|]; simpl in Hb; [|done].
  destruct (bool_decide (t_dtype param ≠ float32)); simpl in Hb.
  all: destruct (od_pop s key) as [[popped s1]|]; simpl in Hb; [|done].
  all: destruct master_weights_file; simpl in Hb; injection Hb as <- <- <-.
  all: split; [intros Hd; try apply od_keys_set_NoDup; by apply Hnd|].
  all: intros k v Hk; try by apply Hinv.
  all: destruct (decide (model_weight_key = k)) as [->|Hne];
    [rewrite od_get_set_eq in Hk; injection Hk as <-; right; eauto
    |rewrite od_get_set_ne in Hk by done; by apply Hinv].
Qed.

Lemma rename_master_weight_loop (s2s : gmap string string) ks
    (mw0 mw' ret' : StateDict) :
  for_each (rename_master_weight s2s) ks (mw0, []) = Some (mw', ret') →
  ∀ static_name t, od_get ret' static_name = Some t →
    ∃ key v, s2s !! key = Some static_name ∧ od_get mw0 key = Some v ∧
      t = with_name v (join_underscore [static_name; FP32_MASTER]).
Proof.
  intros Hrun.
  refine (proj2 (for_each_invariant
            (λ st, (∀ k v, od_get st.1 k = Some v → od_get mw0 k = Some v) ∧
                   ∀ static_name t, od_get st.2 static_name = Some t →
                     ∃ key v, s2s !! key = Some static_name ∧
                       od_get mw0 key = Some v ∧
                       t = with_name v (join_underscore [static_name; FP32_MASTER]))
            _ _ (mw0, []) (mw', ret') _ _ Hrun)); [|done].
  intros key [s ret] [s' ret2] _ [Hsub Hret] Hb. simpl in *.
  unfold rename_master_weight in Hb.
  destruct (s2s !! key) as [static_name|] eqn:Hs; simpl in Hb; [|done].
  destruct (od_pop s key) as [[popped s1]|] eqn:Hpop; simpl in Hb; [|done].
  apply od_pop_Some in Hpop as [Hpopped ->].
  injection Hb as <- <-. split.
  - intros k v Hk. apply Hsub. destruct (decide (key = k)) as [->|Hne].
    + by rewrite od_get_del_eq in Hk.
    + by rewrite od_get_del_ne in Hk.
  - intros static' t Ht. destruct (decide (static_name = static')) as [->|Hne].
    + rewrite od_get_set_eq in Ht. injection Ht as <-.
      exists key, popped. split; [done|]. split; [by apply Hsub|done].
    + rewrite od_get_set_ne in Ht by done. by apply Hret.
Qed.

(** The master weights [rename_and_store] returns outside AMP O1. *)
Lemma rename_and_store_master_weights (model_state_dict : StateDict)
    (s2s : gmap string string) (param_shape_info : gmap string ShapeInfo)
    (param_slice_info : gmap string (Z * Z)) (master_weights_file : bool)
    (returned : OptimizerState) (optsd mw0 : StateDict) (r : OptimizerState) :
  rename_and_store model_state_dict s2s param_shape_info param_slice_info false
    master_weights_file returned optsd mw0 = Some r →
  ∃ mw, master_weights r = Some mw ∧
    ∀ static_name t, od_get mw static_name = Some t →
      t_name t = join_underscore [static_name; FP32_MASTER] ∧
      (master_weights_file = false → mw0 = [] →
       t_dtype t = float32 ∧
       ∃ key param v,
         od_get model_state_dict key = Some param ∧
         s2s !! key = Some static_name ∧
         (if bool_decide (numel (cast param float32) > 1)
          then reshape_param param_shape_info param_slice_info
                 (s2s !! struct_name_of key) (cast param float32)
          else Some (cast param float32)) = Some v ∧
         t = with_name v (join_underscore [static_name; FP32_MASTER])).
Proof.
  unfold rename_and_store. intros Hrun.
  destruct (reshape_params s2s param_shape_info param_slice_info optsd)
    as [optsd1|]; simpl in Hrun; [|done].
  destruct (for_each _ _ _) as [[[optsd2 ret] mw1]|] eqn:Hrename;
    simpl in Hrun; [|done].
  destruct (reshape_params s2s param_shape_info param_slice_info mw1)
    as [mw2|] eqn:Hreshape; simpl in Hrun; [|done].
  destruct (for_each _ (od_keys mw2) _) as [[mw3 rmw]|] eqn:Hstore;
    simpl in Hrun; [|done].
  injection Hrun as <-. simpl. exists rmw. split; [done|].
  intros static_name t Ht.
  destruct (rename_master_weight_loop _ _ _ _ _ Hstore _ _ Ht)
    as (key & v & Hs & Hv & ->).
  split; [done|]. intros -> ->.
  destruct (rename_loop_master_weights _ _ _ _ _ _ _ _ _ _ Hrename) as [Hnd Hcast].
  specialize (Hnd (NoDup_nil_2)).
  destruct (reshape_params_keys _ _ _ _ _ Hreshape) as [_ Hsub].
  assert (key ∈ od_keys mw1) as Hkey.
  { apply Hsub. apply od_get_is_Some. eauto. }
  apply od_get_is_Some in Hkey as [v1 Hv1].
  destruct (Hcast key v1 Hv1) as [Hnil|(_ & param & Hparam & ->)]; [done|].
  rewrite (reshape_params_at _ _ _ _ _ _ _ Hnd Hv1 Hreshape) in Hv.
  split.
  - simpl. case_bool_decide; [|by injection Hv as <-].
    by rewrite (reshape_param_dtype _ _ _ _ _ Hv).
  - by exists key, param, v.
Qed.
End non_merge_facts.

(** ** The load-side catalog *)

Section params_info_facts.
Implicit Types (bufs : list CommBuffer) (key : string) (v : View).

Lemma get_params_info_fold (l : list (string * View))
    (acc : list string * gmap string (Z * Z) * gmap string ShapeInfo) :
  foldl (λ '(expected_keys, param_slice_info, param_shape_info) '(key, v),
           let begin := _param_begin v in
           let end_ := _param_end v in
           if bool_decide (end_ > begin) then
             (expected_keys ++ [key],
              <[key := (begin, end_)]> param_slice_info,
              <[key := shape_info_of v]> param_shape_info)
           else (expected_keys, param_slice_info, param_shape_info))
        acc l
  = let held := filter (λ kv, _param_end kv.2 > _param_begin kv.2) l in
    (acc.1.1 ++ held.*1,
     foldl (λ m kv, <[kv.1 := (_param_begin kv.2, _param_end kv.2)]> m) acc.1.2 held,
     foldl (λ m kv, <[kv.1 := shape_info_of kv.2]> m) acc.2 held).
Proof.
  revert acc. induction l as [|[key v] l IH]; intros [[ks sl] sh]; simpl.
  { by rewrite app_nil_r. }
  rewrite IH. rewrite filter_cons. simpl.
  case_bool_decide; case_decide; try done; simpl.
  by rewrite <- app_assoc.
Qed.

Lemma foldl_insert_lookup {V W : Type} (f : V → W) (l : list (string * V))
    (m : gmap string W) key :
  foldl (λ m kv, <[kv.1 := f kv.2]> m) m l !! key
  = match od_get (reverse l) key with
    | Some v => Some (f v)
    | None => m !! key
    end.
Proof.
  revert m. induction l as [|[k v] l IH] using rev_ind; intros m; [done|].
  rewrite foldl_app, reverse_app. simpl.
  case_decide as Hk.
  - subst. by rewrite lookup_insert_eq.
  - rewrite lookup_insert_ne by done. apply IH.
Qed.

Lemma get_params_info_held bufs :
  get_params_info bufs
  = ((held_views bufs).*1,
     foldl (λ m kv, <[kv.1 := (_param_begin kv.2, _param_end kv.2)]> m) ∅
       (held_views bufs),
     foldl (λ m kv, <[kv.1 := shape_info_of kv.2]> m) ∅ (held_views bufs)).
Proof.
  unfold get_params_info. rewrite foldl_mjoin, get_params_info_fold. done.
Qed.

Lemma get_params_info_lookup bufs key :
  (get_params_info bufs).1.2 !! key
    = (λ v, (_param_begin v, _param_end v)) <$> od_get (reverse (held_views bufs)) key ∧
  (get_params_info bufs).2 !! key
    = shape_info_of <$> od_get (reverse (held_views bufs)) key.
Proof.
  rewrite get_params_info_held. simpl.
  rewrite (foldl_insert_lookup (λ v, (_param_begin v, _param_end v))).
  rewrite (foldl_insert_lookup shape_info_of), !lookup_empty.
  by destruct (od_get _ _).
Qed.
End params_info_facts.


(** X1. [get_params_info] records exactly the parameters of which the rank
    holds a non-empty slice: [expected_keys] lists the keys of the views with
    [end > begin], in buffer order; the slice catalog and the shape catalog
    have these keys and no others; and the slice and the shape stored under a
    key come from one and the same view of the buffers, whose slice is not
    empty. *)
Theorem get_params_info_held_only (comm_buffer_list : list CommBuffer) :
  let '(expected_keys, param_slice_info, param_shape_info) :=
    get_params_info comm_buffer_list in
  expected_keys
    = (filter (λ kv, _param_end kv.2 > _param_begin kv.2) (mjoin comm_buffer_list)).*1 ∧
  (∀ key, key ∈ expected_keys ↔ is_Some (param_slice_info !! key)) ∧
  (∀ key, is_Some (param_slice_info !! key) ↔ is_Some (param_shape_info !! key)) ∧
  (∀ key begin end_, param_slice_info !! key = Some (begin, end_) →
     begin < end_ ∧
     ∃ v, (key, v) ∈ mjoin comm_buffer_list ∧
       _param_begin v = begin ∧ _param_end v = end_ ∧
       param_shape_info !! key = Some (shape_info_of v)).
Proof.
  pose proof (get_params_info_lookup comm_buffer_list) as Hlook.
  pose proof (get_params_info_held comm_buffer_list) as Hheld.
  destruct (get_params_info comm_buffer_list) as [[ks sl] sh].
  injection Hheld as Hks _ _. simpl in Hlook.
  split; [done|]. split; [|split].
  - intros key. destruct (Hlook key) as [-> _].
    rewrite fmap_is_Some, od_get_reverse_is_Some. by rewrite Hks.
  - intros key. destruct (Hlook key) as [-> ->]. by rewrite !fmap_is_Some.
  - intros key b e Hsl. destruct (Hlook key) as [Hs1 Hs2].
    rewrite Hsl in Hs1. symmetry in Hs1.
    apply fmap_Some in Hs1 as (v & Hget & Hbe). injection Hbe as -> ->.
    rewrite Hget in Hs2. simpl in Hs2.
    apply od_get_elem_of in Hget. rewrite elem_of_reverse in Hget.
    apply list_elem_of_filter in Hget as [Hne Hin]. simpl in Hne.
    split; [lia|]. by exists v.
Qed.


Lemma od_get_reverse_NoDup {V : Type} (l : list (string * V)) key v :
  NoDup l.*1 → od_get (reverse l) key = Some v ↔ (key, v) ∈ l.
Proof.
  intros Hnd. split.
  - intros Hget%od_get_elem_of. by rewrite elem_of_reverse in Hget.
  - intros Hin. apply od_get_NoDup_elem_of.
    + unfold od_keys. by rewrite fmap_reverse, reverse_Permutation.
    + by rewrite elem_of_reverse.
Qed.

(** X2. The catalog of the load path agrees with the catalog of the save
    path on the parameters a rank holds.  When every parameter has one view
    in the rank's buffers, [get_params_info] records the slice [(begin, end)]
    of a key exactly when lines 129-140 of
    [gather_splited_param_for_optimizer] record that slice and it is not
    empty, and for such a key the two shape catalogs hold the same entry. *)
Theorem get_params_info_agrees_with_gather (comm_buffer_list : list CommBuffer)
    (key : string) (begin end_ : Z) :
  NoDup (buffer_keys comm_buffer_list) →
  ((get_params_info comm_buffer_list).1.2 !! key = Some (begin, end_) ↔
   (collect_slice_info comm_buffer_list).1 !! key = Some (SliceRange begin end_) ∧
   begin < end_) ∧
  (is_Some ((get_params_info comm_buffer_list).1.2 !! key) →
   (get_params_info comm_buffer_list).2 !! key
   = (collect_slice_info comm_buffer_list).2 !! key).
Proof.
  intros Hnd. unfold buffer_keys in Hnd.
  assert (NoDup (held_views comm_buffer_list).*1) as Hnd'.
  { eapply sublist_NoDup; [exact Hnd|]. apply fmap_sublist, sublist_filter. }
  destruct (get_params_info_lookup comm_buffer_list key) as [Hs Hh].
  destruct (collect_slice_info_lookup comm_buffer_list key) as [Hcs Hch].
  assert (∀ v, od_get (reverse (held_views comm_buffer_list)) key = Some v ↔
               od_get (reverse (mjoin comm_buffer_list)) key = Some v ∧
               _param_begin v < _param_end v) as Hheld.
  { intros v. rewrite !od_get_reverse_NoDup by done.
    unfold held_views. rewrite list_elem_of_filter. simpl. split.
    - intros [? ?]. split; [done|lia].
    - intros [? ?]. split; [lia|done]. }
  split.
  - rewrite Hs, Hcs. split.
    + intros (v & Hget & Hbe)%fmap_Some. injection Hbe as -> ->.
      apply Hheld in Hget as [Hget ?]. by rewrite Hget.
    + intros [(v & Hget & Hbe)%fmap_Some Hlt]. injection Hbe as -> ->.
      by rewrite (proj2 (Hheld v) (conj Hget Hlt)).
  - rewrite Hs, Hh, Hch. intros [v Hget]%fmap_is_Some.
    rewrite Hget. apply Hheld in Hget as [-> _]. done.
Qed.

Section catalogs_example.
Import Examples.

Lemma get_params_info_agrees_with_gather_witness :
  NoDup (buffer_keys [[("w", w_view 6 12)]]) ∧
  (get_params_info [[("w", w_view 6 12)]]).1.2 !! "w" = Some (6, 12) ∧
  (collect_slice_info [[("w", w_view 6 12)]]).1 !! "w" = Some (SliceRange 6 12).
Proof.
  assert (NoDup (buffer_keys [[("w", w_view 6 12)]])) as Hnd.
  { apply (bool_decide_unpack _). vm_compute. exact I. }
  split; [exact Hnd|].
  assert ((get_params_info [[("w", w_view 6 12)]]).1.2 !! "w" = Some (6, 12)) as Hl.
  { vm_compute. reflexivity. }
  split; [exact Hl|].
  exact (proj1 (proj1 (proj1 (get_params_info_agrees_with_gather
                                [[("w", w_view 6 12)]] "w" 6 12 Hnd)) Hl)).
Defined.
End catalogs_example.


(** ** The name mappings of the model *)

Section name_mapping_facts.
Context `{Backend} `{Utils}.
Implicit Types (model : StateDict) (k n : string) (v : Tensor).

Lemma struct2static_snoc model k v :
  struct2static (model ++ [(k, v)]) = <[k := t_name v]> (struct2static model).
Proof. unfold struct2static. by rewrite foldl_app. Qed.

Lemma static2struct_snoc model k v :
  static2struct (model ++ [(k, v)]) = <[t_name v := k]> (static2struct model).
Proof. unfold static2struct. by rewrite foldl_app. Qed.

Lemma struct2static_Some model k n :
  struct2static model !! k = Some n → ∃ v, (k, v) ∈ model ∧ t_name v = n.
Proof.
  induction model as [|[k' v'] model IH] using rev_ind; [done|].
  rewrite struct2static_snoc. destruct (decide (k' = k)) as [->|Hne].
  - rewrite lookup_insert_eq. intros [= <-]. exists v'.
    split; [|done]. apply elem_of_app. right. by apply list_elem_of_singleton.
  - rewrite lookup_insert_ne by done. intros (v & Hin & Hn)%IH.
    exists v. split; [|done]. apply elem_of_app. by left.
Qed.

Lemma static2struct_Some model k n :
  static2struct model !! n = Some k → ∃ v, (k, v) ∈ model ∧ t_name v = n.
Proof.
  induction model as [|[k' v'] model IH] using rev_ind; [done|].
  rewrite static2struct_snoc. destruct (decide (t_name v' = n)) as [<-|Hne].
  - rewrite lookup_insert_eq. intros [= <-]. exists v'.
    split; [|done]. apply elem_of_app. right. by apply list_elem_of_singleton.
  - rewrite lookup_insert_ne by done. intros (v & Hin & Hn)%IH.
    exists v. split; [|done]. apply elem_of_app. by left.
Qed.

Lemma struct2static_elem_of model k v :
  NoDup (od_keys model) → (k, v) ∈ model → struct2static model !! k = Some (t_name v).
Proof.
  induction model as [|[k' v'] model IH] using rev_ind; [by intros _ ?%elem_of_nil|].
  unfold od_keys. rewrite fmap_app. intros [Hnd [Hdisj _]]%NoDup_app.
  rewrite struct2static_snoc.
  intros [Hin|Hin%list_elem_of_singleton]%elem_of_app.
  - rewrite lookup_insert_ne; [by apply IH|].
    intros ->. apply (Hdisj k); [|by apply list_elem_of_singleton].
    apply list_elem_of_fmap. by exists (k, v).
  - injection Hin as -> ->. by rewrite lookup_insert_eq.
Qed.

Lemma static2struct_elem_of model k v :
  NoDup (t_name <$> model.*2) → (k, v) ∈ model →
  static2struct model !! t_name v = Some k.
Proof.
  induction model as [|[k' v'] model IH] using rev_ind; [by intros _ ?%elem_of_nil|].
  rewrite !fmap_app. intros [Hnd [Hdisj _]]%NoDup_app.
  rewrite static2struct_snoc.
  intros [Hin|Hin%list_elem_of_singleton]%elem_of_app.
  - rewrite lookup_insert_ne; [by apply IH|].
    intros Hn. apply (Hdisj (t_name v)); [|rewrite <- Hn; by apply list_elem_of_singleton].
    apply list_elem_of_fmap. exists v. split; [done|].
    apply list_elem_of_fmap. by exists (k, v).
  - injection Hin as -> ->. by rewrite lookup_insert_eq.
Qed.
End name_mapping_facts.

(** X3. The two name mappings built from [model_state_dict] are inverse to
    each other.  Whatever [static2struct_name_mappings] returns for a static
    name is a structural name that [struct2static_name_mappings] maps back to
    it; and when no two parameters of the model share a static name, the
    structural name of every parameter is what
    [static2struct_name_mappings] returns for its static name. *)
Theorem name_mappings_inverse `{Backend} `{Utils} (model_state_dict : StateDict)
    (key static_name : string) :
  NoDup (od_keys model_state_dict) →
  (static2struct model_state_dict !! static_name = Some key →
   struct2static model_state_dict !! key = Some static_name) ∧
  (NoDup (t_name <$> model_state_dict.*2) →
   struct2static model_state_dict !! key = Some static_name →
   static2struct model_state_dict !! static_name = Some key).
Proof.
  intros Hnd. split.
  - intros (v & Hin & <-)%static2struct_Some. by apply struct2static_elem_of.
  - intros Hnames (v & Hin & <-)%struct2static_Some. by apply static2struct_elem_of.
Qed.

Section name_mappings_example.
#[local] Existing Instance Examples.Z_backend.
#[local] Existing Instance Examples.slash_utils.
Import Examples.

Lemma name_mappings_inverse_witness :
  NoDup (od_keys bf16_model) ∧
  static2struct bf16_model !! "w" = Some "linear.weight" ∧
  struct2static bf16_model !! "linear.weight" = Some "w".
Proof.
  assert (NoDup (od_keys bf16_model)) as Hnd.
  { apply (bool_decide_unpack _). vm_compute. exact I. }
  assert (static2struct bf16_model !! "w" = Some "linear.weight") as Hl.
  { vm_compute. reflexivity. }
  split; [exact Hnd|]. split; [exact Hl|].
  exact (proj1 (name_mappings_inverse bf16_model "linear.weight" "w" Hnd) Hl).
Defined.
End name_mappings_example.


(** ** The frame of the split *)

Section split_frame_facts.
Context `{Backend} `{Utils}.
Implicit Types (cur t : Tensor) (sd : StateDict).

(** [reshape_param] succeeds only with a static name that both catalogs
    know. *)
Lemma reshape_param_inv (param_shape_info : gmap string ShapeInfo)
    (param_slice_info : gmap string (Z * Z)) name cur t :
  reshape_param param_shape_info param_slice_info name cur = Some t →
  ∃ static_name begin end_ shape n i p,
    name = Some static_name ∧
    param_slice_info !! static_name = Some (begin, end_) ∧
    param_shape_info !! static_name = Some (shape, n, i, p).
Proof.
  unfold reshape_param. intros Hrun.
  destruct name as [static_name|]; [|done].
  cbn -[tslice concat zeros reshape] in Hrun.
  destruct (param_slice_info !! static_name) as [[b e]|] eqn:Hsl;
    cbn -[tslice concat zeros reshape] in Hrun; [|done].
  destruct (param_shape_info !! static_name) as [[[[shape n] i] p]|] eqn:Hsh;
    cbn -[tslice concat zeros reshape] in Hrun; [|done].
  by exists static_name, b, e, shape, n, i, p.
Qed.

Lemma reshape_param_is_vec (param_shape_info : gmap string ShapeInfo)
    (param_slice_info : gmap string (Z * Z)) name cur t :
  reshape_param param_shape_info param_slice_info name cur = Some t → is_vec t.
Proof.
  intros Hrun.
  destruct (reshape_param_inv _ _ _ _ _ Hrun)
    as (static_name & b & e & shape & n & i & p & -> & Hsl & Hsh).
  destruct (reshape_param_Some _ _ static_name cur _ _ _ _ _ _ Hsl Hsh)
    as (t' & Hrun' & Hvec & _).
  rewrite Hrun in Hrun'. by injection Hrun' as ->.
Qed.

Lemma reshape_entry_keys (struct2static_name_mappings : gmap string string)
    (param_shape_info : gmap string ShapeInfo)
    (param_slice_info : gmap string (Z * Z)) key sd sd' :
  reshape_entry struct2static_name_mappings param_shape_info param_slice_info key sd
    = Some sd' →
  od_keys sd' = od_keys sd.
Proof.
  unfold reshape_entry. intros Hrun.
  destruct (od_get sd key) as [cur|] eqn:Hcur; simpl in Hrun; [|done].
  case_bool_decide; [|by injection Hrun as <-].
  destruct (reshape_param _ _ _ cur) as [t|]; simpl in Hrun; [|done].
  injection Hrun as <-. apply od_keys_set_in, od_get_is_Some. eauto.
Qed.

Lemma reshape_params_same_keys (struct2static_name_mappings : gmap string string)
    (param_shape_info : gmap string ShapeInfo)
    (param_slice_info : gmap string (Z * Z)) sd sd' :
  reshape_params struct2static_name_mappings param_shape_info param_slice_info sd
    = Some sd' →
  od_keys sd' = od_keys sd.
Proof.
  unfold reshape_params. intros Hrun.
  refine (for_each_invariant (λ s, od_keys s = od_keys sd) _ _ sd sd' _ _ Hrun);
    [|done].
  intros key s s' _ Hs Hb. apply reshape_entry_keys in Hb. congruence.
Qed.

(** X4. [reshape_params] changes entries in place and nothing else: the
    keys of the state dict stay the same, in the same order; every entry
    keeps its dtype, also when zero padding is appended to it; an entry of at
    most one element is returned exactly as it was, shape included; and
    every other entry comes back as a 1-D tensor. *)
Theorem reshape_params_in_place (struct2static_name_mappings : gmap string string)
    (param_shape_info : gmap string ShapeInfo)
    (param_slice_info : gmap string (Z * Z)) (sd sd' : StateDict) :
  NoDup (od_keys sd) →
  reshape_params struct2static_name_mappings param_shape_info param_slice_info sd
    = Some sd' →
  od_keys sd' = od_keys sd ∧
  ∀ key cur, od_get sd key = Some cur →
    ∃ t, od_get sd' key = Some t ∧ t_dtype t = t_dtype cur ∧
      (numel cur <= 1 → t = cur) ∧
      (1 < numel cur → is_vec t).
Proof.
  intros Hnd Hrun. split; [by eapply reshape_params_same_keys|].
  intros key cur Hcur.
  pose proof (reshape_params_at _ _ _ _ _ _ _ Hnd Hcur Hrun) as Hat.
  case_bool_decide as Hbig.
  - destruct (od_get sd' key) as [t|] eqn:Hget.
    + exists t. split; [done|]. symmetry in Hat.
      split; [by eapply reshape_param_dtype|].
      split; [lia|]. intros _. by eapply reshape_param_is_vec.
    + assert (is_Some (od_get sd' key)) as [? ?]; [|congruence].
      apply od_get_is_Some. rewrite (reshape_params_same_keys _ _ _ _ _ Hrun).
      apply od_get_is_Some. eauto.
  - exists cur. split; [done|]. split; [done|]. split; [done|lia].
Qed.

(** X5. [reshape_params] fails on an entry of more than one element for
    which a catalog lookup fails (a KeyError in the source): the structural
    name of the key is unknown to [struct2static_name_mappings], or its
    static name has no slice or no shape in the catalogs, as for a parameter
    of which the rank holds no slice. *)
Theorem reshape_params_missing_info (struct2static_name_mappings : gmap string string)
    (param_shape_info : gmap string ShapeInfo)
    (param_slice_info : gmap string (Z * Z)) (sd : StateDict)
    (key : string) (cur : Tensor) :
  NoDup (od_keys sd) → od_get sd key = Some cur → 1 < numel cur →
  (∀ static_name,
     struct2static_name_mappings !! struct_name_of key = Some static_name →
     param_slice_info !! static_name = None ∨
     param_shape_info !! static_name = None) →
  reshape_params struct2static_name_mappings param_shape_info param_slice_info sd
    = None.
Proof.
  intros Hnd Hcur Hbig Hmiss.
  destruct (reshape_params _ _ _ sd) as [sd'|] eqn:Hrun; [exfalso|done].
  pose proof (reshape_params_at _ _ _ _ _ _ _ Hnd Hcur Hrun) as Hat.
  rewrite bool_decide_eq_true_2 in Hat by lia.
  assert (is_Some (od_get sd' key)) as [t Ht].
  { apply od_get_is_Some. rewrite (reshape_params_same_keys _ _ _ _ _ Hrun).
    apply od_get_is_Some. eauto. }
  rewrite Ht in Hat. symmetry in Hat.
  destruct (reshape_param_inv _ _ _ _ _ Hat)
    as (static_name & b & e & shape & n & i & p & Hname & Hsl & Hsh).
  destruct (Hmiss static_name Hname); congruence.
Qed.
End split_frame_facts.

Section split_frame_example.
#[local] Existing Instance Examples.Z_backend.
#[local] Existing Instance Examples.slash_utils.
Import Examples.

Lemma reshape_params_in_place_witness :
  NoDup (od_keys optimizer_file_rank1) ∧
  ∃ sd',
    reshape_params {[ "linear.weight" := "w" ]} w_shape_info {[ "w" := (6, 12) ]}
      optimizer_file_rank1 = Some sd' ∧
    od_keys sd' = od_keys optimizer_file_rank1.
Proof.
  assert (NoDup (od_keys optimizer_file_rank1)) as Hnd.
  { apply (bool_decide_unpack _). vm_compute. exact I. }
  split; [exact Hnd|].
  destruct (reshape_params {[ "linear.weight" := "w" ]} w_shape_info
              {[ "w" := (6, 12) ]} optimizer_file_rank1) as [sd'|] eqn:Hrun.
  - exists sd'. split; [reflexivity|].
    exact (proj1 (reshape_params_in_place _ _ _ _ _ Hnd Hrun)).
  - exfalso. vm_compute in Hrun. discriminate Hrun.
Defined.

Lemma reshape_params_missing_info_witness :
  reshape_params {[ "linear.weight" := "w" ]} ∅ ∅ optimizer_file_rank1 = None.
Proof.
  apply (reshape_params_missing_info _ _ _ _ "linear.weight/moment1_0"
           (with_shape (vec float32 [1; 2; 3; 4; 5; 6; 7; 8; 9; 10]) [2; 5])).
  - apply (bool_decide_unpack _). vm_compute. exact I.
  - vm_compute. reflexivity.
  - vm_compute. reflexivity.
  - intros static_name _. left. apply lookup_empty.
Defined.
End split_frame_example.


(** ** What the merge never does *)

Section od_sublist_facts.
Context {V : Type}.
Implicit Types (d : list (string * V)) (k : string).

Lemma od_keys_del_sublist d k : od_keys (od_del d k) `sublist_of` od_keys d.
Proof.
  induction d as [|[k' v'] d IH]; simpl; [done|].
  case_decide; [by apply sublist_cons|by apply sublist_skip].
Qed.

Lemma od_touched_sublist k d d' : od_touched k d d' → od_keys d' `sublist_of` od_keys d.
Proof.
  intros [->|[[Hin [v ->]]| ->]]; [done| |apply od_keys_del_sublist].
  by rewrite od_keys_set_in.
Qed.

Lemma od_get_del_Some d k k' v : od_get (od_del d k) k' = Some v → od_get d k' = Some v.
Proof.
  destruct (decide (k = k')) as [->|Hne]; [by rewrite od_get_del_eq|].
  by rewrite od_get_del_ne.
Qed.
End od_sublist_facts.

Section merge_never.
Context `{Backend} `{Utils}.
Implicit Types (cur t : Tensor) (plan : SendInfo) (net : Net) (sd : StateDict).

Lemma own_fragment_dtype cur b e S E frag :
  own_fragment cur b e S E = Some frag → t_dtype frag = t_dtype cur.
Proof.
  unfold own_fragment. case_bool_decide; [by intros [= <-]|].
  apply tslice_dtype.
Qed.

(** The fragments the owner collects have the dtype of its own entry, and
    collecting sends nothing. *)
Lemma collect_fragments_dtype recv_rank cur S E plan net frags net' :
  collect_fragments recv_rank cur S E plan net = Some (frags, net') →
  Forall (λ frag, t_dtype frag = t_dtype cur) frags ∧ outbox net' = outbox net.
Proof.
  revert net frags. induction plan as [|[[r b] e] plan IH]; intros net frags Hrun;
    simpl in Hrun.
  { injection Hrun as <- <-. by split. }
  case_bool_decide as Hr.
  - destruct (own_fragment cur b e S E) as [frag|] eqn:Hfrag; simpl in Hrun; [|done].
    destruct (collect_fragments recv_rank cur S E plan net) as [[tl net2]|] eqn:Htl;
      simpl in Hrun; [|done].
    injection Hrun as <- <-. destruct (IH _ _ Htl) as [IH1 IH2].
    split; [|done]. constructor; [|done]. by eapply own_fragment_dtype.
  - unfold empty, zeros in Hrun. case_decide as Hneg; [done|]. simpl in Hrun.
    unfold recv in Hrun. simpl in Hrun.
    destruct (inbox net !! r) as [[|m ms]|] eqn:Hin; [done| |done].
    case_decide as Hm; [|done]. simpl in Hrun.
    match type of Hrun with
    | context [collect_fragments _ _ _ _ _ ?n] =>
        destruct (collect_fragments recv_rank cur S E plan n) as [[tl net2]|] eqn:Htl
    end; simpl in Hrun; [|done].
    injection Hrun as <- <-. destruct (IH _ _ Htl) as [IH1 IH2].
    split; [|done]. by constructor.
Qed.

Section entry.
Variables (global_rank : Z) (partial_tensor_list : list string)
          (param_shape_info : gmap string ShapeInfo)
          (send_table : gmap string SendInfo) (recv_table : gmap string Z)
          (is_master_weights : bool).

Abbreviation kept :=
  (merge_kept global_rank partial_tensor_list recv_table).

Lemma merge_kept_refl st : kept st st.
Proof.
  split; [done|]. split; [eauto|]. exists []. by rewrite app_nil_r.
Qed.

Lemma merge_kept_trans st0 st1 st2 :
  kept st0 st1 → kept st1 st2 → kept st0 st2.
Proof.
  intros (Hk1 & Hd1 & sent1 & Ho1 & Hs1) (Hk2 & Hd2 & sent2 & Ho2 & Hs2).
  split; [by etrans|]. split.
  - intros k t (c1 & Hc1 & ?)%Hd2. apply Hd1 in Hc1 as (c0 & ? & ?).
    exists c0. split; [done|congruence].
  - exists (sent1 ++ sent2). rewrite Ho2, Ho1, app_assoc.
    split; [done|]. by apply Forall_app.
Qed.

Lemma merge_entry_kept key st st' :
  merge_entry global_rank partial_tensor_list param_shape_info send_table
    recv_table is_master_weights key st = Some st' →
  kept st st'.
Proof.
  destruct st as [sd net], st' as [sd' net']. intros Hrun.
  assert (od_touched key sd sd') as Htouched by (by eapply merge_entry_touched).
  split; [by eapply od_touched_sublist|]. simpl.
  unfold merge_entry in Hrun.
  destruct (od_get sd key) as [cur|] eqn:Hcur; simpl in Hrun; [|done].
  assert (∀ t', t_dtype t' = t_dtype cur →
            ∀ k t, od_get (od_set sd key t') k = Some t →
              ∃ c, od_get sd k = Some c ∧ t_dtype t = t_dtype c) as Hset.
  { intros t' Ht' k t. destruct (decide (key = k)) as [<-|Hne].
    - rewrite od_get_set_eq. intros [= <-]. eauto.
    - rewrite od_get_set_ne by done. eauto. }
  assert (∃ sent, outbox net = outbox net ++ sent ∧
            Forall (to_receiver global_rank partial_tensor_list recv_table) sent) as Hquiet.
  { exists []. by rewrite app_nil_r. }
  case_bool_decide; [injection Hrun as <- <-; split; [eauto|done]|].
  destruct (param_shape_info !! _) as [[[[shape n] i] p]|]; simpl in Hrun; [|done].
  case_bool_decide as Hpart.
  { destruct (reshape cur shape) as [t'|] eqn:Ht'; simpl in Hrun; [|done].
    injection Hrun as <- <-. split; [|done].
    apply Hset. by apply reshape_Some in Ht' as (_ & ? & _). }
  destruct (recv_table !! _) as [recv_rank|] eqn:Hrecv; simpl in Hrun; [|done].
  destruct (send_table !! _) as [plan|]; simpl in Hrun; [|done].
  case_bool_decide as Hown.
  - destruct (collect_fragments _ _ _ _ _ _) as [[frags net1]|] eqn:Hfr;
      simpl in Hrun; [|done].
    destruct (concat frags) as [merged|] eqn:Hcat; simpl in Hrun; [|done].
    destruct (reshape merged shape) as [t'|] eqn:Ht'; simpl in Hrun; [|done].
    injection Hrun as <- <-.
    apply collect_fragments_dtype in Hfr as [Hdt Hout].
    split.
    + apply Hset. apply reshape_Some in Ht' as (_ & -> & _).
      destruct frags as [|f frags]; [done|].
      apply concat_dtype in Hcat as ->. by apply Forall_cons in Hdt as [-> _].
    + rewrite Hout. done.
  - apply send_fragments_Some in Hrun
      as [(_ & -> & ->)|(_ & -> & b & e & c & frag & _ & _ & _ & Hsent)].
    + split; [eauto|done].
    + apply send_inv in Hsent as [_ ->].
      split; [intros k t; eauto using od_get_del_Some|].
      exists [(recv_rank, t_data frag)]. split; [done|].
      apply Forall_singleton. exists (static_name_of is_master_weights key).
      split; [exact Hpart|by split].
Qed.

Lemma drop_scalar_entry_kept key sd sd' net :
  drop_scalar_entry global_rank partial_tensor_list send_table recv_table
    is_master_weights key sd = Some sd' →
  kept (sd, net) (sd', net).
Proof.
  intros Hrun.
  assert (od_touched key sd sd') as Htouched by (by eapply drop_scalar_entry_touched).
  split; [by eapply od_touched_sublist|]. simpl. split.
  - unfold drop_scalar_entry in Hrun.
    destruct (od_get sd key) as [cur|] eqn:Hcur; simpl in Hrun; [|done].
    repeat case_bool_decide; try (injection Hrun as <-; by eauto).
    destruct (recv_table !! _) as [recv_rank|]; simpl in Hrun; [|done].
    destruct (send_table !! _) as [plan|]; simpl in Hrun; [|done].
    case_bool_decide; [|injection Hrun as <-; by eauto].
    unfold od_pop in Hrun. rewrite Hcur in Hrun. injection Hrun as <-.
    intros k t; eauto using od_get_del_Some.
  - exists []. by rewrite app_nil_r.
Qed.
End entry.

(** X6. What [merge_splited_param] never does.  It adds no key and does not
    reorder the keys: the keys of the result are a sublist of the keys it
    started from.  It changes no dtype: every entry of the result has the
    dtype of the entry that was under its key.  And it only sends to
    receiving ranks: the messages it emits are appended to those emitted
    before, and each goes to the [recv_rank] of a partial parameter, which is
    a rank other than the sender. *)
Theorem merge_never_adds_or_retypes
    (global_rank : Z) (partial_tensor_list : list string)
    (param_shape_info : gmap string ShapeInfo) (send_table : gmap string SendInfo)
    (recv_table : gmap string Z) (is_master_weights : bool)
    (ckpt_quant_stage : string) (sd : StateDict) (net : Net)
    (sd' : StateDict) (net' : Net) :
  merge_splited_param global_rank partial_tensor_list param_shape_info send_table
    recv_table is_master_weights ckpt_quant_stage sd net = Some (sd', net') →
  od_keys sd' `sublist_of` od_keys sd ∧
  (∀ key t, od_get sd' key = Some t →
     ∃ cur, od_get sd key = Some cur ∧ t_dtype t = t_dtype cur) ∧
  ∃ sent, outbox net' = outbox net ++ sent ∧
    Forall (λ m, ∃ name, name ∈ partial_tensor_list ∧
                   recv_table !! name = Some m.1 ∧ m.1 ≠ global_rank) sent.
Proof.
  unfold merge_splited_param. intros Hrun.
  destruct (for_each _ (od_keys sd) (sd, net)) as [[sd1 net1]|] eqn:Hloop1;
    simpl in Hrun; [|done].
  assert (merge_kept global_rank partial_tensor_list recv_table (sd, net) (sd1, net1))
    as Hk1.
  { refine (for_each_invariant
              (merge_kept global_rank partial_tensor_list recv_table (sd, net))
              _ _ _ _ _ _ Hloop1); [|apply merge_kept_refl].
    intros key st st' _ Hst Hb. eapply merge_kept_trans; [done|].
    by eapply merge_entry_kept. }
  case_bool_decide.
  - destruct (for_each _ (od_keys sd1) sd1) as [sd2|] eqn:Hloop2;
      simpl in Hrun; [|done].
    injection Hrun as <- <-.
    refine (for_each_invariant
              (λ s, merge_kept global_rank partial_tensor_list recv_table (sd, net)
                      (s, net1))
              _ _ _ _ _ _ Hloop2); [|done].
    intros key s s' _ Hs Hb. eapply merge_kept_trans; [done|].
    by eapply drop_scalar_entry_kept.
  - by injection Hrun as <- <-.
Qed.
End merge_never.

Section merge_never_example.
#[local] Existing Instance Examples.Z_backend.
#[local] Existing Instance Examples.slash_utils.
Import Examples.

Lemma merge_never_adds_or_retypes_witness :
  ∃ sd' net',
    merge_splited_param 1 ["w"] w_shape_info w_send_table w_recv_table false "O1"
      sd_rank1 empty_net = Some (sd', net') ∧
    od_keys sd' `sublist_of` od_keys sd_rank1.
Proof.
  destruct (merge_splited_param 1 ["w"] w_shape_info w_send_table w_recv_table false
              "O1" sd_rank1 empty_net) as [[sd' net']|] eqn:Hrun.
  - exists sd', net'. split; [reflexivity|].
    exact (proj1 (merge_never_adds_or_retypes _ _ _ _ _ _ _ _ _ _ _ Hrun)).
  - exfalso. vm_compute in Hrun. discriminate Hrun.
Defined.
End merge_never_example.


(** ** A merge without partial parameters *)

Section merge_quiet.
Context `{Backend} `{Utils}.
Implicit Types (cur t : Tensor) (plan : SendInfo) (net : Net) (sd : StateDict).

(** Without a partial parameter among its keys, the first loop of the merge
    neither communicates nor removes a key. *)
Lemma merge_loop_quiet
    (global_rank : Z) (partial_tensor_list : list string)
    (param_shape_info : gmap string ShapeInfo) (send_table : gmap string SendInfo)
    (recv_table : gmap string Z) (is_master_weights : bool) sd net sd' net' :
  (∀ key, key ∈ od_keys sd →
     static_name_of is_master_weights key ∉ partial_tensor_list) →
  for_each (merge_entry global_rank partial_tensor_list param_shape_info send_table
              recv_table is_master_weights) (od_keys sd) (sd, net)
    = Some (sd', net') →
  net' = net ∧ od_keys sd' = od_keys sd.
Proof.
  intros Hnone Hloop.
  refine (for_each_invariant (λ st, st.2 = net ∧ od_keys st.1 = od_keys sd)
            _ _ _ (sd', net') _ _ Hloop); [|done].
  intros key [s n] [s' n'] Hkey [Hn Hk] Hb. simpl in *. subst n.
  unfold merge_entry in Hb.
  destruct (od_get s key) as [cur|] eqn:Hcur; simpl in Hb; [|done].
  case_bool_decide; [by injection Hb as <- <-|].
  destruct (param_shape_info !! _) as [[[[shape n] i] p]|]; simpl in Hb; [|done].
  rewrite bool_decide_eq_true_2 in Hb by auto.
  destruct (reshape cur shape) as [t|]; simpl in Hb; [|done].
  injection Hb as <- <-. split; [done|]. rewrite <- Hk.
  apply od_keys_set_in, od_get_is_Some. eauto.
Qed.

(** And the second loop removes nothing. *)
Lemma drop_loop_quiet
    (global_rank : Z) (partial_tensor_list : list string)
    (send_table : gmap string SendInfo) (recv_table : gmap string Z)
    (is_master_weights : bool) sd sd' :
  (∀ key, key ∈ od_keys sd →
     static_name_of is_master_weights key ∉ partial_tensor_list) →
  for_each (drop_scalar_entry global_rank partial_tensor_list send_table recv_table
              is_master_weights) (od_keys sd) sd = Some sd' →
  sd' = sd.
Proof.
  intros Hnone Hloop.
  refine (for_each_invariant (λ s, s = sd) _ _ _ _ _ _ Hloop); [|done].
  intros key s s' Hkey -> Hb. unfold drop_scalar_entry in Hb.
  destruct (od_get sd key) as [cur|]; simpl in Hb; [|done].
  case_bool_decide; [|by injection Hb as <-].
  rewrite bool_decide_eq_false_2 in Hb; [by injection Hb as <-|].
  by apply Hnone.
Qed.

(** X7. When no key of the state dict belongs to a partial parameter,
    [merge_splited_param] communicates nothing and removes nothing: the
    communication state it returns is the one it started from, and the keys
    of the result are the keys of the input, in the same order, whatever
    [ckpt_quant_stage], the rank and the tables are. *)
Theorem merge_without_partial_is_local
    (global_rank : Z) (partial_tensor_list : list string)
    (param_shape_info : gmap string ShapeInfo) (send_table : gmap string SendInfo)
    (recv_table : gmap string Z) (is_master_weights : bool)
    (ckpt_quant_stage : string) (sd : StateDict) (net : Net)
    (sd' : StateDict) (net' : Net) :
  (∀ key, key ∈ od_keys sd →
     static_name_of is_master_weights key ∉ partial_tensor_list) →
  merge_splited_param global_rank partial_tensor_list param_shape_info send_table
    recv_table is_master_weights ckpt_quant_stage sd net = Some (sd', net') →
  net' = net ∧ od_keys sd' = od_keys sd.
Proof.
  intros Hnone. unfold merge_splited_param. intros Hrun.
  destruct (for_each _ (od_keys sd) (sd, net)) as [[sd1 net1]|] eqn:Hloop1;
    simpl in Hrun; [|done].
  apply merge_loop_quiet in Hloop1 as [-> Hkeys1]; [|done].
  case_bool_decide.
  - destruct (for_each _ (od_keys sd1) sd1) as [sd2|] eqn:Hloop2;
      simpl in Hrun; [|done].
    injection Hrun as <- <-. split; [done|].
    apply drop_loop_quiet in Hloop2 as ->; [done|].
    intros key Hkey. apply Hnone. by rewrite <- Hkeys1.
  - by injection Hrun as <- <-.
Qed.

(** The first loop fails at an entry of other than one element whose static
    name has no shape in the catalog (the KeyError of line 70). *)
Lemma merge_missing_shape
    (global_rank : Z) (partial_tensor_list : list string)
    (param_shape_info : gmap string ShapeInfo) (send_table : gmap string SendInfo)
    (recv_table : gmap string Z) (is_master_weights : bool)
    (ckpt_quant_stage : string) sd net key cur :
  NoDup (od_keys sd) → od_get sd key = Some cur → numel cur ≠ 1 →
  param_shape_info !! static_name_of is_master_weights key = None →
  merge_splited_param global_rank partial_tensor_list param_shape_info send_table
    recv_table is_master_weights ckpt_quant_stage sd net = None.
Proof.
  intros Hnd Hcur Hbig Hshape. unfold merge_splited_param.
  destruct (for_each _ (od_keys sd) (sd, net)) as [[sd1 net1]|] eqn:Hloop1; [|done].
  exfalso.
  destruct (for_each_focus (λ st k, od_get st.1 k)
              (merge_entry global_rank partial_tensor_list param_shape_info
                 send_table recv_table is_master_weights) (od_keys sd))
    with (s := (sd, net)) (s' := (sd1, net1)) (k := key) as [_ Hin]; [|done..|].
  { intros k [s n] [s' n'] k' Hb Hne. simpl.
    eapply od_touched_other; [|done]. by eapply merge_entry_touched. }
  destruct Hin as ([s1 n1] & [s2 n2] & Hlook & Hb & _).
  { apply od_get_is_Some. eauto. }
  simpl in Hlook. unfold merge_entry in Hb. rewrite Hlook, Hcur in Hb. simpl in Hb.
  rewrite bool_decide_eq_false_2 in Hb by done. by rewrite Hshape in Hb.
Qed.
End merge_quiet.

Section merge_quiet_example.
#[local] Existing Instance Examples.Z_backend.
#[local] Existing Instance Examples.slash_utils.
Import Examples.

Lemma merge_without_partial_is_local_witness :
  ∃ sd' net',
    merge_splited_param 0 [] w_shape_info ∅ ∅ false "O1" sd_whole_only empty_net
      = Some (sd', net') ∧
    net' = empty_net ∧ od_keys sd' = od_keys sd_whole_only.
Proof.
  destruct (merge_splited_param 0 [] w_shape_info ∅ ∅ false "O1" sd_whole_only
              empty_net) as [[sd' net']|] eqn:Hrun.
  - exists sd', net'. split; [reflexivity|].
    apply (merge_without_partial_is_local _ _ _ _ _ _ _ _ _ _ _
             (λ key _, not_elem_of_nil _) Hrun).
  - exfalso. vm_compute in Hrun. discriminate Hrun.
Defined.
End merge_quiet_example.


(** ** Optimizer state outside the buffers *)

Section gather_unknown.
Context `{Backend} `{Utils}.
Implicit Types (cur t : Tensor) (sd : StateDict).

Lemma catalog_unknown global_rank (comm_buffer_list : list CommBuffer) name :
  name ∉ buffer_keys comm_buffer_list → name ≠ "global_rank" →
  local_slice_info global_rank comm_buffer_list !! name = None ∧
  (collect_slice_info comm_buffer_list).2 !! name = None.
Proof.
  intros Hout Hne.
  assert (od_get (reverse (mjoin comm_buffer_list)) name = None) as Hget.
  { apply eq_None_not_Some. by rewrite od_get_reverse_is_Some. }
  rewrite local_slice_info_lookup by done.
  destruct (collect_slice_info_lookup comm_buffer_list name) as [_ ->].
  by rewrite Hget.
Qed.

(** The classification loop leaves alone an entry whose static name is not
    in the slice catalog. *)
Lemma classify_loop_unknown (param_slice_info : gmap string SliceEntry)
    (param_shape_info : gmap string ShapeInfo) ks sd sd' l l' key cur :
  param_slice_info !! (generate_base_static_name key).1 = None →
  NoDup (od_keys sd) → od_get sd key = Some cur →
  for_each (classify_entry param_slice_info param_shape_info) ks (sd, l)
    = Some (sd', l') →
  NoDup (od_keys sd') ∧ od_get sd' key = Some cur.
Proof.
  intros Hunknown Hnd Hcur Hrun.
  refine (for_each_invariant
            (λ st, NoDup (od_keys st.1) ∧ od_get st.1 key = Some cur)
            _ _ _ (sd', l') _ _ Hrun); [|done].
  intros k [s pl] [s' pl'] _ [Hs Hk] Hb. simpl in *.
  unfold classify_entry in Hb.
  destruct (param_slice_info !! (generate_base_static_name k).1) as [entry|] eqn:Hentry;
    [|injection Hb as <- <-; by split].
  destruct (od_get s k) as [c|]; simpl in Hb; [|done].
  case_bool_decide; [injection Hb as <- <-; by split|].
  destruct (as_range entry) as [[b e]|]; simpl in Hb; [|done].
  destruct (param_shape_info !! _) as [[[[shape n] i] p]|]; simpl in Hb; [|done].
  repeat case_bool_decide; try (injection Hb as <- <-; by split).
  destruct (reshape c shape) as [t|]; simpl in Hb; [|done].
  injection Hb as <- <-. split; [by apply od_keys_set_NoDup|].
  rewrite od_get_set_ne; [done|]. intros ->. congruence.
Qed.

(** X8. [gather_splited_param_for_optimizer] fails on optimizer state that
    belongs to no parameter of the communication buffers.  The
    classification loop skips an entry whose static name is not in the slice
    catalog, but [merge_splited_param] has no such guard: for an entry of
    other than one element it looks the static name up in [param_shape_info]
    (line 70), which raises KeyError. *)
Theorem gather_fails_outside_buffers (group : list Peer) (global_rank : Z)
    (optimizer : Optimizer) (ckpt_quant_stage : string) (net : Net)
    (key : string) (cur : Tensor) :
  NoDup (od_keys (entries (state_dict optimizer))) →
  od_get (entries (state_dict optimizer)) key = Some cur →
  numel cur ≠ 1 →
  (generate_base_static_name key).1 ∉ buffer_keys (_comm_buffer_list optimizer) →
  (generate_base_static_name key).1 ≠ "global_rank" →
  gather_splited_param_for_optimizer group global_rank optimizer ckpt_quant_stage net
    = None.
Proof.
  intros Hnd Hcur Hbig Hout Hne. unfold gather_splited_param_for_optimizer.
  destruct (catalog_unknown global_rank _ _ Hout Hne) as [Hslice Hshape].
  destruct (for_each (classify_entry _ _) _ _) as [[sd1 pl]|] eqn:Hclass; [|done].
  cbn -[merge_splited_param].
  destruct (for_each (resolve_owner _) _ _) as [[send_table recv_table]|]; [|done].
  cbn -[merge_splited_param].
  destruct (classify_loop_unknown _ _ _ _ _ _ _ _ _ Hslice Hnd Hcur Hclass)
    as [Hnd1 Hcur1].
  by rewrite (merge_missing_shape global_rank pl _ send_table recv_table false
                ckpt_quant_stage sd1 net key cur Hnd1 Hcur1 Hbig Hshape).
Qed.
End gather_unknown.

Section gather_unknown_example.
#[local] Existing Instance Examples.Z_backend.
#[local] Existing Instance Examples.slash_utils.
Import Examples.

Lemma gather_fails_outside_buffers_witness :
  gather_splited_param_for_optimizer w_group 0
    (mkOptimizer [[("w", w_view 0 6)]]
       (mkOptimizerState [("b/moment1_0", vec float32 [1; 2])] None false))
    "O0" empty_net
  = None.
Proof.
  apply (gather_fails_outside_buffers _ _ _ _ _ "b/moment1_0" (vec float32 [1; 2])).
  - apply (bool_decide_unpack _). vm_compute. exact I.
  - vm_compute. reflexivity.
  - vm_compute. discriminate.
  - apply (bool_decide_unpack _). vm_compute. exact I.
  - vm_compute. discriminate.
Defined.
End gather_unknown_example.


(** ** Split, then merge *)

Section split_merge_facts.
Context `{Backend}.
Implicit Types (plan : SendInfo) (data buf : list elem).




Section one_tuple.
Variables (i n p : Z) (zero : elem) (data : list elem) (x : Z * Z * Z).
Hypothesis (Hdata : Z.of_nat (length data) = n).
Hypothesis (Hnp : n <= p).
Hypothesis (Hlo : i <= x.1.2) (Hlt : x.1.2 < x.2) (Hhi : x.2 <= i + p).



End one_tuple.



End split_merge_facts.


Section split_merge_example.
#[local] Existing Instance Examples.Z_backend.
#[local] Existing Instance Examples.slash_utils.
Import Examples.

End split_merge_example.


(** ** Sends and receives match *)

Section message_matching.
Context `{Backend} `{Utils}.
Implicit Types (cur t : Tensor) (plan : SendInfo) (net : Net) (sd : StateDict).

(** The owner's loop takes one message from every other rank of the plan
    and leaves the messages of all other ranks alone. *)
Lemma collect_fragments_inbox recv_rank cur S E plan net frags net' :
  NoDup (plan_ranks plan) →
  collect_fragments recv_rank cur S E plan net = Some (frags, net') →
  ∀ r, inbox net' !! r
       = if decide (r ∈ plan_ranks plan ∧ r ≠ recv_rank)
         then tail <$> inbox net !! r else inbox net !! r.
Proof.
  revert net frags. induction plan as [|[[r0 b] e] plan IH]; intros net frags Hnd Hrun r;
    simpl in Hrun.
  { injection Hrun as <- <-. rewrite decide_False; [done|].
    intros [Hin _]. by apply elem_of_nil in Hin. }
  apply NoDup_cons in Hnd as [Hr0 Hnd]. fold (plan_ranks plan) in Hr0, Hnd.
  change (plan_ranks ((r0, b, e) :: plan)) with (r0 :: plan_ranks plan).
  case_bool_decide as Hown.
  - destruct (own_fragment cur b e S E) as [frag|]; simpl in Hrun; [|done].
    destruct (collect_fragments recv_rank cur S E plan net) as [[tl net2]|] eqn:Htl;
      simpl in Hrun; [|done].
    injection Hrun as <- <-. rewrite (IH _ _ Hnd Htl r). subst r0.
    destruct (decide (r ∈ plan_ranks plan ∧ r ≠ recv_rank)) as [[Hin Hne]|Hno].
    + rewrite decide_True; [done|]. split; [by right|done].
    + rewrite decide_False; [done|].
      intros [[->|Hin]%elem_of_cons Hne]; [done|]. by apply Hno.
  - unfold empty, zeros in Hrun. case_decide as Hneg; [done|]. simpl in Hrun.
    unfold recv in Hrun. simpl in Hrun.
    destruct (inbox net !! r0) as [[|m ms]|] eqn:Hin0; [done| |done].
    case_decide as Hm; [|done]. simpl in Hrun.
    match type of Hrun with
    | context [collect_fragments _ _ _ _ _ ?n] =>
        destruct (collect_fragments recv_rank cur S E plan n) as [[tl net2]|] eqn:Htl
    end; simpl in Hrun; [|done].
    injection Hrun as <- <-. rewrite (IH _ _ Hnd Htl r). simpl.
    destruct (decide (r = r0)) as [->|Hne0].
    + rewrite decide_False by (by intros [? _]). rewrite lookup_insert_eq.
      rewrite decide_True; [by rewrite Hin0|]. split; [by left|done].
    + rewrite lookup_insert_ne by done.
      destruct (decide (r ∈ plan_ranks plan ∧ r ≠ recv_rank)) as [[Hin Hne]|Hno].
      * rewrite decide_True; [done|]. split; [by right|done].
      * rewrite decide_False; [done|].
        intros [[->|Hin]%elem_of_cons Hne]; [done|]. by apply Hno.
Qed.

(** X10. The sends and the receives of a partial parameter match.  Take
    an entry of a partial parameter on which the loop body of
    [merge_splited_param] succeeds.  When the entry has exactly one element,
    the body exchanges nothing and leaves the state dict as it is, on every
    rank.  When it has another number of elements: on the receiving rank the
    body takes exactly one message from every other rank of the send plan,
    takes none from any other rank and emits nothing; on every other rank it
    receives nothing; a rank of the plan emits exactly one message, which is
    not empty and is addressed to the receiving rank, and a rank outside the
    plan emits nothing. *)
Theorem merge_sends_match_receives
    (global_rank : Z) (partial_tensor_list : list string)
    (param_shape_info : gmap string ShapeInfo) (send_table : gmap string SendInfo)
    (recv_table : gmap string Z) (is_master_weights : bool)
    (key : string) (sd sd' : StateDict) (net net' : Net) (cur : Tensor)
    (recv_rank : Z) (plan : SendInfo) :
  let static_name := static_name_of is_master_weights key in
  od_get sd key = Some cur →
  static_name ∈ partial_tensor_list →
  recv_table !! static_name = Some recv_rank →
  send_table !! static_name = Some plan →
  NoDup (plan_ranks plan) →
  merge_entry global_rank partial_tensor_list param_shape_info send_table
    recv_table is_master_weights key (sd, net) = Some (sd', net') →
  (numel cur = 1 → sd' = sd ∧ net' = net) ∧
  (numel cur ≠ 1 → global_rank = recv_rank →
     outbox net' = outbox net ∧
     ∀ r, inbox net' !! r
          = if decide (r ∈ plan_ranks plan ∧ r ≠ recv_rank)
            then tail <$> inbox net !! r else inbox net !! r) ∧
  (numel cur ≠ 1 → global_rank ≠ recv_rank →
     inbox net' = inbox net ∧
     (global_rank ∈ plan_ranks plan →
        ∃ data, data ≠ [] ∧ outbox net' = outbox net ++ [(recv_rank, data)]) ∧
     (global_rank ∉ plan_ranks plan → outbox net' = outbox net)).
Proof.
  intros static_name Hcur Hpart Hrecv Hsend Hnd Hrun. subst static_name.
  unfold merge_entry in Hrun. rewrite Hcur in Hrun. simpl in Hrun.
  case_bool_decide as Hone.
  { injection Hrun as <- <-. split; [done|]. split; intros; done. }
  split; [done|].
  destruct (param_shape_info !! _) as [[[[shape n] i] p]|]; simpl in Hrun; [|done].
  rewrite bool_decide_eq_false_2 in Hrun by (by intros ?).
  rewrite Hrecv, Hsend in Hrun. simpl in Hrun.
  case_bool_decide as Hown.
  - destruct (collect_fragments _ _ _ _ _ _) as [[frags net1]|] eqn:Hfr;
      simpl in Hrun; [|done].
    destruct (concat frags) as [merged|]; simpl in Hrun; [|done].
    destruct (reshape merged shape) as [t|]; simpl in Hrun; [|done].
    injection Hrun as <- <-. split; [intros _ _|done]. split.
    + by apply collect_fragments_dtype in Hfr as [_ ?].
    + by eapply collect_fragments_inbox.
  - split; [done|intros _ _].
    apply send_fragments_Some in Hrun
      as [(Hout & _ & ->)|(Hin & _ & b & e & c & frag & _ & _ & _ & Hsent)].
    + split; [done|]. split; [done|done].
    + apply send_inv in Hsent as [Hdata ->].
      split; [done|]. split; [|done]. intros _. by exists (t_data frag).
Qed.
End message_matching.

Section message_matching_example.
#[local] Existing Instance Examples.Z_backend.
#[local] Existing Instance Examples.slash_utils.
Import Examples.

Lemma merge_sends_match_receives_witness :
  ∃ sd' net',
    merge_entry 0 ["w"] w_shape_info w_send_table w_recv_table false "w/moment1_0"
      (sd_rank0, inbox_rank0) = Some (sd', net') ∧
    outbox net' = [] ∧ inbox net' !! 1 = Some [].
Proof.
  destruct (merge_entry 0 ["w"] w_shape_info w_send_table w_recv_table false
              "w/moment1_0" (sd_rank0, inbox_rank0)) as [[sd' net']|] eqn:Hrun.
  - exists sd', net'. split; [reflexivity|].
    destruct (merge_sends_match_receives 0 ["w"] w_shape_info w_send_table
                w_recv_table false "w/moment1_0" sd_rank0 sd' inbox_rank0 net'
                (vec float32 [1; 2; 3; 4; 5; 6]) 0 [(0, 0, 6); (1, 6, 12)])
      as (_ & Howner & _);
      try solve [ vm_compute; reflexivity | vm_compute; discriminate
                | decide_by_compute | exact Hrun ].
    destruct Howner as [Hout Hin]; [vm_compute; discriminate|reflexivity|].
    split; [exact Hout|].
    rewrite (Hin 1). reflexivity.
  - exfalso. vm_compute in Hrun. discriminate Hrun.
Defined.
End message_matching_example.


(** ** The tables of the ownership resolver *)

Section resolver_tables.
Implicit Types (group : list Peer) (names : list string).

Lemma holders_inv key group r b e :
  (r, b, e) ∈ holders key group →
  b < e ∧ ∃ p, p ∈ group ∧ peer_rank p = r ∧ peer_slice key p = Some (b, e).
Proof.
  unfold holders. intros (p & Hp & Hx)%list_elem_of_omap.
  destruct (peer_slice key p) as [[b' e']|] eqn:Hslice; simpl in Hx; [|done].
  case_bool_decide; [|done]. injection Hx as <- <- <-.
  split; [lia|]. by exists p.
Qed.

(** One step of the loop writes both tables at its key and nowhere else. *)
Lemma resolve_owner_step group key tables tables' :
  resolve_owner (all_gather_object group) key tables = Some tables' →
  ∃ rank b e rest,
    holders key group = (rank, b, e) :: rest ∧
    tables' = (<[key := holders key group]> tables.1, <[key := rank]> tables.2).
Proof.
  unfold resolve_owner. intros Hrun.
  destruct (sharding_ranklist_of _ _) as [plan|] eqn:Hplan; simpl in Hrun; [|done].
  apply sharding_ranklist_of_holders in Hplan as ->.
  destruct (holders key group) as [|[[rank b] e] rest]; simpl in Hrun; [done|].
  injection Hrun as <-. by exists rank, b, e, rest.
Qed.

Lemma resolve_loop_lookup group names tables tables' name :
  for_each (resolve_owner (all_gather_object group)) names tables = Some tables' →
  if decide (name ∈ names)
  then ∃ rank b e rest,
         holders name group = (rank, b, e) :: rest ∧
         tables'.1 !! name = Some (holders name group) ∧
         tables'.2 !! name = Some rank
  else tables'.1 !! name = tables.1 !! name ∧ tables'.2 !! name = tables.2 !! name.
Proof.
  revert tables. induction names as [|key names IH]; intros tables Hrun; simpl in Hrun.
  { injection Hrun as <-. rewrite decide_False; [done|]. apply not_elem_of_nil. }
  destruct (resolve_owner _ key tables) as [t1|] eqn:Hstep; [|done].
  apply resolve_owner_step in Hstep as (rank & b & e & rest & Hh & ->).
  specialize (IH _ Hrun). destruct (decide (name ∈ names)) as [Hin|Hout].
  - rewrite decide_True by (by right). done.
  - simpl in IH. destruct IH as [IH1 IH2]. destruct (decide (name = key)) as [->|Hne].
    + rewrite decide_True by (by left).
      exists rank, b, e, rest. by rewrite IH1, IH2, !lookup_insert_eq.
    + rewrite decide_False by (by intros [?|?]%elem_of_cons).
      by rewrite IH1, IH2, !lookup_insert_ne.
Qed.

(** X11. The tables the ownership loop builds.  After the loop over
    [partial_tensor_list], [send_table] and [recv_table] have exactly the
    names of the list as keys, however often a name occurs in it.  The send
    plan of a name is not empty, its tuples are the non-empty slices of
    members of the group, and the receiving rank is the rank of its first
    tuple: the receiver of a partial parameter always holds a fragment of
    it. *)
Theorem resolver_tables_wellformed (group : list Peer)
    (partial_tensor_list : list string)
    (send_table : gmap string SendInfo) (recv_table : gmap string Z) :
  for_each (resolve_owner (all_gather_object group)) partial_tensor_list (∅, ∅)
    = Some (send_table, recv_table) →
  ∀ name,
    (name ∉ partial_tensor_list →
       send_table !! name = None ∧ recv_table !! name = None) ∧
    (name ∈ partial_tensor_list →
       ∃ rank b e rest,
         send_table !! name = Some ((rank, b, e) :: rest) ∧
         recv_table !! name = Some rank ∧
         rank ∈ plan_ranks ((rank, b, e) :: rest) ∧
         ∀ r' b' e', (r', b', e') ∈ (rank, b, e) :: rest →
           b' < e' ∧
           ∃ p, p ∈ group ∧ peer_rank p = r' ∧ peer_slice name p = Some (b', e')).
Proof.
  intros Hrun name.
  pose proof (resolve_loop_lookup _ _ _ _ name Hrun) as Hlook. split.
  - intros Hout. rewrite decide_False in Hlook by done. simpl in Hlook.
    by rewrite !lookup_empty in Hlook.
  - intros Hin. rewrite decide_True in Hlook by done. simpl in Hlook.
    destruct Hlook as (rank & b & e & rest & Hh & Hs & Hr).
    exists rank, b, e, rest. rewrite Hs, Hh. split; [done|]. split; [done|].
    split; [by left|]. intros r' b' e' Hx. apply holders_inv. by rewrite Hh.
Qed.
End resolver_tables.

Section resolver_tables_example.
Import Examples.

Lemma resolver_tables_wellformed_witness :
  ∃ send_table recv_table,
    for_each (resolve_owner (all_gather_object w_group)) ["w"; "w"] (∅, ∅)
      = Some (send_table, recv_table) ∧
    send_table !! "b" = None ∧ recv_table !! "b" = None.
Proof.
  destruct (for_each (resolve_owner (all_gather_object w_group)) ["w"; "w"] (∅, ∅))
    as [[send_table recv_table]|] eqn:Hrun.
  - exists send_table, recv_table. split; [reflexivity|].
    apply (resolver_tables_wellformed _ _ _ _ Hrun "b").
    decide_by_compute.
  - exfalso. vm_compute in Hrun. discriminate Hrun.
Defined.
End resolver_tables_example.


(** ** The gather, end to end *)

Section gather_facts.
Context `{Backend} `{Utils}.
Implicit Types (cur t : Tensor) (sd : StateDict) (net : Net).

Lemma merge_quiet_nil (global_rank : Z) (param_shape_info : gmap string ShapeInfo)
    (send_table : gmap string SendInfo) (recv_table : gmap string Z)
    (is_master_weights : bool) (ckpt_quant_stage : string) sd net sd' net' :
  merge_splited_param global_rank [] param_shape_info send_table recv_table
    is_master_weights ckpt_quant_stage sd net = Some (sd', net') →
  net' = net ∧ od_keys sd' = od_keys sd.
Proof.
  unfold merge_splited_param. intros Hrun.
  assert (∀ (s : StateDict) key,
            key ∈ od_keys s → static_name_of is_master_weights key ∉ [])
    as Hnone by (intros; apply not_elem_of_nil).
  destruct (for_each _ (od_keys sd) (sd, net)) as [[sd1 net1]|] eqn:Hloop1;
    simpl in Hrun; [|done].
  apply merge_loop_quiet in Hloop1 as [-> Hkeys1]; [|by apply Hnone].
  case_bool_decide.
  - destruct (for_each _ (od_keys sd1) sd1) as [sd2|] eqn:Hloop2;
      simpl in Hrun; [|done].
    injection Hrun as <- <-. split; [done|].
    apply drop_loop_quiet in Hloop2 as ->; [done|by apply Hnone].
  - by injection Hrun as <- <-.
Qed.

(** When no slice of the rank is a proper part of its parameter, the
    classification loop lists nothing and keeps the keys. *)
Lemma classify_loop_whole (param_slice_info : gmap string SliceEntry)
    (param_shape_info : gmap string ShapeInfo) sd sd' l' :
  (∀ key b e shape n i p, key ∈ od_keys sd →
     param_slice_info !! (generate_base_static_name key).1 = Some (SliceRange b e) →
     param_shape_info !! (generate_base_static_name key).1 = Some (shape, n, i, p) →
     e - b = n ∨ e <= b) →
  for_each (classify_entry param_slice_info param_shape_info) (od_keys sd) (sd, [])
    = Some (sd', l') →
  l' = [] ∧ od_keys sd' = od_keys sd.
Proof.
  intros Hwhole Hrun.
  refine (for_each_invariant (λ st, st.2 = [] ∧ od_keys st.1 = od_keys sd)
            _ _ _ (sd', l') _ _ Hrun); [|done].
  intros k [s pl] [s' pl'] Hk [Hpl Hkeys] Hb. simpl in *. subst pl.
  unfold classify_entry in Hb.
  destruct (param_slice_info !! (generate_base_static_name k).1) as [entry|] eqn:Hentry;
    [|by injection Hb as <- <-].
  destruct (od_get s k) as [c|] eqn:Hc; simpl in Hb; [|done].
  case_bool_decide; [by injection Hb as <- <-|].
  destruct entry as [b e|r]; simpl in Hb; [|done].
  destruct (param_shape_info !! _) as [[[[shape n] i] p]|] eqn:Hshape;
    simpl in Hb; [|done].
  case_bool_decide.
  - destruct (reshape c shape) as [t|]; simpl in Hb; [|done].
    injection Hb as <- <-. split; [done|]. rewrite <- Hkeys.
    apply od_keys_set_in, od_get_is_Some. eauto.
  - case_bool_decide; [by injection Hb as <- <-|].
    destruct (Hwhole k b e shape n i p Hk Hentry Hshape); lia.
Qed.

(** X12. On a rank that holds every parameter whole or not at all,
    [gather_splited_param_for_optimizer] is local.  When for every key of the
    optimizer state the slice of its parameter has [end - begin == numel] or
    [end <= begin], no parameter is listed as partial, and a successful run
    communicates nothing and returns the optimizer state and the master
    weights with the keys they had, in the same order. *)
Theorem gather_without_split_is_local (group : list Peer) (global_rank : Z)
    (optimizer : Optimizer) (ckpt_quant_stage : string) (net : Net)
    (optim_state_dict : StateDict) (returned_master_weights : option StateDict)
    (net' : Net) :
  let comm_buffer_list := _comm_buffer_list optimizer in
  (∀ key b e shape n i p, key ∈ od_keys (entries (state_dict optimizer)) →
     local_slice_info global_rank comm_buffer_list
       !! (generate_base_static_name key).1 = Some (SliceRange b e) →
     (collect_slice_info comm_buffer_list).2
       !! (generate_base_static_name key).1 = Some (shape, n, i, p) →
     e - b = n ∨ e <= b) →
  gather_splited_param_for_optimizer group global_rank optimizer ckpt_quant_stage net
    = Some (optim_state_dict, returned_master_weights, net') →
  net' = net ∧
  od_keys optim_state_dict = od_keys (entries (state_dict optimizer)) ∧
  match master_weights (state_dict optimizer) with
  | Some mw => ∃ mw', returned_master_weights = Some mw' ∧ od_keys mw' = od_keys mw
  | None => returned_master_weights = None
  end.
Proof.
  intros bufs Hwhole. unfold gather_splited_param_for_optimizer. fold bufs.
  intros Hrun.
  destruct (for_each (classify_entry _ _) _ _) as [[sd1 pl]|] eqn:Hclass; [|done].
  apply classify_loop_whole in Hclass as [-> Hkeys1]; [|done].
  cbn -[merge_splited_param] in Hrun.
  destruct (merge_splited_param _ _ _ _ _ false _ _ _) as [[sd2 net2]|] eqn:Hm1;
    [|done].
  apply merge_quiet_nil in Hm1 as [-> Hkeys2].
  cbn -[merge_splited_param] in Hrun.
  destruct (master_weights (state_dict optimizer)) as [mw|].
  - destruct (merge_splited_param _ _ _ _ _ true _ _ _) as [[mw' net3]|] eqn:Hm2;
      [|done].
    apply merge_quiet_nil in Hm2 as [-> Hkeys3].
    injection Hrun as <- <- <-. split; [done|]. split; [congruence|].
    by exists mw'.
  - injection Hrun as <- <- <-. split; [done|]. split; [congruence|done].
Qed.

(** X13. The merge of the master weights does not take the quantization
    stage of the gather: its second loop never runs.  Whatever
    [ckpt_quant_stage] is, a master weight of exactly one element is returned
    as it was, on every rank. *)
Theorem gather_keeps_scalar_master_weights (group : list Peer) (global_rank : Z)
    (optimizer : Optimizer) (ckpt_quant_stage : string) (net : Net)
    (optim_state_dict : StateDict) (returned_master_weights : option StateDict)
    (net' : Net) (mw : StateDict) :
  master_weights (state_dict optimizer) = Some mw → NoDup (od_keys mw) →
  gather_splited_param_for_optimizer group global_rank optimizer ckpt_quant_stage net
    = Some (optim_state_dict, returned_master_weights, net') →
  ∃ mw', returned_master_weights = Some mw' ∧
    ∀ key cur, od_get mw key = Some cur → numel cur = 1 →
      od_get mw' key = Some cur.
Proof.
  intros Hmw Hnd. unfold gather_splited_param_for_optimizer. rewrite Hmw.
  intros Hrun.
  destruct (for_each (classify_entry _ _) _ _) as [[sd1 pl]|]; [|done].
  cbn -[merge_splited_param] in Hrun.
  destruct (for_each (resolve_owner _) _ _) as [[send_table recv_table]|]; [|done].
  cbn -[merge_splited_param] in Hrun.
  destruct (merge_splited_param _ _ _ _ _ false _ _ _) as [[sd2 net2]|]; [|done].
  cbn -[merge_splited_param] in Hrun.
  destruct (merge_splited_param _ _ _ _ _ true _ _ _) as [[mw' net3]|] eqn:Hm2;
    [|done].
  injection Hrun as <- <- <-. exists mw'. split; [done|].
  intros key cur Hcur Hone.
  destruct (merge_splited_param_at _ _ _ _ _ _ _ _ _ _ _ _ _ Hnd Hcur Hm2)
    as (o & Hout & Hget).
  rewrite bool_decide_eq_false_2 in Hget by (by intros Hne; apply Hne).
  rewrite Hget. inversion Hout; subst; done.
Qed.
End gather_facts.

Section gather_facts_example.
#[local] Existing Instance Examples.Z_backend.
#[local] Existing Instance Examples.slash_utils.
Import Examples.

Lemma gather_without_split_is_local_witness :
  ∃ osd mw net',
    gather_splited_param_for_optimizer [mkPeer 0 [[("w", w_view 0 10)]]] 0
      optimizer_whole "O1" empty_net = Some (osd, mw, net') ∧
    net' = empty_net ∧ od_keys osd = od_keys sd_whole_only.
Proof.
  assert (∀ key b e shape n i p,
            key ∈ od_keys (entries (state_dict optimizer_whole)) →
            local_slice_info 0 (_comm_buffer_list optimizer_whole)
              !! (generate_base_static_name key).1 = Some (SliceRange b e) →
            (collect_slice_info (_comm_buffer_list optimizer_whole)).2
              !! (generate_base_static_name key).1 = Some (shape, n, i, p) →
            e - b = n ∨ e <= b) as Hwhole.
  { intros key b e shape n i p Hkey Hslice Hshape. left.
    repeat (apply elem_of_cons in Hkey as [->|Hkey]);
      [..|by apply elem_of_nil in Hkey];
      vm_compute in Hslice; vm_compute in Hshape;
      injection Hslice as <- <-; injection Hshape as _ <- _ _; reflexivity. }
  destruct (gather_splited_param_for_optimizer [mkPeer 0 [[("w", w_view 0 10)]]] 0
              optimizer_whole "O1" empty_net) as [[[osd mw] net']|] eqn:Hrun.
  - exists osd, mw, net'. split; [reflexivity|].
    destruct (gather_without_split_is_local _ _ _ _ _ _ _ _ Hwhole Hrun)
      as (Hnet & Hkeys & _).
    split; [exact Hnet|exact Hkeys].
  - exfalso. vm_compute in Hrun. discriminate Hrun.
Defined.

Lemma gather_keeps_scalar_master_weights_witness :
  ∃ osd mw net',
    gather_splited_param_for_optimizer w_group 1 optimizer_rank1_scalar_master "O1"
      empty_net = Some (osd, Some mw, net') ∧
    od_get osd "w/beta1_pow_acc_0" = None ∧
    od_get mw "s" = Some (vec float32 [3]).
Proof.
  destruct (gather_splited_param_for_optimizer w_group 1
              optimizer_rank1_scalar_master "O1" empty_net)
    as [[[osd mw] net']|] eqn:Hrun.
  - destruct (gather_keeps_scalar_master_weights w_group 1
                optimizer_rank1_scalar_master "O1" empty_net osd mw net'
                [("s", vec float32 [3])] eq_refl ltac:(decide_by_compute) Hrun)
      as (mw' & -> & Hkept).
    exists osd, mw', net'. split; [reflexivity|]. split.
    + vm_compute in Hrun. injection Hrun as <- _ _. vm_compute. reflexivity.
    + apply Hkept; vm_compute; reflexivity.
  - exfalso. vm_compute in Hrun. discriminate Hrun.
Defined.
End gather_facts_example.


(** ** The order of the fallback scan *)

Section fallback_order.
Context `{Backend} `{Utils}.
Implicit Types (sd fin : StateDict) (files : Directory) (key : string).

(** Files that do not hold a key leave its entry as it is. *)
Lemma pull_from_files_absent (unfound_keys : list string) files sd key :
  (∀ f, f ∈ files → od_get f.2 key = None) →
  od_get (foldl (λ sd f, pull_from_file unfound_keys sd f.2) sd files) key
  = od_get sd key.
Proof.
  revert sd. induction files as [|f files IH]; intros sd Hnone; [done|]. simpl.
  rewrite IH by (intros g Hg; apply Hnone; by right).
  rewrite pull_from_file_lookup, (Hnone f); [done|by left].
Qed.

(** X14. When several backup files hold a missing key, the fallback keeps
    the tensor of the one listed last: the scan visits the files in
    directory order and never stops at a hit, so a later file overwrites
    what an earlier one supplied. *)
Theorem fallback_last_file_wins (resume_from_checkpoint : Directory)
    (optimizer_name master_weights_name : string) (expected : list string)
    (sd : StateDict) (is_optimizer : bool) (key : string)
    (earlier later : Directory) (f : string * StateDict) (t : Tensor) :
  let name := if is_optimizer then optimizer_name else master_weights_name in
  let name_ := if is_optimizer then "optimizer" else "master_weights" in
  resume_from_checkpoint = earlier ++ f :: later →
  is_backup_file name name_ f.1 = true → od_get f.2 key = Some t →
  (∀ g, g ∈ later → is_backup_file name name_ g.1 = true → od_get g.2 key = None) →
  key ∈ expected → od_get sd key = None →
  od_get (get_unfound_params resume_from_checkpoint optimizer_name
            master_weights_name (unfound_of expected sd) sd is_optimizer) key
  = Some t.
Proof.
  intros name name_ -> Hf Ht Hlater Hexp Hnone.
  assert (key ∈ unfound_of expected sd) as Hun by (by apply unfound_of_spec).
  unfold get_unfound_params. fold name name_.
  rewrite bool_decide_eq_true_2
    by (destruct (unfound_of expected sd); [by apply elem_of_nil in Hun|simpl; lia]).
  rewrite filter_app, filter_cons_True by done.
  rewrite foldl_app. simpl.
  rewrite pull_from_files_absent.
  - rewrite pull_from_file_lookup, Ht. by rewrite bool_decide_eq_true_2.
  - intros g [Hg Hin]%list_elem_of_filter. by apply Hlater.
Qed.
End fallback_order.

Section fallback_order_example.
#[local] Existing Instance Examples.Z_backend.
#[local] Existing Instance Examples.slash_utils.
Import Examples.

Lemma fallback_last_file_wins_witness :
  od_get (get_unfound_params two_backups_dir "optimizer_shard0.safetensors"
            "master_weights_shard0.safetensors"
            (unfound_of ["linear.weight/moment1_0"] []) [] true)
    "linear.weight/moment1_0"
  = Some (vec float32 [3; 4]).
Proof.
  apply (fallback_last_file_wins two_backups_dir _ _ _ _ true _
           [("optimizer_shard1.safetensors",
             [("linear.weight/moment1_0", vec float32 [1; 2])])]
           []
           ("optimizer_shard2.safetensors",
            [("linear.weight/moment1_0", vec float32 [3; 4])])).
  - reflexivity.
  - vm_compute. reflexivity.
  - vm_compute. reflexivity.
  - intros g Hg. by apply elem_of_nil in Hg.
  - by left.
  - reflexivity.
Defined.
End fallback_order_example.


(** ** Shard tokens *)

Section shard_token_facts.
Implicit Types (s x y a b d : string) (c : ascii).

Lemma contains_shard_cons c s :
  contains_shard (String c s) = false →
  String.prefix "shard" (String c s) = false ∧ contains_shard s = false.
Proof. simpl. intros Hc. by apply orb_false_iff in Hc. Qed.

Lemma contains_shard_prefix s :
  contains_shard s = false → String.prefix "shard" s = false.
Proof. destruct s; [done|]. by intros [? _]%contains_shard_cons. Qed.

Lemma shard_len_no_prefix s : String.prefix "shard" s = false → shard_len s = None.
Proof. unfold shard_len. by intros ->. Qed.

Lemma token_len_no_shard s : contains_shard s = false → token_len s = None.
Proof.
  destruct s as [|c s]; [done|]. intros [Hp Hc]%contains_shard_cons.
  unfold token_len. case_decide.
  - by rewrite shard_len_no_prefix by (by apply contains_shard_prefix).
  - by apply shard_len_no_prefix.
Qed.

(** A name without the text [shard] has no shard token to strip. *)
Lemma strip_shard_id s : contains_shard s = false → strip_shard s = s.
Proof.
  unfold strip_shard. induction s as [|c s IH]; [done|]. intros Hc.
  cbn [sub_shard]. rewrite (token_len_no_shard _ Hc).
  apply contains_shard_cons in Hc as [_ Hc]. by rewrite IH.
Qed.
End shard_token_facts.

Section fallback_tokens.
Context `{Backend} `{Utils}.

(** X15. Without shard tokens there is no fallback.  When the text [shard]
    occurs neither in the name of the primary file nor in the name of any
    file of the checkpoint directory, no file passes the test of lines
    424-425 (a file of the same stripped name would be the primary file
    itself), and [get_unfound_params] returns the state dict unchanged,
    whatever keys are missing. *)
Theorem fallback_needs_shard_token (resume_from_checkpoint : Directory)
    (optimizer_name master_weights_name : string) (unfound_keys : list string)
    (sd : StateDict) (is_optimizer : bool) :
  contains_shard (if is_optimizer then optimizer_name else master_weights_name)
    = false →
  (∀ f, f ∈ resume_from_checkpoint → contains_shard f.1 = false) →
  get_unfound_params resume_from_checkpoint optimizer_name master_weights_name
    unfound_keys sd is_optimizer = sd.
Proof.
  intros Hname Hfiles. unfold get_unfound_params.
  case_bool_decide; [|done].
  set (name := if is_optimizer then optimizer_name else master_weights_name) in *.
  set (name_ := if is_optimizer then "optimizer" else "master_weights").
  assert (∀ f, f ∈ resume_from_checkpoint → is_backup_file name name_ f.1 ≠ true)
    as Hnone.
  { intros f Hf (_ & _ & Hne & Hstrip)%is_backup_file_spec.
    rewrite (strip_shard_id f.1), (strip_shard_id name) in Hstrip by auto.
    done. }
  clear Hfiles. induction resume_from_checkpoint as [|f files IH]; [done|].
  rewrite filter_cons_False by (apply Hnone; by left).
  apply IH. intros g Hg. apply Hnone. by right.
Qed.
End fallback_tokens.

Section fallback_tokens_example.
#[local] Existing Instance Examples.Z_backend.
#[local] Existing Instance Examples.slash_utils.
Import Examples.

Lemma fallback_needs_shard_token_witness :
  get_unfound_params
    [("optimizer-old.safetensors", [("linear.weight/moment1_0", vec float32 [1; 2])])]
    "optimizer.safetensors" "master_weights.safetensors"
    ["linear.weight/moment1_0"] [] true
  = [].
Proof.
  apply fallback_needs_shard_token.
  - vm_compute. reflexivity.
  - intros f Hf. apply list_elem_of_singleton in Hf. subst f. vm_compute. reflexivity.
Defined.
End fallback_tokens_example.


(** ** Names that differ in a shard index *)

Section shard_siblings.
Implicit Types (s x y a b d : string) (c : ascii).

Lemma digits_len_le s : (digits_len s ≤ String.length s)%nat.
Proof. induction s as [|c s IH]; simpl; [lia|]. destruct (is_digit c); lia. Qed.

Lemma digits_len_app_stop x c y :
  is_digit c = false → digits_len (x +:+ String c y) = digits_len x.
Proof.
  intros Hc. induction x as [|c' x IH]; simpl; [by rewrite Hc|].
  destruct (is_digit c'); by rewrite ?IH.
Qed.

Lemma digits_len_app_all d b :
  digits_len d = String.length d →
  digits_len (d +:+ b) = (String.length d + digits_len b)%nat.
Proof.
  induction d as [|c d IH]; simpl; [done|].
  destruct (is_digit c); [|done]. intros [= Hd]. by rewrite IH.
Qed.

Lemma drop_string_0 s : drop_string 0 s = s.
Proof. by destruct s. Qed.

Lemma drop_string_app_le (n : nat) x y :
  (n ≤ String.length x)%nat → drop_string n (x +:+ y) = drop_string n x +:+ y.
Proof.
  revert x. induction n as [|n IH]; intros x Hn.
  { by rewrite !drop_string_0. }
  destruct x as [|c x]; simpl in *; [lia|]. apply IH. lia.
Qed.

Lemma drop_string_length (n : nat) x :
  String.length (drop_string n x) = (String.length x - n)%nat.
Proof.
  revert x. induction n as [|n IH]; intros x.
  { rewrite drop_string_0. lia. }
  destruct x as [|c x]; simpl; [done|]. apply IH.
Qed.

Lemma sub_shard_0_cons c s :
  sub_shard 0 (String c s)
  = match token_len (String c s) with
    | Some (S k) => sub_shard k s
    | _ => String c (sub_shard 0 s)
    end.
Proof. done. Qed.

Lemma sub_shard_S (k : nat) c s : sub_shard (S k) (String c s) = sub_shard k s.
Proof. done. Qed.

Lemma sub_shard_skip (k : nat) x y :
  sub_shard (String.length x + k) (x +:+ y) = sub_shard k y.
Proof. induction x as [|c x IH]; [done|]. simpl. apply IH. Qed.

Lemma prefix_app p s : String.prefix p s = true → ∃ r, s = p +:+ r.
Proof.
  revert s. induction p as [|c p IH]; intros s; [by exists s|].
  destruct s as [|c' s]; simpl; [done|].
  destruct (ascii_dec c c') as [<-|]; [|done].
  intros [r ->]%IH. by exists r.
Qed.

Lemma prefix_app_true p r : String.prefix p (p +:+ r) = true.
Proof.
  induction p as [|c p IH]; simpl; [by destruct r|].
  by destruct (ascii_dec c c).
Qed.

Lemma append_cons c s y : String c s +:+ y = String c (s +:+ y).
Proof. done. Qed.

Lemma append_nil y : EmptyString +:+ y = y.
Proof. done. Qed.

Lemma prefix_cons c p c' s :
  String.prefix (String c p) (String c' s)
  = if ascii_dec c c' then String.prefix p s else false.
Proof. done. Qed.

(** The text [shard] does not overlap itself: it cannot start inside [x]
    and end in a continuation that begins with [s]. *)
Lemma prefix_shard_ext x y :
  x ≠ EmptyString → String.prefix "shard" x = false →
  String.prefix "shard" (x +:+ String "s" y) = false.
Proof.
  intros Hx.
  destruct x as [|c1 [|c2 [|c3 [|c4 [|c5 x]]]]]; [done|..];
    rewrite ?append_cons, ?append_nil, ?prefix_cons;
    repeat match goal with
           | |- context [ascii_dec ?a ?b] =>
               destruct (ascii_dec a b); [try discriminate|try done]
           end;
    try done.
  by destruct x.
Qed.

Lemma prefix_underscore_app z y1 y2 :
  String.prefix "_" (z +:+ String "s" y1) = String.prefix "_" (z +:+ String "s" y2) ∧
  (String.prefix "_" (z +:+ String "s" y1) = true → z ≠ EmptyString).
Proof.
  destruct z as [|c z]; rewrite ?append_cons, ?append_nil, ?prefix_cons.
  - by destruct (ascii_dec "_" "s") as [Heq|]; [discriminate Heq|].
  - destruct (ascii_dec "_" c); [|done]. split; [|done].
    by destruct (z +:+ String "s" y1), (z +:+ String "s" y2).
Qed.

Lemma append_assoc x y z : (x +:+ y) +:+ z = x +:+ (y +:+ z).
Proof. induction x as [|c x IH]; [done|]. by rewrite !append_cons, IH. Qed.

Lemma append_length x y :
  String.length (x +:+ y) = (String.length x + String.length y)%nat.
Proof. induction x as [|c x IH]; [done|]. rewrite append_cons. simpl. by rewrite IH. Qed.

Lemma shard_len_shard w :
  shard_len ("shard" +:+ w)
  = if decide (digits_len w = O) then None
    else Some (5 + digits_len w
               + (if String.prefix "_" (drop_string (digits_len w) w) then 1 else 0))%nat.
Proof. unfold shard_len. by rewrite prefix_app_true. Qed.

(** Whether a shard token starts at the beginning of [x +:+ "s..."] depends
    on [x] alone, and the token ends inside [x]. *)
Lemma shard_len_local x y1 y2 :
  x ≠ EmptyString →
  shard_len (x +:+ String "s" y1) = shard_len (x +:+ String "s" y2) ∧
  ∀ m, shard_len (x +:+ String "s" y1) = Some m → (m ≤ String.length x)%nat.
Proof.
  intros Hx. destruct (String.prefix "shard" x) eqn:Hp.
  - apply prefix_app in Hp as [x' ->].
    rewrite !append_assoc, !shard_len_shard.
    rewrite !digits_len_app_stop by done.
    pose proof (digits_len_le x') as Hle.
    rewrite !drop_string_app_le by done.
    destruct (prefix_underscore_app (drop_string (digits_len x') x') y1 y2)
      as [Heq Hne].
    rewrite Heq in *. clear Heq. split; [done|]. intros m.
    case_decide; [done|]. intros [= <-]. rewrite append_length.
    change (String.length "shard") with 5%nat.
    destruct (String.prefix "_" _) eqn:Hu; [|lia].
    specialize (Hne eq_refl).
    pose proof (drop_string_length (digits_len x') x') as Hlen.
    destruct (drop_string (digits_len x') x'); [done|]. simpl in Hlen. lia.
  - unfold shard_len. rewrite !prefix_shard_ext by done. done.
Qed.

(** Scanning [a +:+ "s..."]: the shard tokens that start in [a] end in
    [a], so two continuations on which the scan agrees give the same
    result. *)
Lemma sub_shard_local a y1 y2 :
  sub_shard 0 (String "s" y1) = sub_shard 0 (String "s" y2) →
  sub_shard 0 (String "_" (String "s" y1)) = sub_shard 0 (String "_" (String "s" y2)) →
  ∀ k : nat, (k ≤ String.length a)%nat →
    sub_shard k (a +:+ String "s" y1) = sub_shard k (a +:+ String "s" y2).
Proof.
  intros H0 H1. induction a as [|c a IH]; intros k Hk.
  { simpl in Hk. by replace k with O by lia. }
  rewrite !append_cons. destruct k as [|k]; [|apply IH; simpl in Hk; lia].
  destruct (decide (c = underscore ∧ a = EmptyString)) as [[-> ->]|Hother].
  { exact H1. }
  cbn [sub_shard].
  assert (token_len (String c (a +:+ String "s" y1))
          = token_len (String c (a +:+ String "s" y2)) ∧
          ∀ j, token_len (String c (a +:+ String "s" y1)) = Some (S j) →
               (j ≤ String.length a)%nat) as [Heq Hbound].
  { unfold token_len. case_decide as Hc.
    - assert (a ≠ EmptyString) as Ha by (intros ->; by apply Hother).
      destruct (shard_len_local a y1 y2 Ha) as [E Hb]. rewrite <- E.
      split; [done|]. intros j.
      destruct (shard_len (a +:+ String "s" y1)) as [m|]; [|done].
      intros [= <-]. by apply Hb.
    - rewrite <- !append_cons.
      destruct (shard_len_local (String c a) y1 y2) as [E Hb]; [done|].
      rewrite <- E. split; [done|]. intros j Hj. apply Hb in Hj. simpl in Hj. lia. }
  rewrite <- Heq.
  destruct (token_len (String c (a +:+ String "s" y1))) as [[|j]|];
    [by rewrite (IH O) by lia| |by rewrite (IH O) by lia].
  apply IH. by apply Hbound.
Qed.

Lemma all_digits_spec d :
  all_digits d = true → d ≠ EmptyString ∧ digits_len d = String.length d.
Proof.
  unfold all_digits. intros [? ?]%andb_true_iff.
  split; by eapply bool_decide_eq_true_1.
Qed.

(** A shard token at the start of the scan is deleted whatever its digits
    are, with or without an underscore before it. *)
Lemma sub_shard_token d b :
  all_digits d = true → digits_len b = O →
  sub_shard 0 ("shard" +:+ d +:+ b)
    = sub_shard (if String.prefix "_" b then 1 else 0) b ∧
  sub_shard 0 (String "_" ("shard" +:+ d +:+ b))
    = sub_shard (if String.prefix "_" b then 1 else 0) b.
Proof.
  intros [Hne Hd]%all_digits_spec Hb.
  assert (shard_len ("shard" +:+ d +:+ b)
          = Some (5 + (String.length d + if String.prefix "_" b then 1 else 0)))%nat
    as Hlen.
  { rewrite shard_len_shard, digits_len_app_all, Hb, Nat.add_0_r by done.
    rewrite decide_False by (destruct d; [done|simpl; lia]).
    replace (drop_string (String.length d) (d +:+ b)) with b.
    - f_equal; lia.
    - clear. induction d as [|c d IH]; [by rewrite append_nil, drop_string_0|].
      by rewrite append_cons. }
  rewrite !append_cons, append_nil in Hlen. rewrite !append_cons, append_nil.
  split.
  - rewrite sub_shard_0_cons. unfold token_len.
    rewrite decide_False by done. rewrite Hlen.
    change (5 + ?n)%nat with (S (S (S (S (S n))))). cbv beta iota.
    rewrite !sub_shard_S. by rewrite sub_shard_skip.
  - rewrite sub_shard_0_cons. unfold token_len.
    rewrite decide_True by done. rewrite Hlen. cbn [fmap option_fmap option_map].
    change (5 + ?n)%nat with (S (S (S (S (S n))))). cbv beta iota.
    rewrite !sub_shard_S. by rewrite sub_shard_skip.
Qed.

Lemma append_inj_r x1 x2 y : x1 +:+ y = x2 +:+ y → x1 = x2.
Proof.
  revert x2. induction x1 as [|c x1 IH]; intros [|c2 x2] Heq; [done|..].
  - apply (f_equal String.length) in Heq.
    rewrite append_nil, append_cons in Heq. simpl in Heq.
    rewrite append_length in Heq. lia.
  - apply (f_equal String.length) in Heq.
    rewrite append_nil, append_cons in Heq. simpl in Heq.
    rewrite append_length in Heq. lia.
  - rewrite !append_cons in Heq. injection Heq as -> Heq. by rewrite (IH x2).
Qed.

(** X16. The shard index does not count.  Two file names that differ only
    in the digits of one shard token, [a shard d1 b] and [a shard d2 b], are
    equal once [re.sub] has stripped the shard tokens from both, whatever
    other tokens [a] and [b] contain.  So a file of the checkpoint directory
    that has the prefix and the suffix line 424 asks for is a backup file of
    every primary file from which it differs in a shard index only. *)
Theorem shard_index_is_ignored (name_ a b d1 d2 : string) :
  all_digits d1 = true → all_digits d2 = true → digits_len b = O →
  let name := a +:+ "shard" +:+ d1 +:+ b in
  let f := a +:+ "shard" +:+ d2 +:+ b in
  strip_shard f = strip_shard name ∧
  (d1 ≠ d2 → startswith f name_ = true → endswith f "safetensors" = true →
   is_backup_file name name_ f = true).
Proof.
  intros Hd1 Hd2 Hb name f.
  assert (strip_shard f = strip_shard name) as Hstrip.
  { unfold strip_shard, f, name.
    destruct (sub_shard_token d1 b Hd1 Hb) as [H1 H1'].
    destruct (sub_shard_token d2 b Hd2 Hb) as [H2 H2'].
    rewrite 2!(append_cons "s" "hard").
    apply sub_shard_local; [| |lia].
    - change (String "s" ("hard" +:+ ?w)) with ("shard" +:+ w). congruence.
    - change (String "s" ("hard" +:+ ?w)) with ("shard" +:+ w). congruence. }
  split; [done|]. intros Hne Hstart Hend.
  apply is_backup_file_spec. repeat split; try done.
  unfold f, name. intros Heq. apply Hne.
  apply String.app_inj in Heq. apply String.app_inj in Heq.
  by apply append_inj_r in Heq.
Qed.
End shard_siblings.

Lemma shard_index_is_ignored_witness :
  is_backup_file "optimizer-tp00_shard00.safetensors" "optimizer"
    "optimizer-tp00_shard01.safetensors" = true.
Proof.
  apply (shard_index_is_ignored "optimizer" "optimizer-tp00_" ".safetensors"
           "00" "01");
    try (vm_compute; reflexivity).
  vm_compute. discriminate.
Defined.


(** ** Keys the non-merged loader rejects *)

Lemma for_each_fails {A S : Type} (body : A → S → option S) (xs : list A) (s : S) x :
  x ∈ xs → (∀ s, body x s = None) → for_each body xs s = None.
Proof.
  intros Hin Hfail. revert s. induction xs as [|y xs IH]; intros s.
  { by apply elem_of_nil in Hin. }
  simpl. apply elem_of_cons in Hin as [->|Hin]; [by rewrite Hfail|].
  destruct (body y s); [by apply IH|done].
Qed.

Lemma split_slash_head (s : string) :
  split_slash s !! 0%nat = Some (default EmptyString (head (split_slash s))).
Proof.
  induction s as [|c s IH]; [done|]. simpl. case_decide; [done|].
  by destruct (split_slash s).
Qed.

Section non_merge_rejects.
Context `{Backend} `{Utils}.
Implicit Types (sd : StateDict) (cur t : Tensor).

(** The fallback scan removes no key. *)
Lemma get_unfound_params_keeps (resume_from_checkpoint : Directory)
    (optimizer_name master_weights_name : string) (unfound_keys : list string)
    sd (is_optimizer : bool) key :
  key ∈ od_keys sd →
  key ∈ od_keys (get_unfound_params resume_from_checkpoint optimizer_name
                   master_weights_name unfound_keys sd is_optimizer).
Proof.
  intros Hin%od_get_is_Some. apply od_get_is_Some.
  unfold get_unfound_params. case_bool_decide; [|done].
  match goal with
  | |- context [foldl _ sd ?files] =>
      destruct (pull_from_files_lookup unfound_keys files sd key)
        as [[Hsame _]|(_ & f & t & _ & _ & Hres)]
  end.
  - simpl in Hsame. by rewrite Hsame.
  - simpl in Hres. by rewrite Hres.
Qed.

(** The renaming loop fails at a key whose first part is not a parameter
    of the model. *)
Lemma rename_entry_unknown (model_state_dict : StateDict)
    (struct2static_name_mappings : gmap string string)
    (is_amp_o1 master_weights_file : bool) key st :
  struct2static_name_mappings !! struct_name_of key = None →
  rename_entry model_state_dict struct2static_name_mappings is_amp_o1
    master_weights_file key st = None.
Proof.
  intros Hnone. destruct st as [[sd ret] mw]. unfold rename_entry.
  rewrite split_slash_head. simpl. fold (struct_name_of key). by rewrite Hnone.
Qed.

(** X17. Keys the non-merged loader rejects.
    [load_non_merge_optimizer_with_split_param] loads every key of the
    optimizer file, and fails when one of them does not consist of exactly
    two parts separated by a slash (the unpacking of line 395), or names, in
    its first part, a parameter that is not in the model (the lookup of line
    452). *)
Theorem non_merge_rejects_foreign_keys
    (resume_from_checkpoint : Directory) (optimizer_name master_weights_name : string)
    (is_amp_o1 : bool) (model_state_dict : StateDict)
    (comm_buffer_list : list CommBuffer) (sharding_typename_set : list (list string))
    (returned_optim_state_dict : OptimizerState)
    (optimizer_state_dict : StateDict) (key : string) :
  od_get resume_from_checkpoint optimizer_name = Some optimizer_state_dict →
  key ∈ od_keys optimizer_state_dict →
  length (split_slash key) ≠ 2%nat ∨
  struct2static model_state_dict !! struct_name_of key = None →
  load_non_merge_optimizer_with_split_param resume_from_checkpoint optimizer_name
    master_weights_name is_amp_o1 model_state_dict comm_buffer_list
    sharding_typename_set returned_optim_state_dict = None.
Proof.
  intros Hfile Hkey Hbad. unfold load_non_merge_optimizer_with_split_param.
  destruct (get_params_info comm_buffer_list) as [[expected_keys sl] sh].
  rewrite Hfile. cbn -[rename_and_store get_unfound_params unfound_of].
  destruct (mapM _ (od_keys optimizer_state_dict)) as [typenames|] eqn:Htypes;
    cbn -[rename_and_store get_unfound_params unfound_of]; [|done].
  destruct Hbad as [Hparts|Hunknown].
  { exfalso. apply mapM_Some_1 in Htypes.
    apply list_elem_of_lookup in Hkey as [i Hi].
    destruct (Forall2_lookup_l _ _ _ _ _ Htypes Hi) as (typename & _ & Hsplit).
    destruct (split_slash key) as [|? [|? [|? ?]]]; done. }
  match goal with
  | |- (?m ≫= _) = None => destruct m as [master_weights|]
  end; cbn -[rename_and_store get_unfound_params unfound_of]; [|done].
  unfold rename_and_store.
  match goal with
  | |- context [reshape_params ?a ?b ?c ?sd] =>
      destruct (reshape_params a b c sd) as [sd2|] eqn:Hreshape;
        cbn -[get_unfound_params unfound_of]; [|done];
        assert (key ∈ od_keys sd2) as Hkey2
  end.
  { rewrite (reshape_params_same_keys _ _ _ _ _ Hreshape).
    by apply get_unfound_params_keeps. }
  rewrite (for_each_fails _ _ _ key Hkey2); [done|].
  intros st. by apply rename_entry_unknown.
Qed.
End non_merge_rejects.

Section non_merge_rejects_example.
#[local] Existing Instance Examples.Z_backend.
#[local] Existing Instance Examples.slash_utils.
Import Examples.

Lemma non_merge_rejects_foreign_keys_witness :
  load_non_merge_optimizer_with_split_param optimizer_only_dir
    "optimizer.safetensors" "master_weights.safetensors" false []
    [[("w", w_view 6 12)]] [["moment1_0"]] (mkOptimizerState [] None false)
  = None.
Proof.
  eapply (non_merge_rejects_foreign_keys _ _ _ _ _ _ _ _ _
            "linear.weight/moment1_0").
  - vm_compute. reflexivity.
  - by left.
  - right. vm_compute. reflexivity.
Defined.
End non_merge_rejects_example.


(** ** Renamed optimizer entries *)

Section non_merge_renames.
Context `{Backend} `{Utils}.
Implicit Types (sd : StateDict) (cur t : Tensor).

(** One step of the renaming loop stores the popped tensor under its new
    key, named by that key. *)
Lemma rename_entry_Some (model_state_dict : StateDict)
    (struct2static_name_mappings : gmap string string)
    (is_amp_o1 master_weights_file : bool) key sd ret mw sd' ret' mw' :
  rename_entry model_state_dict struct2static_name_mappings is_amp_o1
    master_weights_file key (sd, ret, mw) = Some (sd', ret', mw') →
  ∃ k cur,
    ret' = od_set ret k (with_name cur k) ∧
    renamed_from model_state_dict struct2static_name_mappings (negb is_amp_o1)
      k (with_name cur k).
Proof.
  unfold rename_entry. intros Hrun.
  destruct (split_slash key !! 0%nat) as [struct|] eqn:Hstruct; simpl in Hrun; [|done].
  destruct (struct2static_name_mappings !! struct) as [static_name|] eqn:Hstatic;
    simpl in Hrun; [|done].
  assert (∀ typename, split_slash key !! 1%nat = Some typename →
            ∃ rest, split_slash key = struct :: typename :: rest) as Hsplit.
  { intros typename Htype. destruct (split_slash key) as [|a [|b rest]]; try done.
    injection Hstruct as ->. injection Htype as ->. by exists rest. }
  destruct is_amp_o1; simpl in Hrun.
  - destruct (split_slash key !! 1%nat) as [typename|] eqn:Htype;
      simpl in Hrun; [|done].
    destruct (od_pop sd key) as [[popped sd1]|]; simpl in Hrun; [|done].
    injection Hrun as _ <- _. eexists _, popped. split; [done|].
    split; [done|]. destruct (Hsplit typename eq_refl) as [rest Hrest].
    by exists key, struct, typename, rest, static_name.
  - destruct (od_get model_state_dict struct) as [param|] eqn:Hparam;
      simpl in Hrun; [|done].
    destruct (split_slash key !! 1%nat) as [typename|] eqn:Htype;
      simpl in Hrun; [|done].
    destruct (Hsplit typename eq_refl) as [rest Hrest].
    assert (∀ k, renamed_key static_name typename
                   (bool_decide (t_dtype param ≠ float32)) = k →
              ∀ cur, renamed_from model_state_dict struct2static_name_mappings true
                       k (with_name cur k)) as Hnamed.
    { intros k <- cur. split; [done|].
      exists key, struct, typename, rest, static_name.
      split; [done|]. split; [done|]. by exists param. }
    unfold renamed_key in Hnamed.
    case_bool_decide; simpl in Hrun;
      (destruct (od_pop sd key) as [[popped sd1]|]; simpl in Hrun; [|done]);
      destruct master_weights_file; simpl in Hrun;
      injection Hrun as _ <- _; eexists _, popped; (split; [done|]);
      by apply Hnamed.
Qed.

Lemma rename_loop_entries (model_state_dict : StateDict)
    (struct2static_name_mappings : gmap string string)
    (is_amp_o1 master_weights_file : bool) ks
    (st st' : StateDict * StateDict * StateDict) :
  for_each (rename_entry model_state_dict struct2static_name_mappings is_amp_o1
              master_weights_file) ks st = Some st' →
  ∀ k t, od_get st'.1.2 k = Some t →
    od_get st.1.2 k = Some t ∨
    renamed_from model_state_dict struct2static_name_mappings (negb is_amp_o1) k t.
Proof.
  intros Hrun.
  refine (for_each_invariant
            (λ s, ∀ k t, od_get s.1.2 k = Some t →
               od_get st.1.2 k = Some t ∨
               renamed_from model_state_dict struct2static_name_mappings
                 (negb is_amp_o1) k t)
            _ _ _ _ _ _ Hrun); [|by left].
  intros key [[sd ret] mw] [[sd' ret'] mw'] _ Hinv Hb. simpl in *.
  apply rename_entry_Some in Hb as (k' & cur & -> & Hnamed).
  intros k t. destruct (decide (k' = k)) as [->|Hne].
  - rewrite od_get_set_eq. intros [= <-]. by right.
  - rewrite od_get_set_ne by done. apply Hinv.
Qed.

(** X18. How the non-merged loader names the optimizer state.  Every entry
    of the returned optimizer state either was in the optimizer's own state
    dict, or comes from a loaded key [struct/typename]: its key is
    [static_typename], the static name of the parameter joined to the
    accumulator name by an underscore, with the token of the float32 master
    weights between them exactly when the run is not AMP O1 and the
    parameter of the model is not float32, and the tensor is named by its
    key.  Under AMP O1 the master weights of the state dict are returned
    untouched, also when a master-weight file exists. *)
Theorem non_merge_renames_optimizer_entries
    (resume_from_checkpoint : Directory) (optimizer_name master_weights_name : string)
    (is_amp_o1 : bool) (model_state_dict : StateDict)
    (comm_buffer_list : list CommBuffer) (sharding_typename_set : list (list string))
    (returned_optim_state_dict r : OptimizerState) :
  load_non_merge_optimizer_with_split_param resume_from_checkpoint optimizer_name
    master_weights_name is_amp_o1 model_state_dict comm_buffer_list
    sharding_typename_set returned_optim_state_dict = Some r →
  (∀ k t, od_get (entries r) k = Some t →
     od_get (entries returned_optim_state_dict) k = Some t ∨
     renamed_from model_state_dict (struct2static model_state_dict)
       (negb is_amp_o1) k t) ∧
  (is_amp_o1 = true →
     master_weights r = master_weights returned_optim_state_dict) ∧
  LR_Scheduler r = LR_Scheduler returned_optim_state_dict.
Proof.
  unfold load_non_merge_optimizer_with_split_param.
  destruct (get_params_info comm_buffer_list) as [[expected_keys sl] sh].
  intros Hrun.
  destruct (od_get resume_from_checkpoint optimizer_name) as [file|];
    cbn -[rename_and_store get_unfound_params unfound_of] in Hrun; [|done].
  destruct (mapM _ (od_keys file)) as [typenames|];
    cbn -[rename_and_store get_unfound_params unfound_of] in Hrun; [|done].
  match type of Hrun with
  | (?m ≫= _) = Some _ => destruct m as [loaded|]
  end; cbn -[rename_and_store get_unfound_params unfound_of] in Hrun; [|done].
  unfold rename_and_store in Hrun.
  match type of Hrun with
  | context [reshape_params ?a ?b ?c ?sd] =>
      destruct (reshape_params a b c sd) as [sd2|]
  end; cbn -[get_unfound_params unfound_of reshape_params] in Hrun; [|done].
  destruct (for_each (rename_entry _ _ _ _) _ _) as [[[sd3 ret] mw]|] eqn:Hloop;
    cbn -[get_unfound_params unfound_of reshape_params] in Hrun; [|done].
  pose proof (rename_loop_entries _ _ _ _ _ _ _ Hloop) as Hentries.
  simpl in Hentries.
  destruct is_amp_o1; cbn -[get_unfound_params unfound_of reshape_params] in Hrun.
  - injection Hrun as <-. done.
  - destruct (reshape_params _ _ _ mw) as [mw2|];
      cbn -[get_unfound_params unfound_of] in Hrun; [|done].
    destruct (for_each (rename_master_weight _) _ _) as [[mw3 rmw]|];
      cbn -[get_unfound_params unfound_of] in Hrun; [|done].
    injection Hrun as <-. done.
Qed.
End non_merge_renames.

Section non_merge_renames_example.
#[local] Existing Instance Examples.Z_backend.
#[local] Existing Instance Examples.slash_utils.
Import Examples.

Lemma non_merge_renames_optimizer_entries_witness :
  ∃ r t,
    load_non_merge_optimizer_with_split_param optimizer_only_dir
      "optimizer.safetensors" "master_weights.safetensors" false bf16_model
      [[("w", w_view 6 12)]] [["moment1_0"]] (mkOptimizerState [] None false)
    = Some r ∧
    od_get (entries r) "w_fp32_master_0_moment1_0" = Some t ∧
    t_name t = "w_fp32_master_0_moment1_0".
Proof.
  destruct (load_non_merge_optimizer_with_split_param optimizer_only_dir
              "optimizer.safetensors" "master_weights.safetensors" false bf16_model
              [[("w", w_view 6 12)]] [["moment1_0"]]
              (mkOptimizerState [] None false)) as [r|] eqn:Hrun.
  - destruct (od_get (entries r) "w_fp32_master_0_moment1_0") as [t|] eqn:Ht.
    + exists r, t. split; [reflexivity|]. split; [exact Ht|].
      destruct (proj1 (non_merge_renames_optimizer_entries _ _ _ _ _ _ _ _ _ Hrun)
                  _ _ Ht) as [Hold|[Hname _]].
      * discriminate Hold.
      * exact Hname.
    + exfalso. vm_compute in Hrun. injection Hrun as <-. vm_compute in Ht.
      discriminate Ht.
  - exfalso. vm_compute in Hrun. discriminate Hrun.
Defined.
End non_merge_renames_example.


(** ** The unified loader *)

Lemma for_each_ext {A S : Type} (body1 body2 : A → S → option S) (xs : list A) (s : S) :
  (∀ x s, x ∈ xs → body1 x s = body2 x s) →
  for_each body1 xs s = for_each body2 xs s.
Proof.
  revert s. induction xs as [|x xs IH]; intros s Hext; [done|]. simpl.
  rewrite (Hext x s) by left. destruct (body2 x s); [|done].
  apply IH. intros y s' Hy. apply Hext. by right.
Qed.

Lemma forallb_false {A : Type} (f : A → bool) (l : list A) :
  forallb f l = false → ∃ x, x ∈ l ∧ f x = false.
Proof.
  induction l as [|x l IH]; [done|]. simpl.
  intros [Hx|Hl]%andb_false_iff.
  - exists x. split; [by left|done].
  - destruct (IH Hl) as (y & Hy & Hfy). exists y. split; [by right|done].
Qed.

Section unified_facts.
Context `{Backend} `{Utils}.
Implicit Types (sd : StateDict) (cur t : Tensor).

(** X19. Shard files are chosen by the index, not by their content.
    [load_resolved_archive_file] calls [load_state_dict] only on the shard
    files for which the index lists at least one expected key: what
    [load_state_dict] would do on any other file, failing included, has no
    effect on the result.  And a shard file that the index does not list
    makes the function fail (the KeyError of line 294), whether or not it
    holds an expected key. *)
Theorem shards_chosen_by_index (TpActions : Type) (tensor_parallel_degree : Z)
    (model_tp_actions : TpActions)
    (mapping_optimizer_tp_actions : TpActions → list string → TpActions)
    (load_state_dict load_state_dict' :
       string → option TpActions → list string → string → option StateDict)
    (resolved_archive_file : list string) (file_map : gmap string (list string))
    (expected_keys : list string) (is_master_weights : bool)
    (ckpt_quant_stage : string) :
  ((∀ shard_file keys key,
      shard_file ∈ resolved_archive_file →
      file_map !! basename shard_file = Some keys →
      key ∈ expected_keys → key ∈ keys →
      ∀ tp_actions, load_state_dict shard_file tp_actions expected_keys ckpt_quant_stage
                    = load_state_dict' shard_file tp_actions expected_keys
                        ckpt_quant_stage) →
   load_resolved_archive_file TpActions tensor_parallel_degree model_tp_actions
     mapping_optimizer_tp_actions load_state_dict resolved_archive_file file_map
     expected_keys is_master_weights ckpt_quant_stage
   = load_resolved_archive_file TpActions tensor_parallel_degree model_tp_actions
       mapping_optimizer_tp_actions load_state_dict' resolved_archive_file file_map
       expected_keys is_master_weights ckpt_quant_stage) ∧
  ((∃ shard_file, shard_file ∈ resolved_archive_file ∧
      file_map !! basename shard_file = None) →
   load_resolved_archive_file TpActions tensor_parallel_degree model_tp_actions
     mapping_optimizer_tp_actions load_state_dict resolved_archive_file file_map
     expected_keys is_master_weights ckpt_quant_stage = None).
Proof.
  unfold load_resolved_archive_file. split.
  - intros Hsame. apply for_each_ext. intros shard_file sd Hin. unfold load_shard.
    destruct (file_map !! basename shard_file) as [keys|] eqn:Hkeys; [|done].
    destruct (forallb _ expected_keys) eqn:Hdisjoint; [done|].
    apply forallb_false in Hdisjoint as (key & Hexp & Hkey).
    assert (key ∈ keys) as Hk.
    { destruct (decide (key ∈ keys)) as [|Hout]; [done|].
      by rewrite bool_decide_eq_true_2 in Hkey. }
    by rewrite (Hsame shard_file keys key).
  - intros (shard_file & Hin & Hnone).
    apply (for_each_fails _ _ _ shard_file Hin).
    intros sd. unfold load_shard. by rewrite Hnone.
Qed.
End unified_facts.


Section unified_renames.
Context `{Backend} `{Utils}.
Implicit Types (sd : StateDict) (cur t : Tensor).

Lemma rename_unified_entry_Some (model_state_dict : StateDict)
    (struct2static_name_mappings : gmap string string)
    (has_master_weights : bool) key sd ret sd' ret' :
  rename_unified_entry model_state_dict struct2static_name_mappings
    has_master_weights key (sd, ret) = Some (sd', ret') →
  ∃ k cur,
    ret' = od_set ret k (with_name cur k) ∧
    renamed_from model_state_dict struct2static_name_mappings has_master_weights
      k (with_name cur k).
Proof.
  unfold rename_unified_entry. intros Hrun.
  destruct (split_slash key !! 0%nat) as [struct|] eqn:Hstruct; simpl in Hrun; [|done].
  assert (∀ typename, split_slash key !! 1%nat = Some typename →
            ∃ rest, split_slash key = struct :: typename :: rest) as Hsplit.
  { intros typename Htype. destruct (split_slash key) as [|a [|b rest]]; try done.
    injection Hstruct as ->. injection Htype as ->. by exists rest. }
  assert (∀ k static_name typename,
            split_slash key !! 1%nat = Some typename →
            struct2static_name_mappings !! struct = Some static_name →
            (if has_master_weights
             then ∃ param, od_get model_state_dict struct = Some param ∧
                    k = renamed_key static_name typename
                          (bool_decide (t_dtype param ≠ float32))
             else k = renamed_key static_name typename false) →
            ∀ cur, renamed_from model_state_dict struct2static_name_mappings
                     has_master_weights k (with_name cur k)) as Hnamed.
  { intros k static_name typename Htype Hstatic Hk cur. split; [done|].
    destruct (Hsplit typename Htype) as [rest Hrest].
    by exists key, struct, typename, rest, static_name. }
  unfold renamed_key in Hnamed.
  destruct has_master_weights; simpl in Hrun.
  - destruct (od_get model_state_dict struct) as [param|] eqn:Hparam;
      simpl in Hrun; [|done].
    destruct (struct2static_name_mappings !! struct) as [static_name|] eqn:Hstatic;
      simpl in Hrun; [|done].
    destruct (split_slash key !! 1%nat) as [typename|] eqn:Htype;
      simpl in Hrun; [|done].
    destruct (bool_decide (t_dtype param ≠ float32)) eqn:Hdt; simpl in Hrun;
      (destruct (od_get sd key) as [cur|]; simpl in Hrun; [|done]);
      unfold od_pop in Hrun; rewrite od_get_set_eq in Hrun; simpl in Hrun;
      injection Hrun as _ <-; eexists _, _; (split; [done|]);
      apply (Hnamed _ static_name typename eq_refl eq_refl);
      exists param; by rewrite Hdt.
  - destruct (struct2static_name_mappings !! struct) as [static_name|] eqn:Hstatic;
      simpl in Hrun; [|done].
    destruct (split_slash key !! 1%nat) as [typename|] eqn:Htype;
      simpl in Hrun; [|done].
    destruct (od_get sd key) as [cur|]; simpl in Hrun; [|done].
    unfold od_pop in Hrun. rewrite od_get_set_eq in Hrun. simpl in Hrun.
    injection Hrun as _ <-. eexists _, _. split; [done|].
    by apply (Hnamed _ static_name typename).
Qed.

Lemma rename_unified_loop_entries (model_state_dict : StateDict)
    (struct2static_name_mappings : gmap string string)
    (has_master_weights : bool) ks (st st' : StateDict * StateDict) :
  for_each (rename_unified_entry model_state_dict struct2static_name_mappings
              has_master_weights) ks st = Some st' →
  ∀ k t, od_get st'.2 k = Some t →
    od_get st.2 k = Some t ∨
    renamed_from model_state_dict struct2static_name_mappings has_master_weights k t.
Proof.
  intros Hrun.
  refine (for_each_invariant
            (λ s, ∀ k t, od_get s.2 k = Some t →
               od_get st.2 k = Some t ∨
               renamed_from model_state_dict struct2static_name_mappings
                 has_master_weights k t)
            _ _ _ _ _ _ Hrun); [|by left].
  intros key [sd ret] [sd' ret'] _ Hinv Hb. simpl in *.
  apply rename_unified_entry_Some in Hb as (k' & cur & -> & Hnamed).
  intros k t. destruct (decide (k' = k)) as [->|Hne].
  - rewrite od_get_set_eq. intros [= <-]. by right.
  - rewrite od_get_set_ne by done. apply Hinv.
Qed.

(** X20. How the unified loader names the optimizer state.  Every entry of
    the optimizer state [load_unified_optimizer_split_param] returns either
    was in the optimizer's own state dict, or comes from a loaded key
    [struct/typename]: its key is [static_typename], with the token of the
    float32 master weights between the two exactly when the checkpoint has
    master weights and the parameter of the model is not float32, and the
    tensor is named by its key.  Without master weights the master weights
    of the state dict are returned untouched; with master weights they are
    replaced by the loaded ones. *)
Theorem unified_renames_optimizer_entries (TpActions : Type)
    (tensor_parallel_degree : Z) (model_tp_actions : TpActions)
    (mapping_optimizer_tp_actions : TpActions → list string → TpActions)
    (load_state_dict :
       string → option TpActions → list string → string → option StateDict)
    (weight_map_keys : list string)
    (resolved_archive_file : list string) (file_map : gmap string (list string))
    (resolved_archive_file_mw : list string) (file_map_mw : gmap string (list string))
    (has_master_weights : bool) (model_state_dict : StateDict)
    (comm_buffer_list : list CommBuffer) (ckpt_quant_stage : string)
    (returned_optim_state_dict r : OptimizerState) :
  load_unified_optimizer_split_param TpActions tensor_parallel_degree
    model_tp_actions mapping_optimizer_tp_actions load_state_dict weight_map_keys
    resolved_archive_file file_map resolved_archive_file_mw file_map_mw
    has_master_weights model_state_dict comm_buffer_list ckpt_quant_stage
    returned_optim_state_dict = Some r →
  (∀ k t, od_get (entries r) k = Some t →
     od_get (entries returned_optim_state_dict) k = Some t ∨
     renamed_from model_state_dict (struct2static model_state_dict)
       has_master_weights k t) ∧
  (if has_master_weights then is_Some (master_weights r)
   else master_weights r = master_weights returned_optim_state_dict) ∧
  LR_Scheduler r = LR_Scheduler returned_optim_state_dict.
Proof.
  unfold load_unified_optimizer_split_param.
  destruct (get_params_info comm_buffer_list) as [[expected_keys sl] sh] eqn:Hinfo.
  intros Hrun.
  destruct (mapM _ weight_map_keys) as [typenames|];
    cbn -[load_resolved_archive_file reshape_params load_unified_master_weights]
      in Hrun; [|done].
  destruct (load_resolved_archive_file _ _ _ _ _ resolved_archive_file _ _ _ _)
    as [sd1|];
    cbn -[load_resolved_archive_file reshape_params load_unified_master_weights]
      in Hrun; [|done].
  destruct (reshape_params _ _ _ sd1) as [sd2|];
    cbn -[load_resolved_archive_file reshape_params load_unified_master_weights]
      in Hrun; [|done].
  destruct (for_each (rename_unified_entry _ _ _) _ _) as [[sd3 ret]|] eqn:Hloop;
    cbn -[load_resolved_archive_file reshape_params load_unified_master_weights]
      in Hrun; [|done].
  pose proof (rename_unified_loop_entries _ _ _ _ _ _ Hloop) as Hentries.
  simpl in Hentries.
  destruct has_master_weights.
  - destruct (load_resolved_archive_file _ _ _ _ _ resolved_archive_file_mw _ _ _ _)
      as [sdmw|];
      cbn -[load_resolved_archive_file reshape_params load_unified_master_weights]
        in Hrun; [|done].
    destruct (load_unified_master_weights _ _ sdmw) as [mw|];
      cbn -[load_resolved_archive_file reshape_params load_unified_master_weights]
        in Hrun; [|done].
    injection Hrun as <-. simpl. eauto.
  - injection Hrun as <-. done.
Qed.
End unified_renames.

Section unified_renames_example.
#[local] Existing Instance Examples.Z_backend.
#[local] Existing Instance Examples.slash_utils.
Import Examples.

Lemma unified_renames_optimizer_entries_witness :
  ∃ r t mw tmw,
    load_unified_optimizer_split_param unit 1 tt (λ a _, a) (dir_loader unified_dir)
      ["linear.weight/moment1_0"]
      ["ckpt/optimizer-00001-of-00001.safetensors"] unified_file_map
      ["ckpt/master_weights-00001-of-00001.safetensors"] unified_file_map_mw
      true bf16_model [[("w", w_view 6 12)]] "O0" (mkOptimizerState [] None false)
    = Some r ∧
    od_get (entries r) "w_fp32_master_0_moment1_0" = Some t ∧
    t_name t = "w_fp32_master_0_moment1_0" ∧
    t_data t = [17; 18; 19; 20; 0; 0] ∧
    master_weights r = Some mw ∧ od_get mw "w" = Some tmw ∧
    t_dtype tmw = float32 ∧ t_data tmw = [7; 8; 9; 10; 0; 0].
Proof.
  destruct (load_unified_optimizer_split_param unit 1 tt (λ a _, a)
              (dir_loader unified_dir) ["linear.weight/moment1_0"]
              ["ckpt/optimizer-00001-of-00001.safetensors"] unified_file_map
              ["ckpt/master_weights-00001-of-00001.safetensors"] unified_file_map_mw
              true bf16_model [[("w", w_view 6 12)]] "O0"
              (mkOptimizerState [] None false)) as [r|] eqn:Hrun.
  - pose proof (proj1 (unified_renames_optimizer_entries _ _ _ _ _ _ _ _ _ _ _ _ _ _
                         _ _ Hrun)) as Hnames.
    vm_compute in Hrun. injection Hrun as <-.
    eexists _, _, _, _. split; [reflexivity|]. split; [vm_compute; reflexivity|].
    split; [|split; [reflexivity|split; [reflexivity|split;
      [vm_compute; reflexivity|split; reflexivity]]]].
    destruct (Hnames "w_fp32_master_0_moment1_0" _ ltac:(vm_compute; reflexivity))
      as [Hold|[Hname _]].
    + discriminate Hold.
    + exact Hname.
  - exfalso. vm_compute in Hrun. discriminate Hrun.
Defined.
End unified_renames_example.


(** ** The lister of a partial parameter takes part in its merge *)

Section lister_in_plan.
Context `{Backend} `{Utils}.

(** X21. A rank takes part in the merge of every parameter it lists as
    partial.  The classification is local and the send plans are built from
    the gathered catalogs; for a rank that is a member of its sharding
    group the two agree: the send plan of every name in its
    [partial_tensor_list] holds a tuple of the rank itself, with the
    non-empty slice of its own catalog.  So the rank is the receiver or a
    sender, never a bystander. *)
Theorem lister_is_in_plan (group : list Peer) (global_rank : Z)
    (optimizer : Optimizer) (sd' : StateDict) (partial_tensor_list : list string)
    (send_table : gmap string SendInfo) (recv_table : gmap string Z) :
  let comm_buffer_list := _comm_buffer_list optimizer in
  let param_slice_info := local_slice_info global_rank comm_buffer_list in
  let param_shape_info := (collect_slice_info comm_buffer_list).2 in
  mkPeer global_rank comm_buffer_list ∈ group →
  for_each (classify_entry param_slice_info param_shape_info)
    (od_keys (entries (state_dict optimizer))) (entries (state_dict optimizer), [])
    = Some (sd', partial_tensor_list) →
  for_each (resolve_owner (all_gather_object group)) partial_tensor_list (∅, ∅)
    = Some (send_table, recv_table) →
  ∀ name, name ∈ partial_tensor_list →
    ∃ plan begin end_,
      send_table !! name = Some plan ∧ (global_rank, begin, end_) ∈ plan ∧
      param_slice_info !! name = Some (SliceRange begin end_) ∧ begin < end_.
Proof.
  intros bufs slice_info shape_info Hmember Hclass Hresolve name Hname.
  destruct (classify_loop_partial _ _ _ _ _ _ Hclass name Hname) as (b & e & Hslice & Hlt).
  pose proof (resolve_loop_lookup _ _ _ _ name Hresolve) as Hlook.
  rewrite decide_True in Hlook by done.
  destruct Hlook as (rank & b0 & e0 & rest & _ & Hsend & _). simpl in Hsend.
  exists (holders name group), b, e. split; [done|]. split; [|done].
  apply (holders_elem_of name group (mkPeer global_rank bufs)); [done| |done].
  unfold peer_slice. simpl. fold slice_info. by rewrite Hslice.
Qed.
End lister_in_plan.

Section lister_in_plan_example.
#[local] Existing Instance Examples.Z_backend.
#[local] Existing Instance Examples.slash_utils.
Import Examples.

Lemma lister_is_in_plan_witness :
  ∃ plan begin end_,
    ({[ "w" := [(0, 0, 6); (1, 6, 12)] ]} : gmap string SendInfo) !! "w" = Some plan ∧
    (0, begin, end_) ∈ plan ∧
    local_slice_info 0 (_comm_buffer_list optimizer_rank0) !! "w"
      = Some (SliceRange begin end_) ∧
    begin < end_.
Proof.
  apply (lister_is_in_plan w_group 0 optimizer_rank0 sd_rank0 ["w"]
           {[ "w" := [(0, 0, 6); (1, 6, 12)] ]} {[ "w" := 0 ]}).
  - by left.
  - vm_compute. reflexivity.
  - vm_compute. reflexivity.
  - by left.
Defined.
End lister_in_plan_example.


(** ** Expected keys are split without a lookup failing *)

Lemma split_slash_nonempty (s : string) : split_slash s ≠ [].
Proof.
  induction s as [|c s IH]; [done|]. simpl. case_decide; [done|].
  by destruct (split_slash s).
Qed.

(** [(x + "/" + y).split("/")] is [x.split("/") + y.split("/")]. *)
Lemma split_slash_join (x y : string) :
  split_slash (slash_join x y) = split_slash x ++ split_slash y.
Proof.
  unfold slash_join. induction x as [|c x IH].
  { change (EmptyString +:+ String slash y) with (String slash y).
    simpl. by rewrite ?decide_True. }
  change (String c x +:+ String slash y) with (String c (x +:+ String slash y)).
  simpl. rewrite IH. case_decide; [done|].
  pose proof (split_slash_nonempty x). by destruct (split_slash x).
Qed.

Section expected_keys_reshape.
Context `{Backend} `{Utils}.
Implicit Types (sd : StateDict) (cur t : Tensor).

(** X22. No lookup of [reshape_params] fails at an expected key.  Take a
    static name that [get_params_info] lists in [expected_keys], the
    structural name the model maps it to, free of slashes, and any
    accumulator name.  The optimizer key [struct/typename] built from them
    at line 261 is split back to [struct] at line 210, the mappings return
    the static name, both catalogs hold it, and the loop body of
    [reshape_params] succeeds on the entry, whatever tensor it holds. *)
Theorem expected_key_is_reshaped (model_state_dict : StateDict)
    (comm_buffer_list : list CommBuffer) (name struct typename : string)
    (sd : StateDict) (cur : Tensor) :
  NoDup (od_keys model_state_dict) →
  name ∈ (get_params_info comm_buffer_list).1.1 →
  static2struct model_state_dict !! name = Some struct →
  split_slash struct = [struct] →
  od_get sd (slash_join struct typename) = Some cur →
  struct_name_of (slash_join struct typename) = struct ∧
  struct2static model_state_dict !! struct = Some name ∧
  is_Some ((get_params_info comm_buffer_list).1.2 !! name) ∧
  is_Some ((get_params_info comm_buffer_list).2 !! name) ∧
  is_Some (reshape_entry (struct2static model_state_dict)
             (get_params_info comm_buffer_list).2
             (get_params_info comm_buffer_list).1.2
             (slash_join struct typename) sd).
Proof.
  intros Hnd Hname Hstruct Hslash Hcur.
  assert (struct_name_of (slash_join struct typename) = struct) as Hkey.
  { unfold struct_name_of. by rewrite split_slash_join, Hslash. }
  assert (struct2static model_state_dict !! struct = Some name) as Hstatic.
  { apply static2struct_Some in Hstruct as (v & Hin & <-).
    by apply struct2static_elem_of. }
  destruct (get_params_info_lookup comm_buffer_list name) as [Hsl Hsh].
  rewrite get_params_info_held in Hname. simpl in Hname.
  apply od_get_reverse_is_Some in Hname as [v Hv].
  rewrite Hv in Hsl, Hsh. simpl in Hsl, Hsh.
  split; [done|]. split; [done|]. split; [by rewrite Hsl|]. split; [by rewrite Hsh|].
  unfold reshape_entry. rewrite Hcur, Hkey, Hstatic. simpl.
  case_bool_decide; [|done].
  destruct (reshape_param_Some _ _ name cur _ _ _ _ _ _ Hsl Hsh) as (t & -> & _).
  done.
Qed.
End expected_keys_reshape.

Section expected_keys_reshape_example.
#[local] Existing Instance Examples.Z_backend.
#[local] Existing Instance Examples.slash_utils.
Import Examples.

Lemma expected_key_is_reshaped_witness :
  is_Some (reshape_entry (struct2static bf16_model)
             (get_params_info [[("w", w_view 6 12)]]).2
             (get_params_info [[("w", w_view 6 12)]]).1.2
             (slash_join "linear.weight" "moment1_0") optimizer_file_rank1).
Proof.
  apply (expected_key_is_reshaped bf16_model [[("w", w_view 6 12)]] "w"
           "linear.weight" "moment1_0" optimizer_file_rank1
           (with_shape (vec float32 [1; 2; 3; 4; 5; 6; 7; 8; 9; 10]) [2; 5])).
  - decide_by_compute.
  - by left.
  - vm_compute. reflexivity.
  - vm_compute. reflexivity.
  - vm_compute. reflexivity.
Defined.
End expected_keys_reshape_example.


(** ** Whole parameters through the gather *)

Section gather_whole.
Context `{Backend} `{Utils}.
Implicit Types (cur t : Tensor) (sd : StateDict) (net : Net).

(** The classification loop touches the state dict at its own key only. *)
Lemma classify_entry_touched (param_slice_info : gmap string SliceEntry)
    (param_shape_info : gmap string ShapeInfo) key sd pl sd' pl' :
  classify_entry param_slice_info param_shape_info key (sd, pl) = Some (sd', pl') →
  od_touched key sd sd'.
Proof.
  unfold classify_entry. intros Hrun.
  destruct (param_slice_info !! _) as [entry|]; [|injection Hrun as <- <-; by left].
  destruct (od_get sd key) as [c|] eqn:Hc; simpl in Hrun; [|done].
  case_bool_decide; [injection Hrun as <- <-; by left|].
  destruct (as_range entry) as [[b e]|]; simpl in Hrun; [|done].
  destruct (param_shape_info !! _) as [[[[shape n] i] p]|]; simpl in Hrun; [|done].
  repeat case_bool_decide; try (injection Hrun as <- <-; by left).
  destruct (reshape c shape) as [t|]; simpl in Hrun; [|done].
  injection Hrun as <- <-. right. left. split; [|eauto].
  apply od_get_is_Some. eauto.
Qed.

(** A name is listed as partial only with a slice that is not the whole
    parameter. *)
Lemma classify_loop_proper (param_slice_info : gmap string SliceEntry)
    (param_shape_info : gmap string ShapeInfo) ks sd sd' l' :
  for_each (classify_entry param_slice_info param_shape_info) ks (sd, [])
    = Some (sd', l') →
  (NoDup (od_keys sd) → NoDup (od_keys sd')) ∧
  ∀ name, name ∈ l' →
    ∃ b e shape n i p, param_slice_info !! name = Some (SliceRange b e) ∧
      param_shape_info !! name = Some (shape, n, i, p) ∧ e - b ≠ n.
Proof.
  intros Hrun.
  refine (for_each_invariant
            (λ st, (NoDup (od_keys sd) → NoDup (od_keys st.1)) ∧
               ∀ name, name ∈ st.2 →
                 ∃ b e shape n i p, param_slice_info !! name = Some (SliceRange b e) ∧
                   param_shape_info !! name = Some (shape, n, i, p) ∧ e - b ≠ n)
            _ _ (sd, []) (sd', l') _ _ Hrun).
  - intros key [s pl] [s' pl'] _ [Hnd Hinv] Hstep. simpl in *. split.
    { intros Hd. eapply od_touched_NoDup; [|by apply Hnd].
      by eapply classify_entry_touched. }
    unfold classify_entry in Hstep.
    destruct (param_slice_info !! _) as [entry|] eqn:Hentry;
      [|by injection Hstep as <- <-].
    destruct (od_get s key) as [c|]; simpl in Hstep; [|done].
    case_bool_decide; [by injection Hstep as <- <-|].
    destruct entry as [b e|r]; simpl in Hstep; [|done].
    destruct (param_shape_info !! _) as [[[[shape n] i] p]|] eqn:Hshape;
      simpl in Hstep; [|done].
    case_bool_decide.
    { destruct (reshape c shape); simpl in Hstep; [|done].
      by injection Hstep as <- <-. }
    case_bool_decide; [by injection Hstep as <- <-|].
    injection Hstep as <- <-. intros name [Hin|Hin]%elem_of_app; [by apply Hinv|].
    apply list_elem_of_singleton in Hin as ->. by exists b, e, shape, n, i, p.
  - split; [done|]. simpl. by intros name ?%elem_of_nil.
Qed.

(** X23. What the gather returns for a parameter the rank holds whole.  For
    an optimizer-state key of other than one element whose parameter has
    [end - begin == numel] on the rank, and whose logical shape has positive
    dimensions and as many elements as the tensor, a successful
    [gather_splited_param_for_optimizer] returns under the key a tensor of
    the logical shape of the parameter with the elements and the dtype of the
    tensor it held: the entry is reshaped by the classification loop and
    again by [merge_splited_param], it is never sent, and it is not removed
    under any [ckpt_quant_stage].  (The name of the result is the one the
    framework gives to the output of [reshape]; nothing is said about it.) *)
Theorem gather_reshapes_whole_parameter (group : list Peer) (global_rank : Z)
    (optimizer : Optimizer) (ckpt_quant_stage : string) (net : Net)
    (optim_state_dict : StateDict) (returned_master_weights : option StateDict)
    (net' : Net) (key : string) (cur : Tensor) (begin end_ : Z)
    (shape : list Z) (n i p : Z) :
  let comm_buffer_list := _comm_buffer_list optimizer in
  let static_name := (generate_base_static_name key).1 in
  NoDup (od_keys (entries (state_dict optimizer))) →
  od_get (entries (state_dict optimizer)) key = Some cur → numel cur ≠ 1 →
  local_slice_info global_rank comm_buffer_list !! static_name
    = Some (SliceRange begin end_) →
  (collect_slice_info comm_buffer_list).2 !! static_name = Some (shape, n, i, p) →
  end_ - begin = n →
  Forall (λ d, 0 < d) shape → prodZ shape = numel cur →
  gather_splited_param_for_optimizer group global_rank optimizer ckpt_quant_stage net
    = Some (optim_state_dict, returned_master_weights, net') →
  ∃ t, od_get optim_state_dict key = Some t ∧
    t_shape t = shape ∧ t_dtype t = t_dtype cur ∧ t_data t = t_data cur.
Proof.
  intros bufs static_name Hnd Hcur Hbig Hslice Hshape Hwhole Hpos Hprod.
  unfold gather_splited_param_for_optimizer. fold bufs. intros Hrun.
  exists (with_shape cur shape). split; [|done].
  destruct (for_each (classify_entry _ _) _ _) as [[sd1 pl]|] eqn:Hclass; [|done].
  cbn -[merge_splited_param] in Hrun.
  destruct (for_each (resolve_owner _) _ _) as [[send_table recv_table]|]; [|done].
  cbn -[merge_splited_param] in Hrun.
  destruct (merge_splited_param _ _ _ _ _ false _ _ _) as [[sd2 net2]|] eqn:Hm1;
    [|done].
  cbn -[merge_splited_param] in Hrun.
  assert (optim_state_dict = sd2) as ->.
  { destruct (master_weights (state_dict optimizer)) as [mw|].
    - destruct (merge_splited_param _ _ _ _ _ true _ _ _) as [[mw' net3]|]; [|done].
      by injection Hrun as <- _ _.
    - by injection Hrun as <- _ _. }
  clear Hrun.
  destruct (classify_loop_proper _ _ _ _ _ _ Hclass) as [Hnd1 Hproper].
  specialize (Hnd1 Hnd).
  assert (static_name ∉ pl) as Hnotpartial.
  { intros (b & e & shape' & n' & i' & p' & Hs & Hsh & Hne)%Hproper.
    rewrite Hslice in Hs. rewrite Hshape in Hsh.
    injection Hs as <- <-. injection Hsh as _ <- _ _. done. }
  assert (od_get sd1 key = Some (with_shape cur shape)) as Hcur1.
  { destruct (for_each_focus (λ st k, od_get st.1 k)
                (classify_entry (local_slice_info global_rank bufs)
                   (collect_slice_info bufs).2)
                (od_keys (entries (state_dict optimizer))))
      with (s := (entries (state_dict optimizer), @nil string)) (s' := (sd1, pl))
           (k := key) as [_ Hin]; [|done..|].
    { intros k [s l0] [s' l1] k' Hb Hne. simpl.
      eapply od_touched_other; [|done]. by eapply classify_entry_touched. }
    destruct Hin as ([s1 l1] & [s2 l2] & Hlook & Hb & Hres).
    { apply od_get_is_Some. eauto. }
    simpl in *. rewrite Hres. unfold classify_entry in Hb.
    fold static_name in Hb. rewrite Hslice, Hlook, Hcur in Hb. simpl in Hb.
    rewrite bool_decide_eq_false_2 in Hb by done. rewrite Hshape in Hb. simpl in Hb.
    rewrite bool_decide_eq_true_2 in Hb by done.
    rewrite reshape_pos in Hb by done. simpl in Hb.
    injection Hb as <- _. by rewrite od_get_set_eq. }
  destruct (merge_splited_param_at _ _ _ _ _ _ _ _ _ _ _ _ _ Hnd1 Hcur1 Hm1)
    as (o & Hout & Hget).
  assert (o = Some (with_shape cur shape)) as ->.
  { inversion Hout as [Hone|shape' n' i' p' t _ Hsh _ Ht| | |]; subst;
      try done.
    simpl in Hsh. fold static_name in Hsh. rewrite Hshape in Hsh.
    injection Hsh as <- <- <- <-.
    rewrite reshape_pos in Ht by done. by injection Ht as <-. }
  rewrite Hget. case_bool_decide; [|done]. simpl.
  unfold scalar_dropped. rewrite (bool_decide_eq_false_2 (numel _ = 1)); done.
Qed.
End gather_whole.

Section gather_whole_example.
#[local] Existing Instance Examples.Z_backend.
#[local] Existing Instance Examples.slash_utils.
Import Examples.

Lemma gather_reshapes_whole_parameter_witness :
  ∃ osd mw net',
    gather_splited_param_for_optimizer [mkPeer 0 [[("w", w_view 0 10)]]] 0
      optimizer_whole "O1" empty_net = Some (osd, mw, net') ∧
    ∃ t, od_get osd "w/moment1_0" = Some t ∧
      t_shape t = [2; 5] ∧ t_dtype t = float32 ∧
      t_data t = [1; 2; 3; 4; 5; 6; 7; 8; 9; 10].
Proof.
  destruct (gather_splited_param_for_optimizer [mkPeer 0 [[("w", w_view 0 10)]]] 0
              optimizer_whole "O1" empty_net) as [[[osd mw] net']|] eqn:Hrun.
  - exists osd, mw, net'. split; [reflexivity|].
    apply (gather_reshapes_whole_parameter [mkPeer 0 [[("w", w_view 0 10)]]] 0
             optimizer_whole "O1" empty_net osd mw net' "w/moment1_0"
             (vec float32 [1; 2; 3; 4; 5; 6; 7; 8; 9; 10]) 0 10 [2; 5] 10 0 12
             ltac:(decide_by_compute) ltac:(vm_compute; reflexivity)
             ltac:(vm_compute; discriminate) ltac:(vm_compute; reflexivity)
             ltac:(vm_compute; reflexivity) ltac:(reflexivity)
             ltac:(repeat constructor) ltac:(reflexivity) Hrun).
  - exfalso. vm_compute in Hrun. discriminate Hrun.
Defined.
End gather_whole_example.


(** ** Master weights on the load path: what is stored *)

Section od_set_some.
Context {V : Type}.
Implicit Types (d : list (string * V)) (k : string) (v : V).

Lemma od_get_set_is_Some d k v k' :
  is_Some (od_get d k') → is_Some (od_get (od_set d k v) k').
Proof.
  intros Hk. destruct (decide (k = k')) as [->|Hne].
  - rewrite od_get_set_eq. eauto.
  - by rewrite od_get_set_ne.
Qed.
End od_set_some.

Section stored_master_weights.
Context `{Backend} `{Utils}.
Implicit Types (sd : StateDict) (cur t : Tensor).

(** The loop of the unified loader stores an entry for every key it
    visits. *)
Lemma store_master_weight_loop_stored (s2s : gmap string string) ks st st' :
  for_each (store_master_weight s2s) ks st = Some st' →
  (∀ name, is_Some (od_get st.2 name) → is_Some (od_get st'.2 name)) ∧
  ∀ key, key ∈ ks →
    ∃ static_name, s2s !! key = Some static_name ∧
      is_Some (od_get st'.2 static_name).
Proof.
  revert st. induction ks as [|k ks IH]; intros [sd ret] Hrun; cbn [for_each] in Hrun.
  { injection Hrun as <-. split; [done|]. by intros key ?%elem_of_nil. }
  destruct (store_master_weight s2s k (sd, ret)) as [[sd1 ret1]|] eqn:Hstep; [|done].
  destruct (IH _ Hrun) as [Hmono Hall]. simpl in *.
  unfold store_master_weight in Hstep.
  destruct (od_get sd k) as [cur|]; simpl in Hstep; [|done].
  destruct (od_pop _ k) as [[popped sd2]|]; simpl in Hstep; [|done].
  destruct (s2s !! k) as [static_name|] eqn:Hs; simpl in Hstep; [|done].
  injection Hstep as <- <-. split.
  - intros name Hname. apply Hmono. by apply od_get_set_is_Some.
  - intros key [->|Hin]%elem_of_cons; [|by apply Hall].
    exists static_name. split; [done|]. apply Hmono. rewrite od_get_set_eq. eauto.
Qed.

(** So does the loop of the non-merged loader. *)
Lemma rename_master_weight_loop_stored (s2s : gmap string string) ks st st' :
  for_each (rename_master_weight s2s) ks st = Some st' →
  (∀ name, is_Some (od_get st.2 name) → is_Some (od_get st'.2 name)) ∧
  ∀ key, key ∈ ks →
    ∃ static_name, s2s !! key = Some static_name ∧
      is_Some (od_get st'.2 static_name).
Proof.
  revert st. induction ks as [|k ks IH]; intros [sd ret] Hrun; cbn [for_each] in Hrun.
  { injection Hrun as <-. split; [done|]. by intros key ?%elem_of_nil. }
  destruct (rename_master_weight s2s k (sd, ret)) as [[sd1 ret1]|] eqn:Hstep; [|done].
  destruct (IH _ Hrun) as [Hmono Hall]. simpl in *.
  unfold rename_master_weight in Hstep.
  destruct (s2s !! k) as [static_name|] eqn:Hs; simpl in Hstep; [|done].
  destruct (od_pop sd k) as [[popped sd2]|]; simpl in Hstep; [|done].
  injection Hstep as <- <-. split.
  - intros name Hname. apply Hmono. by apply od_get_set_is_Some.
  - intros key [->|Hin]%elem_of_cons; [|by apply Hall].
    exists static_name. split; [done|]. apply Hmono. rewrite od_get_set_eq. eauto.
Qed.

(** Without a master-weight file, the renaming loop of the non-merged loader
    makes a master weight for the parameter of every key it visits. *)
Lemma rename_loop_synthesized (model_state_dict : StateDict)
    (s2s : gmap string string) ks (st st' : StateDict * StateDict * StateDict) :
  for_each (rename_entry model_state_dict s2s false false) ks st = Some st' →
  (∀ k, is_Some (od_get st.2 k) → is_Some (od_get st'.2 k)) ∧
  ∀ key, key ∈ ks → is_Some (od_get st'.2 (struct_name_of key)).
Proof.
  revert st. induction ks as [|k ks IH]; intros [[sd ret] mw] Hrun; cbn [for_each] in Hrun.
  { injection Hrun as <-. split; [done|]. by intros key ?%elem_of_nil. }
  destruct (rename_entry model_state_dict s2s false false k (sd, ret, mw))
    as [[[sd1 ret1] mw1]|] eqn:Hstep; [|done].
  destruct (IH _ Hrun) as [Hmono Hall]. simpl in *.
  unfold rename_entry in Hstep.
  destruct (split_slash k !! 0%nat) as [model_weight_key|] eqn:Hhead;
    simpl in Hstep; [|done].
  destruct (s2s !! model_weight_key) as [static_name|]; simpl in Hstep; [|done].
  destruct (od_get model_state_dict model_weight_key) as [param|];
    simpl in Hstep; [|done].
  destruct (split_slash k !! 1%nat) as [typename|]; simpl in Hstep; [|done].
  assert (struct_name_of k = model_weight_key) as Hstruct.
  { unfold struct_name_of. destruct (split_slash k); [done|].
    simpl in *. by injection Hhead as ->. }
  destruct (bool_decide (t_dtype param ≠ float32)); simpl in Hstep.
  all: destruct (od_pop sd k) as [[popped sd2]|]; simpl in Hstep; [|done].
  all: injection Hstep as <- <- <-.
  all: split; [intros k' Hk'; apply Hmono; by apply od_get_set_is_Some|].
  all: intros key [->|Hin]%elem_of_cons; [|by apply Hall].
  all: apply Hmono; rewrite Hstruct, od_get_set_eq; eauto.
Qed.

Lemma pull_from_file_NoDup (unfound_keys : list string) sd fin :
  NoDup (od_keys sd) → NoDup (od_keys (pull_from_file unfound_keys sd fin)).
Proof.
  unfold pull_from_file. revert sd.
  induction unfound_keys as [|k ks IH]; intros sd Hnd; simpl; [done|].
  apply IH. destruct (od_get fin k); [by apply od_keys_set_NoDup|done].
Qed.

Lemma get_unfound_params_NoDup (resume_from_checkpoint : Directory)
    (optimizer_name master_weights_name : string) (unfound_keys : list string)
    sd (is_optimizer : bool) :
  NoDup (od_keys sd) →
  NoDup (od_keys (get_unfound_params resume_from_checkpoint optimizer_name
                    master_weights_name unfound_keys sd is_optimizer)).
Proof.
  intros Hnd. unfold get_unfound_params. case_bool_decide; [|done].
  generalize (filter
    (λ f, is_backup_file (if is_optimizer then optimizer_name else master_weights_name)
            (if is_optimizer then "optimizer" else "master_weights") f.1 = true)
    resume_from_checkpoint).
  intros files. revert sd Hnd.
  induction files as [|f files IH]; intros sd Hnd; simpl; [done|].
  apply IH. by apply pull_from_file_NoDup.
Qed.

(** Every tensor the fallback scan returns was in the state dict or is in a
    file of the directory. *)
Lemma get_unfound_params_from (resume_from_checkpoint : Directory)
    (optimizer_name master_weights_name : string) (unfound_keys : list string)
    sd (is_optimizer : bool) key t :
  od_get (get_unfound_params resume_from_checkpoint optimizer_name
            master_weights_name unfound_keys sd is_optimizer) key = Some t →
  od_get sd key = Some t ∨
  ∃ f, f ∈ resume_from_checkpoint ∧ od_get f.2 key = Some t.
Proof.
  unfold get_unfound_params. case_bool_decide; [|by left].
  set (files := filter _ resume_from_checkpoint). intros Hget.
  destruct (pull_from_files_lookup unfound_keys files sd key)
    as [[Heq _]|(_ & f & t' & Hf & Hft & Hres)]; simpl in *.
  - left. by rewrite <-Heq.
  - right. exists f. split.
    + unfold files in Hf. by apply list_elem_of_filter in Hf as [_ ?].
    + congruence.
Qed.

(** The master weights [rename_and_store] returns outside AMP O1, when the
    directory has a master-weight file: every one of them is a loaded tensor
    cut to the local slice, with the dtype it was loaded with. *)
Lemma rename_and_store_loaded (model_state_dict : StateDict)
    (s2s : gmap string string) (param_shape_info : gmap string ShapeInfo)
    (param_slice_info : gmap string (Z * Z))
    (returned : OptimizerState) (optsd mw0 : StateDict) (r : OptimizerState) :
  NoDup (od_keys mw0) →
  rename_and_store model_state_dict s2s param_shape_info param_slice_info false
    true returned optsd mw0 = Some r →
  ∃ mw, master_weights r = Some mw ∧
    ∀ static_name t, od_get mw static_name = Some t →
      ∃ key cur, s2s !! key = Some static_name ∧ od_get mw0 key = Some cur ∧
        t_dtype t = t_dtype cur.
Proof.
  unfold rename_and_store. intros Hnd0 Hrun.
  destruct (reshape_params s2s param_shape_info param_slice_info optsd)
    as [optsd1|]; simpl in Hrun; [|done].
  destruct (for_each _ _ _) as [[[optsd2 ret] mw1]|] eqn:Hrename;
    simpl in Hrun; [|done].
  destruct (reshape_params s2s param_shape_info param_slice_info mw1)
    as [mw2|] eqn:Hreshape; simpl in Hrun; [|done].
  destruct (for_each _ (od_keys mw2) _) as [[mw3 rmw]|] eqn:Hstore;
    simpl in Hrun; [|done].
  injection Hrun as <-. simpl. exists rmw. split; [done|].
  intros static_name t Ht.
  destruct (rename_master_weight_loop _ _ _ _ _ Hstore _ _ Ht)
    as (key & v & Hs & Hv & ->).
  destruct (rename_loop_master_weights _ _ _ _ _ _ _ _ _ _ Hrename) as [Hnd Hfrom].
  specialize (Hnd Hnd0).
  assert (key ∈ od_keys mw1) as Hkey.
  { rewrite <-(reshape_params_same_keys _ _ _ _ _ Hreshape).
    apply od_get_is_Some. eauto. }
  apply od_get_is_Some in Hkey as [v1 Hv1].
  destruct (Hfrom key v1 Hv1) as [Hloaded|[? _]]; [|done].
  exists key, v1. split; [done|]. split; [done|]. simpl.
  rewrite (reshape_params_at _ _ _ _ _ _ _ Hnd Hv1 Hreshape) in Hv.
  case_bool_decide; [|by injection Hv as <-].
  by rewrite (reshape_param_dtype _ _ _ _ _ Hv).
Qed.

(** Without a master-weight file, [rename_and_store] returns a master weight
    for the parameter of every loaded optimizer key. *)
Lemma rename_and_store_synthesized (model_state_dict : StateDict)
    (s2s : gmap string string) (param_shape_info : gmap string ShapeInfo)
    (param_slice_info : gmap string (Z * Z))
    (returned : OptimizerState) (optsd mw0 : StateDict) (r : OptimizerState) :
  rename_and_store model_state_dict s2s param_shape_info param_slice_info false
    false returned optsd mw0 = Some r →
  ∃ mw, master_weights r = Some mw ∧
    ∀ key, key ∈ od_keys optsd →
      ∃ static_name, s2s !! struct_name_of key = Some static_name ∧
        is_Some (od_get mw static_name).
Proof.
  unfold rename_and_store. intros Hrun.
  destruct (reshape_params s2s param_shape_info param_slice_info optsd)
    as [optsd1|] eqn:Hreshape1; simpl in Hrun; [|done].
  destruct (for_each _ _ _) as [[[optsd2 ret] mw1]|] eqn:Hrename;
    simpl in Hrun; [|done].
  destruct (reshape_params s2s param_shape_info param_slice_info mw1)
    as [mw2|] eqn:Hreshape; simpl in Hrun; [|done].
  destruct (for_each _ (od_keys mw2) _) as [[mw3 rmw]|] eqn:Hstore;
    simpl in Hrun; [|done].
  injection Hrun as <-. simpl. exists rmw. split; [done|].
  intros key Hkey.
  rewrite <-(reshape_params_same_keys _ _ _ _ _ Hreshape1) in Hkey.
  destruct (rename_loop_synthesized _ _ _ _ _ Hrename) as [_ Hsynth].
  specialize (Hsynth key Hkey). simpl in Hsynth.
  apply od_get_is_Some in Hsynth.
  rewrite <-(reshape_params_same_keys _ _ _ _ _ Hreshape) in Hsynth.
  destruct (rename_master_weight_loop_stored _ _ _ _ Hstore) as [_ Hall].
  by apply Hall.
Qed.
End stored_master_weights.

(** C9, as the code has it.  On the unified load path every master weight
    the loader read is stored, and every stored master weight is the
    reconstructed entry, cast to float32 when its dtype is not float32, so
    its dtype is float32, and its name is its static name joined with
    [FP32_MASTER].  On the non-merged load path outside AMP O1 every stored
    master weight is named the same way.  When the directory has no
    master-weight file, a master weight is stored for the parameter of every
    key of the optimizer file, and every master weight is the cast to
    float32 of the model parameter of its key, cut to the local slice.  When
    the directory has a master-weight file, lines 467-474 do not cast: every
    stored master weight has the dtype of the tensor of a file of the
    directory it was loaded from. *)
Theorem master_weights_cast_and_named `{Backend} `{Utils} :
  (∀ (model_state_dict : StateDict) (comm_buffer_list : list CommBuffer)
     (state_dict_master_weight mw : StateDict),
     load_unified_master_weights model_state_dict comm_buffer_list
       state_dict_master_weight = Some mw →
     ∃ reshaped,
       reshape_params (struct2static model_state_dict)
         (get_params_info comm_buffer_list).2
         (get_params_info comm_buffer_list).1.2 state_dict_master_weight
       = Some reshaped ∧
       (∀ key, key ∈ od_keys state_dict_master_weight →
          ∃ static_name, struct2static model_state_dict !! key = Some static_name ∧
            is_Some (od_get mw static_name)) ∧
       ∀ static_name t, od_get mw static_name = Some t →
         t_dtype t = float32 ∧
         t_name t = join_underscore [static_name; FP32_MASTER] ∧
         ∃ key cur,
           od_get reshaped key = Some cur ∧
           struct2static model_state_dict !! key = Some static_name ∧
           t = with_name
                 (if bool_decide (t_dtype cur ≠ float32) then cast cur float32 else cur)
                 (join_underscore [static_name; FP32_MASTER])) ∧
  (∀ (resume_from_checkpoint : Directory) (optimizer_name master_weights_name : string)
     (model_state_dict : StateDict) (comm_buffer_list : list CommBuffer)
     (sharding_typename_set : list (list string))
     (returned_optim_state_dict r : OptimizerState),
     load_non_merge_optimizer_with_split_param resume_from_checkpoint optimizer_name
       master_weights_name false model_state_dict comm_buffer_list
       sharding_typename_set returned_optim_state_dict = Some r →
     ∃ mw, master_weights r = Some mw ∧
       (∀ static_name t, od_get mw static_name = Some t →
          t_name t = join_underscore [static_name; FP32_MASTER] ∧
          (od_mem resume_from_checkpoint master_weights_name = false →
           t_dtype t = float32 ∧
           ∃ key param v,
             od_get model_state_dict key = Some param ∧
             struct2static model_state_dict !! key = Some static_name ∧
             (if bool_decide (numel (cast param float32) > 1)
              then reshape_param (get_params_info comm_buffer_list).2
                     (get_params_info comm_buffer_list).1.2
                     (struct2static model_state_dict !! struct_name_of key)
                     (cast param float32)
              else Some (cast param float32)) = Some v ∧
             t = with_name v (join_underscore [static_name; FP32_MASTER])) ∧
          (od_mem resume_from_checkpoint master_weights_name = true →
           (∀ f, f ∈ resume_from_checkpoint → NoDup (od_keys f.2)) →
           ∃ f key cur,
             f ∈ resume_from_checkpoint ∧ od_get f.2 key = Some cur ∧
             struct2static model_state_dict !! key = Some static_name ∧
             t_dtype t = t_dtype cur)) ∧
       (od_mem resume_from_checkpoint master_weights_name = false →
        ∀ optimizer_state_dict key,
          od_get resume_from_checkpoint optimizer_name = Some optimizer_state_dict →
          key ∈ od_keys optimizer_state_dict →
          ∃ static_name,
            struct2static model_state_dict !! struct_name_of key = Some static_name ∧
            is_Some (od_get mw static_name))).
Proof.
  split.
  - intros model_state_dict comm_buffer_list loaded mw Hrun.
    unfold load_unified_master_weights in Hrun.
    destruct (get_params_info comm_buffer_list) as [[ek sl] sh]. simpl.
    destruct (reshape_params _ sh sl loaded) as [reshaped|] eqn:Hreshape;
      simpl in Hrun; [|done].
    destruct (for_each _ _ _) as [[sd' ret]|] eqn:Hstore; simpl in Hrun; [|done].
    injection Hrun as <-. exists reshaped. split; [done|]. split.
    + intros key Hkey.
      rewrite <-(reshape_params_same_keys _ _ _ _ _ Hreshape) in Hkey.
      destruct (store_master_weight_loop_stored _ _ _ _ Hstore) as [_ Hall].
      by apply Hall.
    + intros static_name t Ht.
      destruct (store_master_weight_loop _ _ _ _ _ Hstore _ _ Ht)
        as (key & cur & Hs & Hcur & ->).
      split; [apply to_float32_dtype|]. split; [done|].
      by exists key, cur.
  - intros dir oname mname model_state_dict comm_buffer_list typenames returned r Hrun.
    unfold load_non_merge_optimizer_with_split_param in Hrun.
    destruct (get_params_info comm_buffer_list) as [[ek sl] sh]. simpl.
    destruct (od_get dir oname) as [optsd|] eqn:Hopt; simpl in Hrun; [|done].
    destruct (mapM _ _) as [typs|]; simpl in Hrun; [|done].
    destruct (od_mem dir mname) eqn:Hfile; simpl in Hrun.
    + destruct (od_get dir mname) as [mw0|] eqn:Hmw0; simpl in Hrun; [|done].
      assert (Hrun' := Hrun).
      apply rename_and_store_master_weights in Hrun as (mw & Hmw & Hall).
      exists mw. split; [done|]. split; [|done].
      intros static_name t Ht.
      destruct (Hall static_name t Ht) as [Hname _].
      split; [done|]. split; [done|]. intros _ Hnd.
      apply rename_and_store_loaded in Hrun' as (mw' & Hmw' & Hloaded).
      2:{ case_bool_decide.
          - apply get_unfound_params_NoDup. apply (Hnd (mname, mw0)).
            by apply od_get_elem_of.
          - apply (Hnd (mname, mw0)). by apply od_get_elem_of. }
      rewrite Hmw in Hmw'. injection Hmw' as <-.
      destruct (Hloaded static_name t Ht) as (key & cur & Hs & Hcur & Hdt).
      assert (od_get mw0 key = Some cur ∨
              ∃ f, f ∈ dir ∧ od_get f.2 key = Some cur) as [Hprim|(f & Hf & Hft)].
      { case_bool_decide; [|by left]. by eapply get_unfound_params_from. }
      * exists (mname, mw0), key, cur. split; [by apply od_get_elem_of|done].
      * by exists f, key, cur.
    + assert (Hrun' := Hrun).
      apply rename_and_store_master_weights in Hrun as (mw & Hmw & Hall).
      exists mw. split; [done|]. split.
      * intros static_name t Ht.
        destruct (Hall static_name t Ht) as [Hname Hsynth].
        split; [done|]. split; [|done]. intros _. by apply Hsynth.
      * intros _ optsd' key [= <-] Hkey.
        apply rename_and_store_synthesized in Hrun' as (mw' & Hmw' & Hstored).
        rewrite Hmw in Hmw'. injection Hmw' as <-.
        apply Hstored. by apply get_unfound_params_keeps.
Qed.

Section master_weights_example.
#[local] Existing Instance Examples.Z_backend.
#[local] Existing Instance Examples.slash_utils.
Import Examples.

(** Rank 1 of the scenario loads a checkpoint without master weights: the
    master weight of [w] is made from the bfloat16 parameter. *)
Lemma master_weights_cast_and_named_witness :
  ∃ r mw t,
    load_non_merge_optimizer_with_split_param optimizer_only_dir
      "optimizer.safetensors" "master_weights.safetensors" false bf16_model
      [[("w", w_view 6 12)]] [["moment1_0"]] (mkOptimizerState [] None false)
    = Some r ∧
    master_weights r = Some mw ∧ od_get mw "w" = Some t ∧
    t_name t = "w_fp32_master_0" ∧ t_dtype t = float32 ∧
    t_data t = [7; 8; 9; 10; 0; 0].
Proof.
  destruct (load_non_merge_optimizer_with_split_param optimizer_only_dir
              "optimizer.safetensors" "master_weights.safetensors" false bf16_model
              [[("w", w_view 6 12)]] [["moment1_0"]]
              (mkOptimizerState [] None false)) as [r|] eqn:Hrun.
  - destruct (@master_weights_cast_and_named Z_backend slash_utils) as [_ Hnon].
    destruct (Hnon _ _ _ _ _ _ _ _ Hrun) as (mw & Hmw & Hall & _).
    vm_compute in Hrun. injection Hrun as <-. vm_compute in Hmw.
    injection Hmw as <-.
    eexists _, _, _. split; [reflexivity|]. split; [reflexivity|].
    split; [reflexivity|].
    edestruct (Hall "w") as (Hname & Hsynth & _); [reflexivity|].
    split; [exact Hname|]. split; [|reflexivity].
    apply Hsynth. reflexivity.
  - vm_compute in Hrun. discriminate.
Defined.

(** C9 as stated fails on the non-merged load path when the directory has a
    master-weight file: lines 467-474 cut the loaded tensor to the local
    slice and rename it, and nothing casts it.  A master weight stored in
    bfloat16 comes back in bfloat16 under the name of a float32 master
    weight. *)
Lemma non_merge_master_weight_not_cast :
  ∃ r mw t,
    load_non_merge_optimizer_with_split_param unified_dir
      "optimizer-00001-of-00001.safetensors"
      "master_weights-00001-of-00001.safetensors" false bf16_model
      [[("w", w_view 6 12)]] [["moment1_0"]] (mkOptimizerState [] None false)
    = Some r ∧
    master_weights r = Some mw ∧ od_get mw "w" = Some t ∧
    t_name t = "w_fp32_master_0" ∧ t_dtype t = bfloat16 ∧ t_dtype t ≠ float32.
Proof.
  eexists _, _, _. split; [vm_compute; reflexivity|].
  split; [reflexivity|]. split; [reflexivity|].
  split; [reflexivity|]. split; [reflexivity|]. discriminate.
Qed.
End master_weights_example.


(** ** The frame of the merge, with its messages *)

Section merge_messages.
Context `{Backend} `{Utils}.
Implicit Types (cur t : Tensor) (plan : SendInfo) (net : Net) (sd : StateDict).

Lemma concat_with_data dt rest (ts : list Tensor) n data :
  concat_with dt rest ts = Some (n, data) → data = mjoin (t_data <$> ts).
Proof.
  revert n data. induction ts as [|t ts IH]; intros n data; simpl.
  { by intros [= _ <-]. }
  destruct (t_shape t) as [|d rest']; [done|].
  case_decide; [|done].
  destruct (concat_with dt rest ts) as [[n' data']|]; simpl; [|done].
  intros [= _ <-]. by rewrite (IH n' data').
Qed.

(** [paddle.concat] joins the elements of its inputs, in order. *)
Lemma concat_data (ts : list Tensor) merged :
  concat ts = Some merged → t_data merged = mjoin (t_data <$> ts).
Proof.
  unfold concat. destruct ts as [|t ts]; [done|].
  destruct (t_shape t) as [|d rest] eqn:Hshape; [done|].
  destruct (concat_with _ _ _) as [[n data]|] eqn:Hcat; simpl; [|done].
  intros [= <-]. exact (concat_with_data _ _ _ _ _ Hcat).
Qed.

(** What the owner's loop collected, tuple by tuple: the fragment cut from
    its own entry, or the message at the head of the sender's queue. *)
Lemma collect_fragments_data net0 recv_rank cur S E plan net frags net' :
  NoDup (plan_ranks plan) →
  (∀ r, r ∈ plan_ranks plan → inbox net !! r = inbox net0 !! r) →
  collect_fragments recv_rank cur S E plan net = Some (frags, net') →
  Forall2 (λ frag '(r, b, e),
             if bool_decide (r = recv_rank)
             then own_fragment cur b e S E = Some frag
             else ∃ ms, inbox net0 !! r = Some (t_data frag :: ms))
          frags plan.
Proof.
  revert net frags. induction plan as [|[[r b] e] plan IH];
    intros net frags Hnd Hsame Hrun; simpl in Hrun.
  { injection Hrun as <- _. constructor. }
  apply NoDup_cons in Hnd as [Hnotin Hnd].
  case_bool_decide as Hr.
  - destruct (own_fragment cur b e S E) as [frag|] eqn:Hfrag; simpl in Hrun; [|done].
    destruct (collect_fragments recv_rank cur S E plan net) as [[tl net2]|] eqn:Htl;
      simpl in Hrun; [|done].
    injection Hrun as <- <-. constructor.
    + by rewrite bool_decide_eq_true_2.
    + eapply IH; [done| |done]. intros r' Hr'. apply Hsame. by right.
  - unfold empty, zeros in Hrun. case_decide as Hneg; [done|]. simpl in Hrun.
    unfold recv in Hrun. simpl in Hrun.
    destruct (inbox net !! r) as [[|m ms]|] eqn:Hin; [done| |done].
    case_decide as Hm; [|done]. simpl in Hrun.
    match type of Hrun with
    | context [collect_fragments _ _ _ _ _ ?n] =>
        destruct (collect_fragments recv_rank cur S E plan n) as [[tl net2]|] eqn:Htl
    end; simpl in Hrun; [|done].
    injection Hrun as <- <-. constructor.
    + rewrite bool_decide_eq_false_2 by done. simpl. exists ms.
      rewrite <-Hsame by left. done.
    + eapply IH; [done| |done]. intros r' Hr'. simpl.
      rewrite lookup_insert_ne.
      * apply Hsame. by right.
      * intros ->. by apply Hnotin.
Qed.

Section entry.
Variables (global_rank : Z) (partial_tensor_list : list string)
          (param_shape_info : gmap string ShapeInfo)
          (send_table : gmap string SendInfo) (recv_table : gmap string Z)
          (is_master_weights : bool).

Abbreviation body :=
  (merge_entry global_rank partial_tensor_list param_shape_info send_table
     recv_table is_master_weights).
Abbreviation takes :=
  (takes_from global_rank partial_tensor_list send_table recv_table
     is_master_weights).
Abbreviation taken :=
  (taken_before global_rank partial_tensor_list send_table recv_table
     is_master_weights).

(** One step of the first loop takes the oldest message of every rank the
    entry [takes_from], and no other. *)
Lemma merge_entry_inbox key sd net sd' net' r :
  plans_NoDup send_table →
  body key (sd, net) = Some (sd', net') →
  inbox net' !! r
  = drop (if takes sd r key then 1 else 0) <$> inbox net !! r.
Proof.
  assert (∀ o : option (list (list elem)), o = drop 0 <$> o) as Hid.
  { by intros [l|]. }
  unfold merge_entry, takes_from. intros plans Hrun.
  destruct (od_get sd key) as [cur|] eqn:Hcur; simpl in Hrun; [|done].
  case_bool_decide as Hone.
  { injection Hrun as <- <-. rewrite bool_decide_eq_false_2 by (by intros ?).
    apply Hid. }
  rewrite (bool_decide_eq_true_2 (numel cur ≠ 1)) by done.
  destruct (param_shape_info !! _) as [[[[shape n] i] p]|]; simpl in Hrun; [|done].
  case_bool_decide as Hpart.
  { destruct (reshape cur shape); simpl in Hrun; [|done]. injection Hrun as <- <-.
    rewrite (bool_decide_eq_false_2 (_ ∈ _)) by done. apply Hid. }
  rewrite (bool_decide_eq_true_2 (_ ∈ _)) by done.
  destruct (recv_table !! _) as [recv_rank|] eqn:Hrecv; simpl in Hrun; [|done].
  destruct (send_table !! _) as [plan|] eqn:Hsend; simpl in Hrun; [|done].
  case_bool_decide as Hown.
  - subst recv_rank. rewrite bool_decide_eq_true_2 by done. simpl.
    destruct (collect_fragments _ _ _ _ _ _) as [[frags net1]|] eqn:Hfr;
      simpl in Hrun; [|done].
    destruct (concat frags) as [merged|]; simpl in Hrun; [|done].
    destruct (reshape merged shape); simpl in Hrun; [|done].
    injection Hrun as <- <-.
    rewrite (collect_fragments_inbox _ _ _ _ _ _ _ _ (plans _ _ Hsend) Hfr r).
    case_bool_decide as Hr.
    + rewrite decide_True by done. by destruct (inbox net !! r) as [[|m ms]|].
    + rewrite decide_False by done. apply Hid.
  - rewrite (bool_decide_eq_false_2 (Some recv_rank = Some global_rank))
      by congruence.
    simpl.
    apply send_fragments_Some in Hrun
      as [(_ & _ & ->)|(_ & _ & b & e & c & frag & _ & _ & _ & Hsent)].
    + apply Hid.
    + apply send_inv in Hsent as [_ ->]. simpl. apply Hid.
Qed.

(** Whether an entry takes a message depends on the entry only. *)
Lemma takes_from_touched key sd sd' r k :
  od_touched key sd sd' → key ≠ k → takes sd' r k = takes sd r k.
Proof.
  intros Ht Hne. unfold takes_from. by rewrite (od_touched_other _ _ _ _ Ht Hne).
Qed.

Lemma taken_before_touched key sd sd' r ks :
  od_touched key sd sd' → key ∉ ks → taken sd' r ks = taken sd r ks.
Proof.
  intros Ht Hnotin. unfold taken_before. f_equal.
  induction ks as [|k ks IH]; [done|].
  apply not_elem_of_cons in Hnotin as [Hne Hnotin].
  rewrite !filter_cons, (takes_from_touched _ _ _ _ _ Ht Hne), (IH Hnotin). done.
Qed.

(** The inbox after the first loop has run over [ks]: of every rank, the
    messages taken for these keys are gone, oldest first. *)
Lemma merge_loop_inbox ks sd net sd' net' r :
  plans_NoDup send_table → NoDup ks →
  for_each body ks (sd, net) = Some (sd', net') →
  inbox net' !! r = drop (taken sd r ks) <$> inbox net !! r.
Proof.
  intros plans. revert sd net. induction ks as [|k ks IH]; intros sd net Hnd Hrun;
    cbn [for_each] in Hrun.
  { injection Hrun as <- <-. by destruct (inbox net !! r). }
  apply NoDup_cons in Hnd as [Hnotin Hnd].
  destruct (body k (sd, net)) as [[sd1 net1]|] eqn:Hstep; [|done].
  rewrite (IH _ _ Hnd Hrun), (merge_entry_inbox _ _ _ _ _ r plans Hstep).
  rewrite (taken_before_touched k sd sd1)
    by (done || by eapply merge_entry_touched).
  unfold taken_before. rewrite filter_cons.
  destruct (inbox net !! r) as [l|]; simpl; [|done]. f_equal.
  destruct (takes sd r k) eqn:Htakes.
  - rewrite decide_True by done. simpl. by rewrite drop_drop.
  - rewrite decide_False by (by intros ?). by rewrite drop_drop.
Qed.

(** The first loop only appends to the messages emitted. *)
Lemma merge_loop_outbox ks st st' :
  for_each body ks st = Some st' →
  ∃ sent, outbox st'.2 = outbox st.2 ++ sent.
Proof.
  intros Hrun.
  refine (for_each_invariant (λ s, ∃ sent, outbox s.2 = outbox st.2 ++ sent)
            _ _ _ _ _ _ Hrun).
  - intros k s s' _ [sent Hs] Hb.
    apply merge_entry_kept in Hb as (_ & _ & sent' & Hs' & _).
    exists (sent ++ sent'). by rewrite Hs', Hs, app_assoc.
  - exists []. by rewrite app_nil_r.
Qed.

(** The entry under a key is the initial one until the loop reaches it, and
    is not touched after. *)
Lemma merge_loop_untouched ks sd net sd' net' key :
  key ∉ ks →
  for_each body ks (sd, net) = Some (sd', net') →
  od_get sd' key = od_get sd key.
Proof.
  intros Hnotin Hrun.
  refine (for_each_invariant (λ s, od_get s.1 key = od_get sd key)
            _ _ (sd, net) (sd', net') _ _ Hrun); [|done].
  intros k [s n] [s' n'] Hk Hs Hb. simpl in *. rewrite <-Hs.
  eapply od_touched_other; [by eapply merge_entry_touched|].
  intros ->. done.
Qed.

(** The run of the first loop, cut at a key. *)
Lemma merge_loop_at_key sd net sd' net' key before after :
  NoDup (od_keys sd) → od_keys sd = before ++ key :: after →
  for_each body (od_keys sd) (sd, net) = Some (sd', net') →
  ∃ sd1 net1 sd2 net2,
    od_get sd1 key = od_get sd key ∧
    (plans_NoDup send_table →
     ∀ r, inbox net1 !! r = drop (taken sd r before) <$> inbox net !! r) ∧
    body key (sd1, net1) = Some (sd2, net2) ∧
    od_get sd' key = od_get sd2 key ∧
    ∃ sent, outbox net' = outbox net2 ++ sent.
Proof.
  intros Hnd Hkeys Hrun. rewrite Hkeys in Hrun, Hnd.
  apply NoDup_app in Hnd as (Hndb & Hdisj & Hnda).
  apply NoDup_cons in Hnda as [Hnotin Hnda].
  rewrite for_each_app in Hrun.
  destruct (for_each body before (sd, net)) as [[sd1 net1]|] eqn:Hbefore;
    cbn [mbind option_bind for_each] in Hrun; [|done].
  destruct (body key (sd1, net1)) as [[sd2 net2]|] eqn:Hstep; [|done].
  exists sd1, net1, sd2, net2. split; [|split; [|split; [done|split]]].
  - eapply merge_loop_untouched; [|done]. intros Hin. by eapply Hdisj; [|left].
  - intros plans r. by eapply merge_loop_inbox.
  - by eapply merge_loop_untouched.
  - by apply merge_loop_outbox in Hrun.
Qed.
End entry.
End merge_messages.

Section merge_frame_facts.
Context `{Backend} `{Utils}.
Implicit Types (cur t : Tensor) (plan : SendInfo) (net : Net) (sd : StateDict).

Lemma Forall2_fmap_eq {A B C : Type} (g : A → C) (f : B → C) (l : list A) (k : list B) :
  Forall2 (λ a b, g a = f b) l k → g <$> l = f <$> k.
Proof. induction 1 as [|a b l k Hab _ IH]; [done|]. by rewrite !fmap_cons, Hab, IH. Qed.

Lemma Forall2_impl_elem_of {A B : Type} (P Q : A → B → Prop) (l : list A) (k : list B) :
  Forall2 P l k → (∀ x y, y ∈ k → P x y → Q x y) → Forall2 Q l k.
Proof.
  induction 1 as [|a b l k Hab _ IH]; intros Himpl; constructor.
  - apply Himpl; [left|done].
  - apply IH. intros x y Hy. apply Himpl. by right.
Qed.

(** The message at the head of a queue from which [c] messages are gone. *)
Lemma message_drop net net1 r c m ms :
  inbox net1 !! r = drop c <$> inbox net !! r →
  inbox net1 !! r = Some (m :: ms) →
  message net r c = m.
Proof.
  intros Hdrop Hhead. rewrite Hdrop in Hhead. unfold message.
  destruct (inbox net !! r) as [l|]; simpl in *; [|done].
  injection Hhead as Hhead.
  assert (drop c l !! 0%nat = Some m) as Hm by (by rewrite Hhead).
  rewrite lookup_drop, Nat.add_0_r in Hm. by rewrite Hm.
Qed.
End merge_frame_facts.

(** C4, as the code has it.  After [merge_splited_param] completes, for an
    entry of other than one element of a partial parameter (line 66 skips an
    entry of one element, which stays and is not sent).  On a rank other
    than [recv_rank] that appears in the send plan the key is gone, and the
    part of its 1-D slice below the padding, which is not empty, is among the
    messages the rank emitted to [recv_rank].  On [recv_rank] the key holds
    the merged tensor: its elements are, in plan order, the part of the
    rank's own slice below the padding and, for every other rank of the
    plan, the message of that rank that follows those taken for the keys
    before; it has the dtype of the entry, and when the plan tiles
    [[index, index + padded_size)] it has the logical shape and [numel]
    elements.  An entry of other than one element of a parameter that is not
    partial stays under its key, reshaped.  And when [ckpt_quant_stage] is
    ["O0"], the keys of sending ranks are the only ones that disappear. *)
Theorem merge_frame `{Backend} `{Utils}
    (global_rank : Z) (partial_tensor_list : list string)
    (param_shape_info : gmap string ShapeInfo) (send_table : gmap string SendInfo)
    (recv_table : gmap string Z) (is_master_weights : bool)
    (ckpt_quant_stage : string) (sd : StateDict) (net : Net)
    (sd' : StateDict) (net' : Net) :
  NoDup (od_keys sd) →
  merge_splited_param global_rank partial_tensor_list param_shape_info send_table
    recv_table is_master_weights ckpt_quant_stage sd net = Some (sd', net') →
  ∀ key cur, od_get sd key = Some cur →
    let static_name := static_name_of is_master_weights key in
    (numel cur ≠ 1 → static_name ∈ partial_tensor_list →
       ∃ recv_rank plan shape n i p,
         recv_table !! static_name = Some recv_rank ∧
         send_table !! static_name = Some plan ∧
         param_shape_info !! static_name = Some (shape, n, i, p) ∧
         (global_rank ≠ recv_rank → global_rank ∈ plan_ranks plan →
            od_get sd' key = None ∧
            ∃ b e, (global_rank, b, e) ∈ plan ∧
              (is_vec cur → numel cur = e - b →
               let data := sent_part (i + n) (i + p) (global_rank, b, e) (t_data cur) in
               data ≠ [] ∧ (recv_rank, data) ∈ outbox net')) ∧
         (global_rank = recv_rank →
            is_vec cur →
            (∀ b e, (global_rank, b, e) ∈ plan → numel cur = e - b) →
            plans_NoDup send_table →
            ∃ before after t,
              od_keys sd = before ++ key :: after ∧
              od_get sd' key = Some t ∧
              t_dtype t = t_dtype cur ∧
              t_data t
              = mjoin ((λ x, if bool_decide (x.1.1 = global_rank)
                             then sent_part (i + n) (i + p) x (t_data cur)
                             else message net x.1.1
                                    (taken_before global_rank partial_tensor_list
                                       send_table recv_table is_master_weights
                                       sd x.1.1 before))
                         <$> plan) ∧
              (tiles i (i + p) plan → 0 <= n <= p →
               Forall (λ d, 0 < d) shape → prodZ shape = n →
               t_shape t = shape ∧ numel t = n))) ∧
    (numel cur ≠ 1 → static_name ∉ partial_tensor_list →
       ∃ shape n i p t,
         param_shape_info !! static_name = Some (shape, n, i, p) ∧
         reshape cur shape = Some t ∧
         od_get sd' key = Some t) ∧
    (ckpt_quant_stage = "O0" → od_get sd' key = None →
       numel cur ≠ 1 ∧ static_name ∈ partial_tensor_list ∧
       ∃ recv_rank plan,
         recv_table !! static_name = Some recv_rank ∧
         send_table !! static_name = Some plan ∧
         global_rank ≠ recv_rank ∧ global_rank ∈ plan_ranks plan).
Proof.
  intros Hnd Hrun key cur Hcur. cbv zeta.
  destruct (merge_splited_param_at _ _ _ _ _ _ _ _ _ _ _ key cur Hnd Hcur Hrun)
    as (o & Hout & Hres).
  assert (∀ t, static_name_of is_master_weights key ∉ partial_tensor_list →
               scalar_dropped global_rank partial_tensor_list recv_table
                 is_master_weights key t = false) as Hkeep_full.
  { intros t Hpart. unfold scalar_dropped.
    rewrite (bool_decide_eq_false_2 (_ ∈ _)) by done.
    by rewrite andb_false_r, andb_false_l. }
  split; [|split].
  - intros Hmany Hpart.
    (* the state of the run when the first loop reaches the key *)
    unfold merge_splited_param in Hrun.
    destruct (for_each _ (od_keys sd) (sd, net)) as [[sd1 net1]|] eqn:Hloop;
      simpl in Hrun; [|done].
    assert (net' = net1 ∧
            od_get sd' key
            = od_get sd1 key ≫= λ v,
                if bool_decide (ckpt_quant_stage ≠ "O0")
                   && scalar_dropped global_rank partial_tensor_list recv_table
                        is_master_weights key v
                then None else Some v) as [-> Hfinal].
    { case_bool_decide.
      - destruct (for_each _ (od_keys sd1) sd1) as [sd2|] eqn:Hdrop;
          simpl in Hrun; [|done].
        injection Hrun as <- <-. split; [done|].
        eapply drop_loop_at; [|done]. by eapply merge_loop_NoDup.
      - injection Hrun as <- <-. split; [done|]. simpl.
        by destruct (od_get sd1 key). }
    assert (key ∈ od_keys sd) as Hkey by (apply od_get_is_Some; eauto).
    apply list_elem_of_split in Hkey as (before & after & Hkeys).
    destruct (merge_loop_at_key _ _ _ _ _ _ _ _ _ _ _ _ _ Hnd Hkeys Hloop)
      as (sdA & netA & sdB & netB & HcurA & Hinbox & Hstep & HresB & sent & Hsent).
    rewrite Hcur in HcurA. rewrite HresB in Hfinal. clear HresB.
    unfold merge_entry in Hstep. rewrite HcurA in Hstep. simpl in Hstep.
    rewrite bool_decide_eq_false_2 in Hstep by done.
    destruct (param_shape_info !! _) as [[[[shape n] i] p]|] eqn:Hshape;
      simpl in Hstep; [|done].
    rewrite bool_decide_eq_false_2 in Hstep by (by intros ?).
    destruct (recv_table !! _) as [recv_rank|] eqn:Hrecv; simpl in Hstep; [|done].
    destruct (send_table !! _) as [plan|] eqn:Hsend; simpl in Hstep; [|done].
    exists recv_rank, plan, shape, n, i, p.
    split; [done|]. split; [done|]. split; [done|].
    case_bool_decide as Hown.
    + (* the receiving rank *)
      split; [done|]. intros _ Hvec Hlen Hplans. subst recv_rank.
      destruct (collect_fragments _ _ _ _ _ _) as [[frags netC]|] eqn:Hfr;
        simpl in Hstep; [|done].
      destruct (concat frags) as [merged|] eqn:Hcat; simpl in Hstep; [|done].
      destruct (reshape merged shape) as [t|] eqn:Ht; simpl in Hstep; [|done].
      injection Hstep as <- <-.
      rewrite od_get_set_eq in Hfinal. simpl in Hfinal.
      assert (scalar_dropped global_rank partial_tensor_list recv_table
                is_master_weights key t = false) as Hkeep.
      { unfold scalar_dropped.
        rewrite (bool_decide_eq_false_2 (_ ≠ _)) by (by intros ?).
        by rewrite andb_false_r. }
      rewrite Hkeep, andb_false_r in Hfinal.
      exists before, after, t. split; [done|]. split; [done|].
      pose proof (reshape_Some _ _ _ Ht) as (Htd & Htdt & _).
      pose proof (concat_data _ _ Hcat) as Hmd.
      assert (∀ r b e, (r, b, e) ∈ plan → r = global_rank → numel cur = e - b)
        as Hlen'.
      { intros r b e Hin ->. by eapply Hlen. }
      split; [|split].
      * rewrite Htdt.
        destruct (collect_fragments_dtype _ _ _ _ _ _ _ _ Hfr) as [Hdts _].
        destruct frags as [|f frags]; [done|].
        apply concat_dtype in Hcat as ->. by apply Forall_cons in Hdts as [-> _].
      * rewrite Htd, Hmd. f_equal.
        apply Forall2_fmap_eq.
        pose proof (collect_fragments_data netA _ _ _ _ _ _ _ _
                      (Hplans _ _ Hsend) (λ _ _, eq_refl) Hfr) as Hdata.
        eapply Forall2_impl_elem_of; [exact Hdata|].
        intros frag [[r b] e] Hin Hprov. simpl in *.
        case_bool_decide as Hr.
        -- subst r.
           destruct (own_fragment_vec cur b e (i + n) (i + p) Hvec (Hlen b e Hin))
             as (frag' & Hfrag' & _ & _ & _ & Hfd).
           rewrite Hfrag' in Hprov. by injection Hprov as <-.
        -- destruct Hprov as [ms Hq]. symmetry.
           eapply message_drop; [by apply Hinbox|done].
      * intros Htiles Hn Hpos Hprod.
        destruct (collect_fragments_lengths _ _ _ _ _ _ _ _ Hvec Hlen' Hfr)
          as [Hlens _].
        assert (numel merged = n) as Hmn.
        { unfold numel. rewrite Hmd, length_mjoin_data.
          rewrite (fragments_total_length _ _ _ _ _ Hlens).
          rewrite (tiles_recv_length i (i + p)) by done. lia. }
        rewrite reshape_pos in Ht by (done || congruence).
        injection Ht as <-. done.
    + (* another rank *)
      split; [|done]. intros _ Hin.
      apply send_fragments_Some in Hstep
        as [(Hnotin & _ & _)|(_ & -> & b & e & c & frag & Hx & Hc & Hfrag & Hsend')];
        [done|].
      rewrite od_get_del_eq in Hfinal. split; [done|].
      exists b, e. split; [done|]. intros Hvec Hl. cbv zeta.
      rewrite HcurA in Hc. injection Hc as <-.
      destruct (own_fragment_vec cur b e (i + n) (i + p) Hvec Hl)
        as (frag' & Hfrag' & _ & _ & _ & Hfd).
      rewrite Hfrag' in Hfrag. injection Hfrag as ->.
      apply send_inv in Hsend' as [Hne ->]. simpl in Hsent.
      unfold sent_part. simpl. rewrite <-Hfd. split; [done|].
      rewrite Hsent. apply elem_of_app. left. apply elem_of_app. right. left.
  - intros Hmany Hpart.
    inversion Hout as [Hone|shape n i p t _ Hshape _ Ht| | |]; subst o; try done.
    exists shape, n, i, p, t. repeat (split; [done|]).
    rewrite Hres. simpl. rewrite Hkeep_full by done. by case_bool_decide.
  - intros -> Hgone. rewrite bool_decide_eq_false_2 in Hres by (by intros ?).
    rewrite Hres in Hgone. rewrite Hgone in Hout.
    inversion Hout; subst. split; [done|]. split; [done|]. eexists _, _. eauto.
Qed.

Section merge_frame_example.
#[local] Existing Instance Examples.Z_backend.
#[local] Existing Instance Examples.slash_utils.
Import Examples.

(** Rank 0 of the scenario, with the message of rank 1 in its inbox: after
    its run the moment of [w] has the logical shape and ten elements. *)
Lemma merge_frame_witness :
  NoDup (od_keys sd_rank0) ∧
  ∃ sd' net' t,
    merge_splited_param 0 ["w"] w_shape_info w_send_table w_recv_table false "O0"
      sd_rank0 inbox_rank0 = Some (sd', net') ∧
    od_get sd' "w/moment1_0" = Some t ∧ t_shape t = [2; 5] ∧ numel t = 10.
Proof.
  assert (NoDup (od_keys sd_rank0)) as Hnd by decide_by_compute.
  split; [exact Hnd|].
  destruct (merge_splited_param 0 ["w"] w_shape_info w_send_table w_recv_table
              false "O0" sd_rank0 inbox_rank0) as [[sd' net']|] eqn:Hrun.
  - destruct (merge_frame 0 ["w"] w_shape_info w_send_table w_recv_table false "O0"
                sd_rank0 inbox_rank0 sd' net' Hnd Hrun "w/moment1_0"
                (vec float32 [1; 2; 3; 4; 5; 6]) eq_refl) as (Hpartial & _ & _).
    destruct Hpartial
      as (recv_rank & plan & shape & n & i & p & Hrecv & Hsend & Hshape & _ & Howner).
    + discriminate.
    + decide_by_compute.
    + vm_compute in Hrecv. injection Hrecv as <-.
      vm_compute in Hsend. injection Hsend as <-.
      vm_compute in Hshape. injection Hshape as <- <- <- <-.
      destruct Howner as (before & after & t & _ & Hget & _ & _ & Htiled).
      * reflexivity.
      * reflexivity.
      * intros b e Hin.
        apply elem_of_cons in Hin as [Heq|Hin]; [injection Heq as -> ->; reflexivity|].
        apply elem_of_cons in Hin as [Heq|Hin]; [discriminate Heq|].
        by apply elem_of_nil in Hin.
      * intros name plan Hl. unfold w_send_table in Hl.
        apply lookup_singleton_Some in Hl as [_ <-]. decide_by_compute.
      * exists sd', net', t. split; [reflexivity|]. split; [exact Hget|].
        apply Htiled; [simpl; lia|lia|repeat constructor|reflexivity].
  - exfalso. vm_compute in Hrun. discriminate Hrun.
Defined.

(** C4 as stated fails on a rank whose fragment has exactly one element.
    Rank 1 holds the last element of [u], rank 0 is the receiver and rank 1
    is in the send plan; line 66 makes rank 1 skip its entry: after the merge
    the key is still there and nothing was sent. *)
Lemma sender_keeps_one_element_fragment :
  tiles 0 (0 + 4) [(0, 0, 3); (1, 3, 4)] ∧
  u_recv_table !! "u" = Some 0 ∧
  u_send_table !! "u" = Some [(0, 0, 3); (1, 3, 4)] ∧
  merge_splited_param 1 ["u"] u_shape_info u_send_table u_recv_table false "O0"
    [("u/moment1_0", vector float32 [8])] empty_net
  = Some ([("u/moment1_0", vector float32 [8])], empty_net).
Proof.
  split; [simpl; lia|]. split; [reflexivity|]. split; [reflexivity|].
  vm_compute. reflexivity.
Qed.
End merge_frame_example.
